(** * Poker simulator: hand evaluation, outs, equity dealing, pot odds,
      decisions and range estimation

    A shallow embedding of [poker_engine.py], [range_estimator.py] and the
    hand set-up of [app.py].

    Conventions of the embedding:
    - a [Card] is one of the 52 cards of [create_deck]: its rank is one of
      the thirteen keys of [RANK_VALUES] and its suit one of [SUITS];
      [Card.__eq__] compares rank and suit, which is Leibniz equality here;
    - Python [int]s are [Z];
    - Python [float]s are IEEE 754 binary64 numbers: [spec_float] of the
      Standard Library at precision 53 and maximal exponent 1024, with its
      round-to-nearest-even arithmetic;
    - Python lists are lists, a [Counter] is the association list of its
      items in insertion order, a set of strings is a [gset string];
    - [sorted(..., reverse=True)] is a stable insertion sort. *)

From Stdlib Require Import ZArith QArith Qround List Lia Bool Ascii.
From Stdlib Require Import Floats.SpecFloat.
From stdpp Require Import base decidable list gmap strings sorting pretty.

Local Open Scope Z_scope.

(** ** Python numbers

    The money amounts and percentages of the program are Python floats.
    A float division is recorded with its divisor, and fails on a zero
    divisor as [ZeroDivisionError] does. *)

Module PyNum.

(** A Python [float]. *)
Definition float : Set := spec_float.
Definition prec : Z := 53.
Definition emax : Z := 1024.

(** The double nearest to [p / q], with sign [s] (ties to even), as
    [float.__truediv__] computes the quotient of two finite doubles. *)
Definition round_pos (s : bool) (p q : positive) : float :=
  let '(mz, ez, lz) := SFdiv_core_binary prec emax (Zpos p) 0 (Zpos q) 0 in
  binary_round_aux prec emax s mz ez lz.

(** The double nearest to a rational: what a float literal of the source
    denotes, and what [strtod] returns for a decimal string. *)
Definition nearest (q : Q) : float :=
  match Qnum q with
  | Z0 => S754_zero false
  | Zpos p => round_pos false p (Qden q)
  | Zneg p => round_pos true p (Qden q)
  end.

(** [float(n)] for an [int]; an [int] operand of a float operation is
    converted so. *)
Definition of_Z (n : Z) : float := binary_normalize prec emax n 0 false.
Coercion of_Z : Z >-> float.

(** The exact value of a finite float. *)
Definition to_Q (x : float) : option Q :=
  match x with
  | S754_zero _ => Some 0%Q
  | S754_finite s m e =>
      let v := (inject_Z (Zpos m) * (2 ^ e))%Q in
      Some (if s then (- v)%Q else v)
  | _ => None
  end.

(** [x + y], [x - y], [x * y] and the quotient of [x / y] *)
Definition fadd : float -> float -> float := SFadd prec emax.
Definition fsub : float -> float -> float := SFsub prec emax.
Definition fmul : float -> float -> float := SFmul prec emax.
Definition fdiv : float -> float -> float := SFdiv prec emax.

(** [x < y], [x <= y], [x == y], [x > y] *)
Definition fltb : float -> float -> bool := SFltb.
Definition fleb : float -> float -> bool := SFleb.
Definition feqb : float -> float -> bool := SFeqb.
Definition fgtb (x y : float) : bool := SFltb y x.

(** A computation that may raise [ZeroDivisionError] ([None]) and the
    divisors of the divisions it evaluated, in order. *)
Definition Traced (A : Type) : Type := (list float * option A)%type.

Definition ret {A} (a : A) : Traced A := ([], Some a).

Definition bind {A B} (m : Traced A) (f : A -> Traced B) : Traced B :=
  match m with
  | (divs, None) => (divs, None)
  | (divs, Some a) => let '(divs', r) := f a in (divs ++ divs', r)
  end.

Notation "'let*' x ':=' m 'in' k" := (bind m (fun x => k))
  (at level 10, x name, m at level 100, k at level 200).

(** [x / y] on floats *)
Definition py_div (x y : float) : Traced float :=
  ([y], if feqb y 0 then None else Some (fdiv x y)).

Definition divisors {A} (m : Traced A) : list float := fst m.
Definition result {A} (m : Traced A) : option A := snd m.

(** [a / b] on two [int]s with [b] not zero: the double nearest to the
    exact quotient. *)
Definition int_div (a b : Z) : float := nearest (inject_Z a / inject_Z b).

(** The integer nearest to a rational, a tie going to the even one. *)
Definition half_even (y : Q) : Z :=
  let f := Qfloor y in
  match Qcompare (y - inject_Z f) (1 # 2) with
  | Lt => f
  | Gt => f + 1
  | Eq => if Z.even f then f else f + 1
  end.

(** [round(x, n)] on a float, for [n] decimals: the exact value of [x] is
    rounded to [n] decimals, a tie going to the even digit, and the double
    nearest to that decimal number is returned; the sign is kept, and an
    infinity or a NaN is returned as it is. *)
Definition py_round (x : float) (ndigits : nat) : float :=
  match x with
  | S754_finite s m e =>
      let scale := 10 ^ Z.of_nat ndigits in
      let y := (inject_Z (Zpos m) * (2 ^ e) * inject_Z scale)%Q in
      match half_even y with
      | Zpos k => round_pos s k (Z.to_pos scale)
      | _ => S754_zero s
      end
  | _ => x
  end.

End PyNum.

(** ** poker_engine.py *)

Module PokerEngine.
Import PyNum.

(** [RANKS = ['2', ..., '10', 'J', 'Q', 'K', 'A']] *)
Inductive Rank : Set :=
  | R2 | R3 | R4 | R5 | R6 | R7 | R8 | R9 | R10 | RJ | RQ | RK | RA.

(** [SUITS = ['H', 'D', 'C', 'S']] *)
Inductive Suit : Set := H | D | C | S.

Definition RANKS : list Rank :=
  [R2; R3; R4; R5; R6; R7; R8; R9; R10; RJ; RQ; RK; RA].

Definition SUITS : list Suit := [H; D; C; S].

(** [RANK_VALUES = {r: i for i, r in enumerate(RANKS)}] *)
Definition RANK_VALUES (r : Rank) : Z :=
  match r with
  | R2 => 0 | R3 => 1 | R4 => 2 | R5 => 3 | R6 => 4 | R7 => 5 | R8 => 6
  | R9 => 7 | R10 => 8 | RJ => 9 | RQ => 10 | RK => 11 | RA => 12
  end.

Inductive HandRank : Set :=
  | HIGH_CARD | PAIR | TWO_PAIR | THREE_OF_A_KIND | STRAIGHT | FLUSH
  | FULL_HOUSE | FOUR_OF_A_KIND | STRAIGHT_FLUSH | ROYAL_FLUSH.

(** [HandRank.X.value] *)
Definition hr_value (h : HandRank) : Z :=
  match h with
  | HIGH_CARD => 0 | PAIR => 1 | TWO_PAIR => 2 | THREE_OF_A_KIND => 3
  | STRAIGHT => 4 | FLUSH => 5 | FULL_HOUSE => 6 | FOUR_OF_A_KIND => 7
  | STRAIGHT_FLUSH => 8 | ROYAL_FLUSH => 9
  end.

Record Card : Set := mkCard { rank : Rank; suit : Suit }.

(** [self.value = RANK_VALUES[rank]] *)
Definition value (c : Card) : Z := RANK_VALUES (rank c).

#[global] Instance Rank_eq_dec : EqDecision Rank.
Proof. solve_decision. Defined.
#[global] Instance Suit_eq_dec : EqDecision Suit.
Proof. solve_decision. Defined.
#[global] Instance HandRank_eq_dec : EqDecision HandRank.
Proof. solve_decision. Defined.
#[global] Instance Card_eq_dec : EqDecision Card.
Proof. solve_decision. Defined.

(** [[Card(r, s) for r in RANKS for s in SUITS]] *)
Definition create_deck : list Card :=
  flat_map (fun r => map (fun s => mkCard r s) SUITS) RANKS.

(** *** Python built-ins used by the evaluator *)

(** [sorted(l, key=key, reverse=True)]: stable, descending on the key.
    The keys are compared by [geb]. *)
Section Sorted.
Context {A : Type} (geb : A -> A -> bool).

Fixpoint insert_desc (x : A) (l : list A) : list A :=
  match l with
  | [] => [x]
  | y :: l' => if geb x y then x :: y :: l' else y :: insert_desc x l'
  end.

Fixpoint sorted_desc (l : list A) : list A :=
  match l with
  | [] => []
  | x :: l' => insert_desc x (sorted_desc l')
  end.
End Sorted.

(** [sorted(l, reverse=True)] on a list of ints *)
Definition sorted_rev (l : list Z) : list Z := sorted_desc Z.geb l.

(** [Counter(values)]: each key with its multiplicity, keys in the order
    of their first occurrence. *)
Fixpoint counter_incr (x : Z) (items : list (Z * Z)) : list (Z * Z) :=
  match items with
  | [] => [(x, 1)]
  | (k, n) :: items' =>
      if Z.eqb k x then (k, n + 1) :: items'
      else (k, n) :: counter_incr x items'
  end.

Definition Counter (l : list Z) : list (Z * Z) :=
  fold_left (fun items x => counter_incr x items) l [].

(** The key [lambda x: (x[1], x[0])] of [sorted_by_count], compared as
    Python compares tuples. *)
Definition count_then_value_geb (a b : Z * Z) : bool :=
  if Z.eqb (snd a) (snd b) then Z.geb (fst a) (fst b)
  else Z.gtb (snd a) (snd b).

(** [set(l)] of ints or suits, up to the iteration order (every use below
    either sorts the result or takes its length). *)
Definition py_set {A} `{EqDecision A} (l : list A) : list A := remove_dups l.

(** Python's [>] on lists of ints: lexicographic, a proper prefix is
    smaller. *)
Fixpoint list_gt (a b : list Z) : bool :=
  match a, b with
  | [], _ => false
  | _ :: _, [] => true
  | x :: a', y :: b' =>
      if Z.eqb x y then list_gt a' b' else Z.gtb x y
  end.

Definition list_eqb (a b : list Z) : bool := bool_decide (a = b).

(** [itertools.combinations(l, k)], in itertools' order. *)
Fixpoint combinations {A} (l : list A) (k : nat) : list (list A) :=
  match k with
  | O => [[]]
  | Datatypes.S k' =>
      match l with
      | [] => []
      | x :: l' => map (cons x) (combinations l' k') ++ combinations l' k
      end
  end.

(** *** Hand evaluation *)

Definition EvaluatedHand : Set := (HandRank * list Z)%type.

(** Index into a list of ints; the evaluator only indexes
    [unique_values] after checking that it has five elements. *)
Definition idx (l : list Z) (i : nat) : Z := nth i l 0.

(** [_evaluate_five_cards] *)
Definition _evaluate_five_cards (cards : list Card) : EvaluatedHand :=
  let values := sorted_rev (map value cards) in
  let suits := map suit cards in
  let is_flush := Nat.eqb (length (py_set suits)) 1 in
  let unique_values := sorted_rev (py_set values) in
  let '(is_straight, straight_high) :=
    if Nat.eqb (length unique_values) 5 then
      if Z.eqb (idx unique_values 0 - idx unique_values 4) 4 then
        (true, idx unique_values 0)
      else if list_eqb unique_values [12; 3; 2; 1; 0] then (true, 3)
      else (false, 0)
    else (false, 0) in
  let rank_counts := Counter values in
  let counts := sorted_rev (map snd rank_counts) in
  let sorted_by_count := sorted_desc count_then_value_geb rank_counts in
  let kickers := map fst sorted_by_count in
  if is_straight && is_flush then
    if Z.eqb straight_high 12 then (ROYAL_FLUSH, [straight_high])
    else (STRAIGHT_FLUSH, [straight_high])
  else if list_eqb counts [4; 1] then (FOUR_OF_A_KIND, kickers)
  else if list_eqb counts [3; 2] then (FULL_HOUSE, kickers)
  else if is_flush then (FLUSH, values)
  else if is_straight then (STRAIGHT, [straight_high])
  else if list_eqb counts [3; 1; 1] then (THREE_OF_A_KIND, kickers)
  else if list_eqb counts [2; 2; 1] then (TWO_PAIR, kickers)
  else if list_eqb counts [2; 1; 1; 1] then (PAIR, kickers)
  else (HIGH_CARD, values).

(** Python's [>] on the tuples [(hand_rank.value, tiebreaker)]. *)
Definition eval_gt (a b : EvaluatedHand) : bool :=
  if Z.eqb (hr_value (fst a)) (hr_value (fst b))
  then list_gt (snd a) (snd b)
  else Z.gtb (hr_value (fst a)) (hr_value (fst b)).

(** One iteration of the loop of [evaluate_hand]; [None] is
    [best_hand is None]. *)
Definition best_step (best : option EvaluatedHand) (combo : list Card)
  : option EvaluatedHand :=
  let e := _evaluate_five_cards combo in
  match best with
  | None => Some e
  | Some b => if eval_gt e b then Some e else Some b
  end.

(** [evaluate_hand].  With five cards or more there is at least one
    combination, so the loop leaves [best_hand] set (lemma
    [evaluate_hand_loop_some]); the last branch is never taken. *)
Definition evaluate_hand (cards : list Card) : EvaluatedHand :=
  if Nat.ltb (length cards) 5 then (HIGH_CARD, [0])
  else
    match fold_left best_step (combinations cards 5) None with
    | Some e => e
    | None => (HIGH_CARD, [])
    end.

(** The loop [for v1, v2 in zip(hand1[1], hand2[1])] of [compare_hands]. *)
Fixpoint compare_tiebreak (t1 t2 : list Z) : Z :=
  match t1, t2 with
  | v1 :: t1', v2 :: t2' =>
      if Z.gtb v1 v2 then 1
      else if Z.ltb v1 v2 then -1
      else compare_tiebreak t1' t2'
  | _, _ => 0
  end.

(** [compare_hands] *)
Definition compare_hands (hand1 hand2 : EvaluatedHand) : Z :=
  if Z.gtb (hr_value (fst hand1)) (hr_value (fst hand2)) then 1
  else if Z.ltb (hr_value (fst hand1)) (hr_value (fst hand2)) then -1
  else compare_tiebreak (snd hand1) (snd hand2).

(** *** Outs *)

(** The dict [outs] of [count_outs]. *)
Record Outs : Set := mkOuts {
  total : Z;
  to_straight : list Card;
  to_flush : list Card;
  to_pair : list Card;
  to_two_pair : list Card;
  to_trips : list Card;
  to_full_house : list Card;
  to_quads : list Card;
  overcards : list Card
}.

Definition outs_init : Outs := mkOuts 0 [] [] [] [] [] [] [] [].

(** [outs['total'] += 1] and the seven [outs[k].append(card)]. *)
Definition incr_total (o : Outs) : Outs :=
  mkOuts (total o + 1) (to_straight o) (to_flush o) (to_pair o)
    (to_two_pair o) (to_trips o) (to_full_house o) (to_quads o) (overcards o).
Definition append_to_straight (c : Card) (o : Outs) : Outs :=
  mkOuts (total o) (to_straight o ++ [c]) (to_flush o) (to_pair o)
    (to_two_pair o) (to_trips o) (to_full_house o) (to_quads o) (overcards o).
Definition append_to_flush (c : Card) (o : Outs) : Outs :=
  mkOuts (total o) (to_straight o) (to_flush o ++ [c]) (to_pair o)
    (to_two_pair o) (to_trips o) (to_full_house o) (to_quads o) (overcards o).
Definition append_to_pair (c : Card) (o : Outs) : Outs :=
  mkOuts (total o) (to_straight o) (to_flush o) (to_pair o ++ [c])
    (to_two_pair o) (to_trips o) (to_full_house o) (to_quads o) (overcards o).
Definition append_to_two_pair (c : Card) (o : Outs) : Outs :=
  mkOuts (total o) (to_straight o) (to_flush o) (to_pair o)
    (to_two_pair o ++ [c]) (to_trips o) (to_full_house o) (to_quads o)
    (overcards o).
Definition append_to_trips (c : Card) (o : Outs) : Outs :=
  mkOuts (total o) (to_straight o) (to_flush o) (to_pair o)
    (to_two_pair o) (to_trips o ++ [c]) (to_full_house o) (to_quads o)
    (overcards o).
Definition append_to_full_house (c : Card) (o : Outs) : Outs :=
  mkOuts (total o) (to_straight o) (to_flush o) (to_pair o)
    (to_two_pair o) (to_trips o) (to_full_house o ++ [c]) (to_quads o)
    (overcards o).
Definition append_to_quads (c : Card) (o : Outs) : Outs :=
  mkOuts (total o) (to_straight o) (to_flush o) (to_pair o)
    (to_two_pair o) (to_trips o) (to_full_house o) (to_quads o ++ [c])
    (overcards o).

Definition hr_eqb (a b : HandRank) : bool := bool_decide (a = b).

(** The test that guards [outs['total'] += 1]. *)
Definition improves (current_eval new_eval : EvaluatedHand) : bool :=
  Z.gtb (hr_value (fst new_eval)) (hr_value (fst current_eval))
  || (Z.eqb (hr_value (fst new_eval)) (hr_value (fst current_eval))
      && list_gt (snd new_eval) (snd current_eval)).

(** "Categorize the out": the [if]/[elif] chain on [new_eval[0]]. *)
Definition categorize (current_rank new_rank : HandRank) (card : Card)
    (o : Outs) : Outs :=
  if hr_eqb new_rank STRAIGHT || hr_eqb new_rank STRAIGHT_FLUSH then
    if negb (hr_eqb current_rank STRAIGHT) then append_to_straight card o
    else o
  else if hr_eqb new_rank FLUSH then
    if negb (hr_eqb current_rank FLUSH) then append_to_flush card o else o
  else if hr_eqb new_rank FOUR_OF_A_KIND then append_to_quads card o
  else if hr_eqb new_rank FULL_HOUSE then
    if Z.ltb (hr_value current_rank) (hr_value FULL_HOUSE)
    then append_to_full_house card o else o
  else if hr_eqb new_rank THREE_OF_A_KIND then append_to_trips card o
  else if hr_eqb new_rank TWO_PAIR then
    if Z.ltb (hr_value current_rank) (hr_value TWO_PAIR)
    then append_to_two_pair card o else o
  else if hr_eqb new_rank PAIR then append_to_pair card o
  else o.

(** [[c for c in full_deck if c not in known_cards]] with
    [known_cards = set(hole_cards + board)]. *)
Definition unknown_cards (hole_cards board : list Card) : list Card :=
  List.filter (fun c => negb (bool_decide (c ∈ hole_cards ++ board)))
    create_deck.

(** The body of [for card in unknown_cards]. *)
Definition outs_step (hole_cards board : list Card)
    (current_eval : EvaluatedHand) (o : Outs) (card : Card) : Outs :=
  let new_hand := hole_cards ++ board ++ [card] in
  let new_eval := evaluate_hand new_hand in
  if improves current_eval new_eval
  then categorize (fst current_eval) (fst new_eval) card (incr_total o)
  else o.

(** [count_outs] *)
Definition count_outs (hole_cards board : list Card) : Outs :=
  let current_eval := evaluate_hand (hole_cards ++ board) in
  fold_left (outs_step hole_cards board current_eval)
    (unknown_cards hole_cards board) outs_init.

(** *** One trial of [calculate_equity_monte_carlo]

    The randomness of a trial is made explicit: [shuffled] is the order
    of [remaining_deck] after [random.shuffle], and [choice i n] is the
    number that [random.choice] draws for opponent [i] from a list of
    [n] combos, taken modulo [n]. *)

(** [remaining_deck], before any shuffle. *)
Definition remaining_deck (hole_cards board : list Card) : list Card :=
  List.filter (fun c => negb (bool_decide (c ∈ hole_cards ++ board)))
    create_deck.

(** Python slices [l[:n]] and [l[n:]] for an int [n] of either sign. *)
Definition slice_to {A} (l : list A) (n : Z) : list A :=
  if Z.ltb n 0 then take (Z.to_nat (Z.of_nat (length l) + n)) l
  else take (Z.to_nat n) l.
Definition slice_from {A} (l : list A) (n : Z) : list A :=
  if Z.ltb n 0 then drop (Z.to_nat (Z.of_nat (length l) + n)) l
  else drop (Z.to_nat n) l.

(** State of the loop [for i in range(num_opponents)]. *)
Record DealState : Set := mkDeal {
  opponent_hands : list (list Card);
  deal_idx : nat
}.

(** [opponent_ranges and i < len(opponent_ranges) and opponent_ranges[i]];
    the result is the non-empty range to sample from, if any. *)
Definition range_for (opponent_ranges : option (list (list (Card * Card))))
    (i : nat) : option (list (Card * Card)) :=
  match opponent_ranges with
  | None => None
  | Some rs =>
      match rs !! i with
      | Some (combo :: r) => Some (combo :: r)
      | _ => None
      end
  end.

(** One opponent; [None] is the [IndexError] of
    [deck_after_board[idx]] or [deck_after_board[idx + 1]] (the lookup in
    a non-empty range, at an index below its length, always succeeds). *)
Definition deal_opponent
    (opponent_ranges : option (list (list (Card * Card))))
    (choice : nat -> nat -> nat) (deck_after_board : list Card)
    (st : DealState) (i : nat) : option DealState :=
  match range_for opponent_ranges i with
  | Some r =>
      match r !! (choice i (length r) `mod` length r)%nat with
      | Some (c1, c2) =>
          Some (mkDeal (opponent_hands st ++ [[c1; c2]]) (deal_idx st))
      | None => None
      end
  | None =>
      match deck_after_board !! deal_idx st,
            deck_after_board !! (deal_idx st + 1)%nat with
      | Some c1, Some c2 =>
          Some (mkDeal (opponent_hands st ++ [[c1; c2]])
                  (deal_idx st + 2)%nat)
      | _, _ => None
      end
  end.

Fixpoint deal_opponents
    (opponent_ranges : option (list (list (Card * Card))))
    (choice : nat -> nat -> nat) (deck_after_board : list Card)
    (st : DealState) (opps : list nat) : option DealState :=
  match opps with
  | [] => Some st
  | i :: opps' =>
      match deal_opponent opponent_ranges choice deck_after_board st i with
      | Some st' =>
          deal_opponents opponent_ranges choice deck_after_board st' opps'
      | None => None
      end
  end.

(** The cards of one trial: the completed board and the opponents'
    hands. *)
Definition deal_trial (board : list Card) (num_opponents : nat)
    (opponent_ranges : option (list (list (Card * Card))))
    (shuffled : list Card) (choice : nat -> nat -> nat)
  : option (list Card * list (list Card)) :=
  let cards_to_deal := 5 - Z.of_nat (length board) in
  let sim_board := board ++ slice_to shuffled cards_to_deal in
  let deck_after_board := slice_from shuffled cards_to_deal in
  match deal_opponents opponent_ranges choice deck_after_board
          (mkDeal [] 0) (seq 0 num_opponents) with
  | Some st => Some (sim_board, opponent_hands st)
  | None => None
  end.

(** Every card that is in play in a trial. *)
Definition cards_in_play (hole_cards : list Card)
    (t : list Card * list (list Card)) : list Card :=
  hole_cards ++ fst t ++ concat (snd t).

(** *** Pot odds and the decision *)

(** The dict returned by [calculate_pot_odds], without ['display'] (a
    formatted string).  The [int] 0 of the "Free check" dict is the float
    0.0 here: the two compare equal and behave the same in the arithmetic
    of [analyze_decision]. *)
Record PotOdds : Set := mkPotOdds {
  ratio : float;
  percentage : float;
  required_equity : float
}.

(** The "Free check" dict. *)
Definition free_check : PotOdds := mkPotOdds 0 0 0.

(** [calculate_pot_odds] *)
Definition calculate_pot_odds (pot_size call_amount : float)
  : Traced PotOdds :=
  if fleb call_amount 0 then ret free_check
  else
    let* ratio := py_div pot_size call_amount in
    let* q := py_div call_amount (fadd pot_size call_amount) in
    let percentage := fmul q 100 in
    let required_equity := percentage in
    ret (mkPotOdds (py_round ratio 2) (py_round percentage 1)
           (py_round required_equity 1)).

(** The dict returned by [analyze_decision], without ['reasoning'] (a
    formatted string). *)
Record Decision : Set := mkDecision {
  d_pot_odds : PotOdds;
  d_equity : float;
  d_required_equity : float;
  is_profitable : bool;
  expected_value : float;
  recommended_action : string;
  implied_odds_note : string
}.

(** The [if]/[elif] chain that sets [action]. *)
Definition choose_action (call_amount equity required_equity : float)
    (is_profitable : bool) : string :=
  if feqb call_amount 0 then "CHECK"
  else if is_profitable then
    let equity_advantage := fsub equity required_equity in
    if fgtb equity_advantage 20 then "RAISE"
    else if fgtb equity_advantage 10 then "CALL"
    else "CALL (marginal)"
  else
    let equity_deficit := fsub required_equity equity in
    if fgtb equity_deficit 15 then "FOLD"
    else "FOLD (close)".

(** [analyze_decision] *)
Definition analyze_decision (pot_size call_amount equity stack_size : float)
  : Traced Decision :=
  let* pot_odds := calculate_pot_odds pot_size call_amount in
  let required_equity := required_equity pot_odds in
  let pot_after_call := fadd pot_size call_amount in
  let* e1 := py_div equity 100 in
  let* e2 := py_div equity 100 in
  let ev := fsub (fmul e1 pot_after_call) (fmul (fsub 1 e2) call_amount) in
  let is_profitable := fgtb equity required_equity in
  let action :=
    choose_action call_amount equity required_equity is_profitable in
  let* implied_odds_factor :=
    (if fgtb pot_size 0 then py_div stack_size pot_size
     else ret (of_Z 0)) in
  let implied_odds_note :=
    if fgtb implied_odds_factor 5 && negb is_profitable
    then "However, deep stacks suggest good implied odds if you hit."
    else "" in
  ret (mkDecision pot_odds equity required_equity is_profitable
         (py_round ev 2) action implied_odds_note).

(** *** Exceptions *)

Inductive PyError : Set :=
  | KeyError | IndexError | ValueError | ZeroDivisionError.

(** *** Card strings *)

(** The strings of [RANKS] and [SUITS]. *)
Definition rank_str (r : Rank) : string :=
  match r with
  | R2 => "2" | R3 => "3" | R4 => "4" | R5 => "5" | R6 => "6" | R7 => "7"
  | R8 => "8" | R9 => "9" | R10 => "10" | RJ => "J" | RQ => "Q" | RK => "K"
  | RA => "A"
  end.

Definition suit_str (s : Suit) : string :=
  match s with H => "H" | D => "D" | C => "C" | S => "S" end.

(** [Card.__repr__], [f"{self.rank}-{self.suit}"] *)
Definition card_repr (c : Card) : string :=
  rank_str (rank c) +:+ "-" +:+ suit_str (suit c).

(** [s.split(sep)] for a separator of one character. *)
Fixpoint split_on (sep : Ascii.ascii) (s : string) : list string :=
  match s with
  | EmptyString => [EmptyString]
  | String c s' =>
      if Ascii.eqb c sep then EmptyString :: split_on sep s'
      else match split_on sep s' with
           | p :: ps => String c p :: ps
           | [] => [String c EmptyString]
           end
  end.

(** [RANK_VALUES[rank]] on a string: the rank it is the key of, if any. *)
Definition rank_of_string (s : string) : option Rank :=
  List.find (fun r => String.eqb (rank_str r) s) RANKS.

(** What [Card(rank, suit)] builds from two strings: the rank has to be a
    key of [RANK_VALUES], the suit is stored as it is. *)
Record ParsedCard : Set := mkParsed { p_rank : Rank; p_suit : string }.

(** [Card.from_string]: [IndexError] without a second part, [KeyError] on
    an unknown rank. *)
Definition from_string (s : string) : PyError + ParsedCard :=
  match split_on "-"%char s with
  | p0 :: p1 :: _ =>
      match rank_of_string p0 with
      | Some r => inr (mkParsed r p1)
      | None => inl KeyError
      end
  | _ => inl IndexError
  end.

(** [cards_from_strings]: the first failure is raised. *)
Fixpoint cards_from_strings (card_strings : list string)
  : PyError + list ParsedCard :=
  match card_strings with
  | [] => inr []
  | s :: rest =>
      match from_string s with
      | inl e => inl e
      | inr c =>
          match cards_from_strings rest with
          | inl e => inl e
          | inr cs => inr (c :: cs)
          end
      end
  end.

(** [get_remaining_deck] *)
Definition get_remaining_deck (hole_cards board : list Card) : list Card :=
  List.filter (fun c => negb (bool_decide (c ∈ hole_cards ++ board)))
    create_deck.

(** *** The rule of 4 and 2 *)

(** The dict of [calculate_equity_rule_of_4_and_2], without the constant
    ['method']. *)
Record RuleEquity : Set := mkRuleEquity {
  r_equity : Z;
  r_outs : Z;
  r_multiplier : Z;
  r_cards_to_come : Z
}.

(** [calculate_equity_rule_of_4_and_2] *)
Definition calculate_equity_rule_of_4_and_2 (outs : Z) (street : string)
  : RuleEquity :=
  if String.eqb street "flop" then
    let multiplier := 4 in
    mkRuleEquity (Z.min (outs * multiplier) 100) outs multiplier 2
  else if String.eqb street "turn" then
    let multiplier := 2 in
    mkRuleEquity (Z.min (outs * multiplier) 100) outs multiplier 1
  else mkRuleEquity 0 outs 0 0.

(** *** The whole of [calculate_equity_monte_carlo] *)

Inductive TrialOutcome : Set := Win | Tie | Loss.

(** The loop [for opp_hand in opponent_hands] and the tally that follows
    it; [hero_ties] is the flag of that name. *)
Fixpoint hero_versus (hero_eval : EvaluatedHand) (sim_board : list Card)
    (opponent_hands : list (list Card)) (hero_ties : bool) : TrialOutcome :=
  match opponent_hands with
  | [] => if hero_ties then Tie else Win
  | opp_hand :: rest =>
      let opp_eval := evaluate_hand (opp_hand ++ sim_board) in
      let result := compare_hands hero_eval opp_eval in
      if result <? 0 then Loss
      else if result =? 0 then hero_versus hero_eval sim_board rest true
      else hero_versus hero_eval sim_board rest hero_ties
  end.

(** One trial; [inl IndexError] when the deck runs out. *)
Definition run_trial (hole_cards board : list Card) (num_opponents : nat)
    (opponent_ranges : option (list (list (Card * Card))))
    (shuffled : list Card) (choice : nat -> nat -> nat)
  : PyError + TrialOutcome :=
  match deal_trial board num_opponents opponent_ranges shuffled choice with
  | None => inl IndexError
  | Some (sim_board, opponent_hands) =>
      let hero_eval := evaluate_hand (hole_cards ++ sim_board) in
      inr (hero_versus hero_eval sim_board opponent_hands false)
  end.

(** The counters [wins], [ties], [total]. *)
Record Tally : Set := mkTally { wins : Z; ties : Z; sims : Z }.

(** The loop [for _ in range(num_simulations)]; each element of [trials]
    is the randomness of one trial (the shuffle and the choices). *)
Fixpoint run_trials (hole_cards board : list Card) (num_opponents : nat)
    (opponent_ranges : option (list (list (Card * Card))))
    (trials : list (list Card * (nat -> nat -> nat))) (t : Tally)
  : PyError + Tally :=
  match trials with
  | [] => inr t
  | (shuffled, choice) :: rest =>
      match run_trial hole_cards board num_opponents opponent_ranges
              shuffled choice with
      | inl e => inl e
      | inr Win =>
          run_trials hole_cards board num_opponents opponent_ranges rest
            (mkTally (wins t + 1) (ties t) (sims t + 1))
      | inr Tie =>
          run_trials hole_cards board num_opponents opponent_ranges rest
            (mkTally (wins t) (ties t + 1) (sims t + 1))
      | inr Loss =>
          run_trials hole_cards board num_opponents opponent_ranges rest
            (mkTally (wins t) (ties t) (sims t + 1))
      end
  end.

(** The dict returned by [calculate_equity_monte_carlo]. *)
Record Equity : Set := mkEquity {
  equity : float;
  win_percentage : float;
  tie_percentage : float;
  simulations : Z
}.

(** [calculate_equity_monte_carlo], with [num_simulations] the number of
    elements of [trials]; [ZeroDivisionError] is that of [wins / total]. *)
Definition calculate_equity_monte_carlo (hole_cards board : list Card)
    (num_opponents : nat)
    (trials : list (list Card * (nat -> nat -> nat)))
    (opponent_ranges : option (list (list (Card * Card))))
  : PyError + Equity :=
  match run_trials hole_cards board num_opponents opponent_ranges trials
          (mkTally 0 0 0) with
  | inl e => inl e
  | inr t =>
      if Z.eqb (sims t) 0 then inl ZeroDivisionError
      else
        let win_pct := fmul (int_div (wins t) (sims t)) 100 in
        let tie_pct := fmul (int_div (ties t) (sims t)) 100 in
        let equity := fadd win_pct (fdiv tie_pct 2) in
        inr (mkEquity (py_round equity 1) (py_round win_pct 1)
               (py_round tie_pct 1) (sims t))
  end.

(** *** Draw detection *)

(** [sorted(l)] on a list of ints. *)
Definition sorted_asc (l : list Z) : list Z := sorted_desc Z.leb l.

(** [Counter(suits)] *)
Fixpoint suit_counter_incr (x : Suit) (items : list (Suit * Z))
  : list (Suit * Z) :=
  match items with
  | [] => [(x, 1)]
  | (k, n) :: items' =>
      if bool_decide (k = x) then (k, n + 1) :: items'
      else (k, n) :: suit_counter_incr x items'
  end.

Definition suit_counter (l : list Suit) : list (Suit * Z) :=
  fold_left (fun items x => suit_counter_incr x items) l [].

(** [max(l)] and [min(l)] of a non-empty list of ints. *)
Definition list_max (l : list Z) : Z := foldr Z.max (hd 0 l) l.
Definition list_min (l : list Z) : Z := foldr Z.min (hd 0 l) l.

(** The loop over [range(len(unique_values) - 3)] that looks for four
    consecutive values with both ends open; it stops at the first hit. *)
Fixpoint find_open_ended (unique_values : list Z) (indices : list nat)
  : bool :=
  match indices with
  | [] => false
  | i :: rest =>
      if Z.eqb (idx unique_values (i + 3) - idx unique_values i) 3 then
        let low_open := Z.gtb (idx unique_values i) 0 in
        let high_open := Z.ltb (idx unique_values (i + 3)) 12 in
        if low_open && high_open then true
        else find_open_ended unique_values rest
      else find_open_ended unique_values rest
  end.

(** The loop that looks for a window of four values spanning five
    ranks. *)
Fixpoint find_gutshot (unique_values : list Z) (indices : list nat)
  : bool :=
  match indices with
  | [] => false
  | i :: rest =>
      let window := take 4 (drop i unique_values) in
      if Z.eqb (list_max window - list_min window) 4 then true
      else find_gutshot unique_values rest
  end.

(** The dict of [detect_draws]. *)
Record Draws : Set := mkDraws {
  flush_draw : bool;
  flush_draw_suit : option Suit;
  flush_draw_outs : Z;
  open_ended_straight_draw : bool;
  gutshot_straight_draw : bool;
  straight_outs : Z;
  draw_overcards : list Card;
  overcard_outs : Z;
  total_drawing_outs : Z
}.

(** [detect_draws] *)
Definition detect_draws (hole_cards board : list Card) : Draws :=
  let all_cards := hole_cards ++ board in
  let values := sorted_asc (map value all_cards) in
  let suits := map suit all_cards in
  let suit_counts := suit_counter suits in
  let '(flush_draw, flush_draw_suit, flush_draw_outs) :=
    fold_left
      (fun (st : bool * option Suit * Z) (item : Suit * Z) =>
         if Z.eqb (snd item) 4 then (true, Some (fst item), 9) else st)
      suit_counts (false, None, 0) in
  let unique_values := sorted_asc (py_set values) in
  let indices := seq 0 (length unique_values - 3) in
  let open_ended := find_open_ended unique_values indices in
  let gutshot :=
    if negb open_ended then find_gutshot unique_values indices else false in
  let straight_outs := if open_ended then 8 else if gutshot then 4 else 0 in
  let overcards :=
    match board with
    | [] => []
    | _ =>
        let board_max := list_max (map value board) in
        List.filter (fun card => Z.gtb (value card) board_max) hole_cards
    end in
  let overcard_outs := Z.of_nat (length overcards) * 3 in
  let total_outs := flush_draw_outs + straight_outs + overcard_outs in
  let total_outs :=
    if flush_draw && (open_ended || gutshot) then total_outs - 2
    else total_outs in
  mkDraws flush_draw flush_draw_suit flush_draw_outs open_ended gutshot
    straight_outs overcards overcard_outs total_outs.

(** *** Preflop classification *)

(** [RANKS[v]] as a string. *)
Definition RANKS_at (v : Z) : string :=
  nth (Z.to_nat v)
    ["2"; "3"; "4"; "5"; "6"; "7"; "8"; "9"; "10"; "J"; "Q"; "K"; "A"] "".

(** [rank_chars.get(v + 2, str(v + 2)) if v >= 8 else RANKS[v]] *)
Definition rank_char (v : Z) : string :=
  if Z.geb v 8 then
    match v + 2 with
    | 10 => "T" | 11 => "J" | 12 => "Q" | 13 => "K" | 14 => "A"
    | n => pretty n
    end
  else RANKS_at v.

(** The dict of [classify_preflop_hand]. *)
Record HandClass : Set := mkHandClass {
  notation : string;
  h_is_pair : bool;
  h_is_suited : bool;
  tier : string;
  strength : string;
  multiway_preference : string
}.

(** [classify_preflop_hand]; [ValueError] is that of [c1, c2 = hole_cards]
    on a list that does not have two elements. *)
Definition classify_preflop_hand (hole_cards : list Card)
  : PyError + HandClass :=
  match hole_cards with
  | [c1; c2] =>
      let is_pair := bool_decide (rank c1 = rank c2) in
      let is_suited := bool_decide (suit c1 = suit c2) in
      let high_card := Z.max (value c1) (value c2) in
      let low_card := Z.min (value c1) (value c2) in
      let gap := high_card - low_card in
      let r1 := rank_char (value c1) in
      let r2 := rank_char (value c2) in
      let notation :=
        if is_pair then r1 +:+ r2
        else
          let suffix := if is_suited then "s" else "o" in
          if Z.gtb (value c1) (value c2) then r1 +:+ r2 +:+ suffix
          else r2 +:+ r1 +:+ suffix in
      let '(tier, strength) :=
        if is_pair && Z.geb high_card 10 then ("Premium", "Very Strong")
        else if Z.eqb high_card 12 && Z.eqb low_card 11
        then ("Premium", "Very Strong")
        else if is_pair && Z.geb high_card 7 then ("Strong", "Strong")
        else if Z.geb high_card 11 && Z.geb low_card 9 && is_suited
        then ("Strong", "Strong")
        else if is_pair then ("Speculative", "Medium")
        else if is_suited && Z.leb gap 2 && Z.geb high_card 6
        then ("Speculative", "Medium (drawing hand)")
        else if Z.eqb high_card 12 then ("Playable", "Medium")
        else ("Weak", "Weak") in
      let multiway_pref :=
        if is_pair && Z.leb high_card 8
        then "Prefers multiway (set mining)"
        else if is_suited && Z.leb gap 3
        then "Prefers multiway (drawing potential)"
        else if Z.geb high_card 11 && Z.geb low_card 9
        then "Prefers heads-up (high card value)"
        else "Neutral" in
      inr (mkHandClass notation is_pair is_suited tier strength multiway_pref)
  | _ => inl ValueError
  end.

End PokerEngine.

(** ** range_estimator.py *)

Module RangeEstimator.
Import PyNum PokerEngine.

Inductive Position : Set := UTG | UTG1 | MP | MP1 | CO | BTN | SB | BB.

Inductive Action : Set :=
  | FOLD | LIMP | CALL | RAISE | THREE_BET | FOUR_BET | ALL_IN | CHECK | BET.

#[global] Instance Position_eq_dec : EqDecision Position.
Proof. solve_decision. Defined.
#[global] Instance Action_eq_dec : EqDecision Action.
Proof. solve_decision. Defined.

(** [position.name] *)
Definition position_name (p : Position) : string :=
  match p with
  | UTG => "UTG" | UTG1 => "UTG1" | MP => "MP" | MP1 => "MP1" | CO => "CO"
  | BTN => "BTN" | SB => "SB" | BB => "BB"
  end.

(** *** Python string operations on hand notations *)

(** [sub in s] *)
Fixpoint py_in (sub s : string) : bool :=
  String.prefix sub s
  || match s with
     | EmptyString => false
     | String _ s' => py_in sub s'
     end.

(** [s.startswith(p)] and [s.endswith(p)] *)
Definition startswith (s p : string) : bool := String.prefix p s.
Definition endswith (s p : string) : bool :=
  let n := String.length s in
  let m := String.length p in
  Nat.leb m n && String.eqb (String.substring (n - m) m s) p.

(** [hand[0] in chars]; the program only evaluates it on a hand of
    length two, so the [IndexError] of an empty hand cannot occur. *)
Definition first_in (hand chars : string) : bool :=
  match hand with
  | String c _ => py_in (String c EmptyString) chars
  | EmptyString => false
  end.

(** *** PREFLOP_RANGES *)

Definition UTG_open_raise : gset string :=
  list_to_set
    [ "AA"; "KK"; "QQ"; "JJ"; "TT"; "99"; "88"; "AKs"; "AQs";
      "AJs"; "ATs"; "KQs"; "AKo"; "AQo" ].

Definition UTG_three_bet : gset string :=
  list_to_set
    [ "AA"; "KK"; "QQ"; "AKs"; "AKo" ].

Definition UTG_limp : gset string :=
  ∅.

Definition UTG_ranges : gmap string (gset string) :=
  list_to_map
    [("open_raise", UTG_open_raise);
     ("three_bet", UTG_three_bet);
     ("limp", UTG_limp)].

Definition MP_open_raise : gset string :=
  list_to_set
    [ "AA"; "KK"; "QQ"; "JJ"; "TT"; "99"; "88"; "77"; "AKs";
      "AQs"; "AJs"; "ATs"; "A9s"; "KQs"; "KJs"; "QJs"; "JTs";
      "AKo"; "AQo"; "AJo"; "KQo" ].

Definition MP_three_bet : gset string :=
  list_to_set
    [ "AA"; "KK"; "QQ"; "JJ"; "AKs"; "AKo"; "AQs" ].

Definition MP_limp : gset string :=
  ∅.

Definition MP_ranges : gmap string (gset string) :=
  list_to_map
    [("open_raise", MP_open_raise);
     ("three_bet", MP_three_bet);
     ("limp", MP_limp)].

Definition CO_open_raise : gset string :=
  list_to_set
    [ "AA"; "KK"; "QQ"; "JJ"; "TT"; "99"; "88"; "77"; "66"; "55";
      "AKs"; "AQs"; "AJs"; "ATs"; "A9s"; "A8s"; "A7s"; "A6s";
      "A5s"; "A4s"; "A3s"; "A2s"; "KQs"; "KJs"; "KTs"; "K9s";
      "QJs"; "QTs"; "Q9s"; "JTs"; "J9s"; "T9s"; "98s"; "87s";
      "76s"; "AKo"; "AQo"; "AJo"; "ATo"; "KQo"; "KJo"; "QJo";
      "JTo" ].

Definition CO_three_bet : gset string :=
  list_to_set
    [ "AA"; "KK"; "QQ"; "JJ"; "TT"; "AKs"; "AQs"; "AJs"; "AKo";
      "AQo"; "A5s"; "A4s"; "76s"; "65s" ].

Definition CO_limp : gset string :=
  ∅.

Definition CO_ranges : gmap string (gset string) :=
  list_to_map
    [("open_raise", CO_open_raise);
     ("three_bet", CO_three_bet);
     ("limp", CO_limp)].

Definition BTN_open_raise : gset string :=
  list_to_set
    [ "AA"; "KK"; "QQ"; "JJ"; "TT"; "99"; "88"; "77"; "66"; "55";
      "44"; "33"; "22"; "AKs"; "AQs"; "AJs"; "ATs"; "A9s"; "A8s";
      "A7s"; "A6s"; "A5s"; "A4s"; "A3s"; "A2s"; "KQs"; "KJs";
      "KTs"; "K9s"; "K8s"; "K7s"; "K6s"; "K5s"; "QJs"; "QTs";
      "Q9s"; "Q8s"; "JTs"; "J9s"; "J8s"; "T9s"; "T8s"; "98s";
      "97s"; "87s"; "86s"; "76s"; "75s"; "65s"; "64s"; "54s";
      "AKo"; "AQo"; "AJo"; "ATo"; "A9o"; "A8o"; "A7o"; "A6o";
      "A5o"; "A4o"; "KQo"; "KJo"; "KTo"; "QJo"; "QTo"; "JTo";
      "J9o"; "T9o"; "98o" ].

Definition BTN_three_bet : gset string :=
  list_to_set
    [ "AA"; "KK"; "QQ"; "JJ"; "TT"; "99"; "AKs"; "AQs"; "AJs";
      "ATs"; "AKo"; "AQo"; "AJo"; "A5s"; "A4s"; "A3s"; "76s";
      "65s"; "54s"; "K9s" ].

Definition BTN_limp : gset string :=
  ∅.

Definition BTN_ranges : gmap string (gset string) :=
  list_to_map
    [("open_raise", BTN_open_raise);
     ("three_bet", BTN_three_bet);
     ("limp", BTN_limp)].

Definition SB_open_raise : gset string :=
  list_to_set
    [ "AA"; "KK"; "QQ"; "JJ"; "TT"; "99"; "88"; "77"; "66"; "55";
      "44"; "AKs"; "AQs"; "AJs"; "ATs"; "A9s"; "A8s"; "A7s";
      "A6s"; "A5s"; "A4s"; "A3s"; "A2s"; "KQs"; "KJs"; "KTs";
      "K9s"; "QJs"; "QTs"; "JTs"; "T9s"; "98s"; "87s"; "76s";
      "AKo"; "AQo"; "AJo"; "ATo"; "A9o"; "KQo"; "KJo"; "QJo" ].

Definition SB_three_bet : gset string :=
  list_to_set
    [ "AA"; "KK"; "QQ"; "JJ"; "TT"; "AKs"; "AQs"; "AKo"; "99";
      "88"; "AJs"; "A5s"; "A4s" ].

Definition SB_limp : gset string :=
  list_to_set
    [ "22"; "33"; "44"; "55"; "66"; "77"; "54s"; "65s"; "76s";
      "87s"; "98s"; "T9s"; "J9s"; "A2s"; "A3s"; "A4s"; "A5s" ].

Definition SB_ranges : gmap string (gset string) :=
  list_to_map
    [("open_raise", SB_open_raise);
     ("three_bet", SB_three_bet);
     ("limp", SB_limp)].

Definition BB_open_raise : gset string :=
  ∅.

Definition BB_three_bet : gset string :=
  list_to_set
    [ "AA"; "KK"; "QQ"; "JJ"; "TT"; "AKs"; "AQs"; "AJs"; "AKo";
      "AQo"; "99"; "88"; "ATs"; "KQs"; "A5s"; "A4s" ].

Definition BB_call : gset string :=
  list_to_set
    [ "AA"; "KK"; "QQ"; "JJ"; "TT"; "99"; "88"; "77"; "66"; "55";
      "44"; "33"; "22"; "AKs"; "AQs"; "AJs"; "ATs"; "A9s"; "A8s";
      "A7s"; "A6s"; "A5s"; "A4s"; "A3s"; "A2s"; "KQs"; "KJs";
      "KTs"; "K9s"; "K8s"; "K7s"; "K6s"; "K5s"; "QJs"; "QTs";
      "Q9s"; "Q8s"; "JTs"; "J9s"; "J8s"; "T9s"; "T8s"; "98s";
      "97s"; "87s"; "86s"; "76s"; "75s"; "65s"; "64s"; "54s";
      "53s"; "43s"; "AKo"; "AQo"; "AJo"; "ATo"; "A9o"; "A8o";
      "A7o"; "KQo"; "KJo"; "KTo"; "QJo"; "QTo"; "JTo"; "T9o";
      "98o"; "87o" ].

Definition BB_limp : gset string :=
  ∅.

Definition BB_ranges : gmap string (gset string) :=
  list_to_map
    [("open_raise", BB_open_raise);
     ("three_bet", BB_three_bet);
     ("call", BB_call);
     ("limp", BB_limp)].

(** [PREFLOP_RANGES[position]]; every [Position] is a key ([UTG1] and
    [MP1] are aliases of [UTG] and [MP]), so the default of
    [PREFLOP_RANGES.get] is never used. *)
Definition PREFLOP_RANGES (p : Position) : gmap string (gset string) :=
  match p with
  | UTG | UTG1 => UTG_ranges
  | MP | MP1 => MP_ranges
  | CO => CO_ranges
  | BTN => BTN_ranges
  | SB => SB_ranges
  | BB => BB_ranges
  end.

(** *** Bet sizing *)

(** [analyze_bet_sizing]; the division is not by zero, as [pot_size <= 0]
    is false when it is evaluated. *)
Definition analyze_bet_sizing (bet_size pot_size : float)
  : gmap string string :=
  if fleb pot_size 0 then {[ "analysis" := "No pot yet" ]}
  else
    let bet_ratio := fdiv bet_size pot_size in
    if fltb bet_ratio (nearest (33 # 100)) then
      list_to_map
        [("sizing", "Small (< 1/3 pot)");
         ("typical_range",
          "Wide range - blocking bet, thin value, or weak draw");
         ("polarization", "Merged (mixture of value and bluffs)");
         ("strength_indicator", "Usually weak to medium")]
    else if fltb bet_ratio (nearest (1 # 2)) then
      list_to_map
        [("sizing", "Small-Medium (1/3 - 1/2 pot)");
         ("typical_range", "Moderate strength or drawing hands");
         ("polarization", "Slightly merged");
         ("strength_indicator", "Medium")]
    else if fltb bet_ratio (nearest (3 # 4)) then
      list_to_map
        [("sizing", "Medium (1/2 - 3/4 pot)");
         ("typical_range", "Standard value bet or semi-bluff");
         ("polarization", "Balanced");
         ("strength_indicator", "Medium to strong")]
    else if fleb bet_ratio 1 then
      list_to_map
        [("sizing", "Large (3/4 - pot)");
         ("typical_range", "Strong value or big draw");
         ("polarization", "Starting to polarize");
         ("strength_indicator", "Strong")]
    else if fleb bet_ratio (nearest (3 # 2)) then
      list_to_map
        [("sizing", "Overbet (pot - 1.5x pot)");
         ("typical_range", "Very strong or bluff");
         ("polarization", "Polarized");
         ("strength_indicator", "Very strong or air")]
    else
      list_to_map
        [("sizing", "Massive overbet (> 1.5x pot)");
         ("typical_range", "Nuts or complete bluff");
         ("polarization", "Extremely polarized");
         ("strength_indicator", "Nuts or nothing")].

(** *** estimate_preflop_range *)

(** The values stored in the returned dict. *)
Inductive PyVal : Type :=
  | VSet (s : gset string)
  | VStr (s : string)
  | VInt (n : Z)
  | VNum (x : float).

(** The fixed ranges of the FOUR_BET, ALL_IN and LIMP branches. *)
Definition four_bet_range : gset string :=
  list_to_set ["AA"; "KK"; "QQ"; "AKs"; "AKo"].
Definition all_in_range : gset string :=
  list_to_set ["AA"; "KK"; "QQ"; "JJ"; "AKs"; "AKo"; "AQs"].
Definition limp_fallback_range : gset string :=
  list_to_set
    [ "22"; "33"; "44"; "55"; "66"; "77"; "88";
      "54s"; "65s"; "76s"; "87s"; "98s"; "T9s";
      "A2s"; "A3s"; "A4s"; "A5s"; "K9s"; "Q9s"; "J9s";
      "A9o"; "KTo"; "QTo"; "JTo" ].

(** [d.get(k, set())] *)
Definition get_range (d : gmap string (gset string)) (k : string)
  : gset string := default ∅ (d !! k).

(** The [if]/[elif] chain that sets [range_set] and [desc], for an action
    other than FOLD. *)
Definition select_range (position : Position) (action : Action)
    (facing_action : option Action) : gset string * string :=
  let pos_ranges := PREFLOP_RANGES position in
  let name := position_name position in
  if bool_decide (action = RAISE) || bool_decide (action = BET) then
    if bool_decide (facing_action = Some RAISE)
       || bool_decide (facing_action = Some THREE_BET)
    then (get_range pos_ranges "three_bet", "3-bet range from " +:+ name)
    else (get_range pos_ranges "open_raise",
          "Open raise range from " +:+ name)
  else if bool_decide (action = THREE_BET) then
    (get_range pos_ranges "three_bet", "3-bet range from " +:+ name)
  else if bool_decide (action = FOUR_BET) then
    (four_bet_range, "4-bet range (very narrow)")
  else if bool_decide (action = ALL_IN) then
    (all_in_range, "All-in range (typically premium)")
  else if bool_decide (action = CALL) then
    if bool_decide (facing_action = Some RAISE) then
      (default (get_range pos_ranges "open_raise") (pos_ranges !! "call"),
       "Calling range from " +:+ name)
    else
      (get_range pos_ranges "open_raise", "Calling range from " +:+ name)
  else if bool_decide (action = LIMP) then
    let range_set := get_range pos_ranges "limp" in
    (if bool_decide (range_set = ∅) then limp_fallback_range else range_set,
     "Limp range from " +:+ name +:+ " (passive/weak)")
  else
    (get_range pos_ranges "open_raise", "Estimated range from " +:+ name).

(** The body of [for hand in range_set: total_combos += ...]. *)
Definition combos_of (hand : string) : Z :=
  if Nat.eqb (String.length hand) 2 then 6
  else if endswith hand "s" then 4
  else 12.

Definition total_combos (range_set : gset string) : Z :=
  set_fold (fun hand acc => acc + combos_of hand) 0 range_set.

(** [estimate_preflop_range] *)
Definition estimate_preflop_range (position : Position) (action : Action)
    (facing_action : option Action) : gmap string PyVal :=
  if bool_decide (action = FOLD) then
    list_to_map
      [("range", VSet ∅);
       ("description", VStr "Player folded");
       ("hand_count", VInt 0);
       ("percentage", VInt 0)]
  else
    let '(range_set, desc) := select_range position action facing_action in
    let combos := total_combos range_set in
    let percentage := fmul (int_div combos 1326) 100 in
    list_to_map
      [("range", VSet range_set);
       ("description", VStr desc);
       ("hand_count", VInt (Z.of_nat (size range_set)));
       ("combo_count", VInt combos);
       ("percentage", VNum (py_round percentage 1))].

(** *** narrow_range_postflop *)

Record BoardTexture : Set := mkTexture {
  monotone : bool;
  two_tone : bool;
  paired : bool;
  connected : bool;
  high_card : string
}.

Record Narrowed : Type := mkNarrowed {
  n_range : gset string;
  removed : gset string;
  board_texture : BoardTexture;
  bet_sizing_analysis : option (gmap string string)
}.

(** [max(l)] and [min(l)] of a non-empty list of ints. *)
Definition py_max (l : list Z) : Z := foldr Z.max (hd 0 l) l.
Definition py_min (l : list Z) : Z := foldr Z.min (hd 0 l) l.

(** The strings of [RANKS], for [RANKS[high_card]]. *)
Definition rank_string (v : Z) : string :=
  nth (Z.to_nat v)
    ["2"; "3"; "4"; "5"; "6"; "7"; "8"; "9"; "10"; "J"; "Q"; "K"; "A"] "".

Definition is_aggressive (action : Action) : bool :=
  bool_decide (action ∈ [BET; RAISE; THREE_BET; ALL_IN]).

(** Whether the aggressive branch adds [hand] to [narrowed_range]; Python
    parses [a and b or c] as [(a and b) or c]. *)
Definition keeps_aggressive (is_monotone : bool) (hand : string) : bool :=
  let is_pair := Nat.eqb (String.length hand) 2 in
  let is_suited := endswith hand "s" in
  if is_pair && first_in hand "AKQJT98" then true
  else if startswith hand "A" then true
  else if (is_suited && py_in "K" hand) || py_in "Q" hand then true
  else if is_monotone && is_suited then true
  else false.

(** Whether the FOLD branch adds [hand] to [narrowed_range]. *)
Definition keeps_fold (hand : string) : bool :=
  let is_pair := Nat.eqb (String.length hand) 2 in
  negb (is_pair && first_in hand "AKQJT") && negb (startswith hand "AK").

(** The body of [for hand in preflop_range], on the pair
    [(narrowed_range, removed_hands)]. *)
Definition narrow_step (action : Action) (is_monotone : bool)
    (hand : string) (st : gset string * gset string)
  : gset string * gset string :=
  if is_aggressive action then
    if keeps_aggressive is_monotone hand
    then ({[hand]} ∪ st.1, st.2)
    else (st.1, {[hand]} ∪ st.2)
  else if bool_decide (action = CALL) then ({[hand]} ∪ st.1, st.2)
  else if bool_decide (action = CHECK) then ({[hand]} ∪ st.1, st.2)
  else if bool_decide (action = FOLD) then
    if keeps_fold hand then ({[hand]} ∪ st.1, st.2) else st
  else st.

(** [narrow_range_postflop] *)
Definition narrow_range_postflop (preflop_range : gset string)
    (board : list Card) (action : Action) (bet_size pot_size : float)
  : Narrowed :=
  let board_values := map value board in
  let board_suits := map suit board in
  let is_monotone := Nat.eqb (length (py_set board_suits)) 1 in
  let is_two_tone := Nat.eqb (length (py_set board_suits)) 2 in
  let is_paired :=
    Nat.ltb (length (py_set board_values)) (length board_values) in
  let high_card :=
    match board_values with [] => 0 | _ => py_max board_values end in
  let is_connected :=
    if Nat.leb 3 (length board_values)
    then Z.leb (py_max board_values - py_min board_values) 4
    else false in
  let sizing :=
    if fgtb bet_size 0 && fgtb pot_size 0
    then Some (analyze_bet_sizing bet_size pot_size) else None in
  let '(narrowed_range, removed_hands) :=
    set_fold (narrow_step action is_monotone) (∅, ∅) preflop_range in
  let narrowed_range :=
    if bool_decide (narrowed_range = ∅) then preflop_range
    else narrowed_range in
  mkNarrowed narrowed_range removed_hands
    (mkTexture is_monotone is_two_tone is_paired is_connected
       (if Z.eqb high_card 0 then "None" else rank_string high_card))
    sizing.

(** *** hand_to_notation *)

(** [rank_map] *)
Definition rank_map : gmap string string :=
  list_to_map
    [("10", "T"); ("11", "J"); ("12", "Q"); ("13", "K"); ("14", "A")].

(** [get_rank_char] *)
Definition get_rank_char (card : Card) : string :=
  let val := value card in
  if Z.geb val 8
  then default (RANKS_at val) (rank_map !! pretty (val + 2))
  else RANKS_at val.

(** [hand_to_notation]; [ValueError] is that of [c1, c2 = hole_cards] on a
    list that does not have two elements. *)
Definition hand_to_notation (hole_cards : list Card) : PyError + string :=
  match hole_cards with
  | [c1; c2] =>
      let r1 := get_rank_char c1 in
      let r2 := get_rank_char c2 in
      let is_pair := bool_decide (rank c1 = rank c2) in
      let is_suited := bool_decide (suit c1 = suit c2) in
      if is_pair then inr (r1 +:+ r2)
      else
        let notation :=
          if Z.gtb (value c1) (value c2) then r1 +:+ r2 else r2 +:+ r1 in
        inr (notation +:+ (if is_suited then "s" else "o"))
  | _ => inl ValueError
  end.

(** *** get_range_summary *)

Record RangeSummary : Set := mkSummary {
  s_pairs : list string;
  s_suited : list string;
  s_offsuit : list string;
  s_combo_count : Z;
  s_percentage : float;
  s_total_hands : Z
}.

(** The key [RANKS.index(x[0]) if x[0] in RANKS else 14]; it is only used
    on hands of length two. *)
Definition pair_sort_key (hand : string) : Z :=
  match hand with
  | String c _ =>
      let x0 := String c EmptyString in
      match
        list_find (fun r => r = x0)
          ["2"; "3"; "4"; "5"; "6"; "7"; "8"; "9"; "10"; "J"; "Q"; "K"; "A"]
      with
      | Some (i, _) => Z.of_nat i
      | None => 14
      end
  | EmptyString => 14
  end.

(** [get_range_summary]; the three list comprehensions run over the set in
    the order of [elements]. *)
Definition get_range_summary (range_set : gset string) : RangeSummary :=
  let hands := elements range_set in
  let pairs := List.filter (fun h => Nat.eqb (String.length h) 2) hands in
  let suited := List.filter (fun h => endswith h "s") hands in
  let offsuit := List.filter (fun h => endswith h "o") hands in
  let combo_count :=
    Z.of_nat (length pairs) * 6 + Z.of_nat (length suited) * 4
    + Z.of_nat (length offsuit) * 12 in
  let percentage := fmul (int_div combo_count 1326) 100 in
  mkSummary
    (sorted_desc (fun a b => Z.geb (pair_sort_key a) (pair_sort_key b)) pairs)
    (sorted_desc String.leb suited)
    (sorted_desc String.leb offsuit)
    combo_count (py_round percentage 1) (Z.of_nat (size range_set)).

End RangeEstimator.

(** ** app.py: the positions and the initial ranges of a hand *)

Module App.
Import PyNum PokerEngine RangeEstimator.






End App.

(** * Vocabulary of the statements *)

Import PyNum PokerEngine RangeEstimator App.

(** The length of the tiebreak vector that [_evaluate_five_cards] builds
    for each category. *)
Definition tiebreak_length (c : HandRank) : nat :=
  match c with
  | ROYAL_FLUSH | STRAIGHT_FLUSH | STRAIGHT => 1
  | FOUR_OF_A_KIND | FULL_HOUSE => 2
  | THREE_OF_A_KIND | TWO_PAIR => 3
  | PokerEngine.PAIR => 4
  | FLUSH | HIGH_CARD => 5
  end.

Definition well_formed (h : EvaluatedHand) : Prop :=
  length h.2 = tiebreak_length h.1.

(** The five ranks of the straight that starts at position [k] of
    A-2-3-...-K-A: [k = 0] is the wheel, [k = 1] the six-high straight,
    [k = 9] the ace-high one.  Its high card has value [k + 3]. *)
Definition straight_ranks (k : nat) : list Rank :=
  take 5 (drop k [RA; R2; R3; R4; R5; R6; R7; R8; R9; R10; RJ; RQ; RK; RA]).

Definition straight_hand (k : nat) (s1 s2 s3 s4 s5 : Suit) : list Card :=
  zip_with mkCard (straight_ranks k) [s1; s2; s3; s4; s5].

(** A-K-Q-J-10 of one suit. *)
Definition royal_flush_hand (s : Suit) : list Card :=
  [mkCard RA s; mkCard RK s; mkCard RQ s; mkCard RJ s; mkCard R10 s].

(** Four cards of rank [q] and a kicker. *)
Definition quads_hand (q k : Rank) (sk : Suit) : list Card :=
  [mkCard q H; mkCard q D; mkCard q C; mkCard q S; mkCard k sk].

Definition one_suit (s1 s2 s3 s4 s5 : Suit) : bool :=
  bool_decide (s1 = s2 /\ s2 = s3 /\ s3 = s4 /\ s4 = s5).

Definition eval_is (e : EvaluatedHand) (h : list Card) : bool :=
  bool_decide (_evaluate_five_cards h = e).

(** "By quad rank, then by kicker", as a three-way comparison. *)
Definition by_quad_then_kicker (q1 k1 q2 k2 : Rank) : Z :=
  if RANK_VALUES q1 >? RANK_VALUES q2 then 1
  else if RANK_VALUES q1 <? RANK_VALUES q2 then -1
  else if RANK_VALUES k1 >? RANK_VALUES k2 then 1
  else if RANK_VALUES k1 <? RANK_VALUES k2 then -1
  else 0.

(** Which list, if any, the chain of [count_outs] appends an out to,
    read off its branches: the current and the new category decide. *)
Definition goes_to_straight (cur new : HandRank) : bool :=
  (hr_eqb new STRAIGHT || hr_eqb new STRAIGHT_FLUSH)
  && negb (hr_eqb cur STRAIGHT).
Definition goes_to_flush (cur new : HandRank) : bool :=
  hr_eqb new FLUSH && negb (hr_eqb cur FLUSH).
Definition goes_to_quads (cur new : HandRank) : bool :=
  hr_eqb new FOUR_OF_A_KIND.
Definition goes_to_full_house (cur new : HandRank) : bool :=
  hr_eqb new FULL_HOUSE && (hr_value cur <? hr_value FULL_HOUSE).
Definition goes_to_trips (cur new : HandRank) : bool :=
  hr_eqb new THREE_OF_A_KIND.
Definition goes_to_two_pair (cur new : HandRank) : bool :=
  hr_eqb new TWO_PAIR && (hr_value cur <? hr_value TWO_PAIR).
Definition goes_to_pair (cur new : HandRank) : bool :=
  hr_eqb new PokerEngine.PAIR.

(** Whether the loop of [count_outs] counts the card [c], and whether it
    also appends it to the list that [g] stands for. *)
Definition is_out (hole_cards board : list Card) (c : Card) : bool :=
  improves (evaluate_hand (hole_cards ++ board))
    (evaluate_hand (hole_cards ++ board ++ [c])).
Definition selects (hole_cards board : list Card)
    (g : HandRank -> HandRank -> bool) (c : Card) : bool :=
  is_out hole_cards board c
  && g (evaluate_hand (hole_cards ++ board)).1
       (evaluate_hand (hole_cards ++ board ++ [c])).1.

(** The report after the loop has run over [l], from the report [o]. *)
Definition outs_after (hole_cards board l : list Card) (o : Outs) : Outs :=
  mkOuts
    (total o + Z.of_nat (length (List.filter (is_out hole_cards board) l)))
    (to_straight o
     ++ List.filter (selects hole_cards board goes_to_straight) l)
    (to_flush o ++ List.filter (selects hole_cards board goes_to_flush) l)
    (to_pair o ++ List.filter (selects hole_cards board goes_to_pair) l)
    (to_two_pair o
     ++ List.filter (selects hole_cards board goes_to_two_pair) l)
    (to_trips o ++ List.filter (selects hole_cards board goes_to_trips) l)
    (to_full_house o
     ++ List.filter (selects hole_cards board goes_to_full_house) l)
    (to_quads o ++ List.filter (selects hole_cards board goes_to_quads) l)
    (overcards o).

(** The cards that [count_outs] puts in one of its seven category lists. *)
Definition labelled (o : Outs) : list Card :=
  to_pair o ++ to_two_pair o ++ to_trips o ++ to_straight o ++ to_flush o
  ++ to_full_house o ++ to_quads o.

(** The failing trial: A-H K-H in hand, board 2-D 7-C 9-S, one opponent
    whose range is the single combo A-S A-D, and a shuffle of the
    remaining deck that puts A-S on top. *)
Definition trial_hole : list Card := [mkCard RA H; mkCard RK H].
Definition trial_board : list Card := [mkCard R2 D; mkCard R7 C; mkCard R9 S].
Definition trial_ranges : option (list (list (Card * Card))) :=
  Some [[(mkCard RA S, mkCard RA D)]].
Definition trial_shuffled : list Card :=
  mkCard RA S
  :: List.filter (fun c => negb (bool_decide (c = mkCard RA S)))
       (remaining_deck trial_hole trial_board).

(** [is_monotone], as [narrow_range_postflop] computes it. *)
Definition board_is_monotone (board : list Card) : bool :=
  Nat.eqb (length (py_set (map suit board))) 1.

(** Whether the loop adds a hand to [narrowed_range], per action. *)
Definition retained (action : Action) (is_monotone : bool) (hand : string)
  : bool :=
  if is_aggressive action then keeps_aggressive is_monotone hand
  else if bool_decide (action = CALL) then true
  else if bool_decide (action = CHECK) then true
  else if bool_decide (action = FOLD) then keeps_fold hand
  else false.

(** Whether the loop adds a hand to [removed_hands]. *)
Definition discarded (action : Action) (is_monotone : bool) (hand : string)
  : bool :=
  is_aggressive action && negb (keeps_aggressive is_monotone hand).


(** What [Card.from_string] builds for the text of a deck card. *)
Definition parsed (c : Card) : ParsedCard :=
  mkParsed (rank c) (suit_str (suit c)).

(** [sep.join(parts)] *)
Fixpoint join_with (sep : string) (parts : list string) : string :=
  match parts with
  | [] => ""
  | [p] => p
  | p :: rest => p +:+ sep +:+ join_with sep rest
  end.

(** Whether [hand_to_notation] gives [hand] for the two cards. *)
Definition has_notation (hand : string) (combo : list Card) : bool :=
  match hand_to_notation combo with
  | inr s => bool_decide (s = hand)
  | inl _ => false
  end.

(** The two-card combinations of the deck that [hand] stands for. *)
Definition deck_combos (hand : string) : list (list Card) :=
  List.filter (has_notation hand) (combinations create_deck 2).

(** Whether the notation of the two cards is in [range_set]. *)
Definition in_range (range_set : gset string) (combo : list Card) : bool :=
  match hand_to_notation combo with
  | inr s => bool_decide (s ∈ range_set)
  | inl _ => false
  end.

(** The two-card combinations of the deck that [range_set] holds. *)
Definition range_combos (range_set : gset string) : list (list Card) :=
  List.filter (in_range range_set) (combinations create_deck 2).

(** The notations of the two-card combinations of the deck. *)
Definition hand_notations : list string :=
  remove_dups
    (omap (fun combo => match hand_to_notation combo with
                        | inr s => Some s
                        | inl _ => None
                        end)
       (combinations create_deck 2)).

Definition all_positions : list Position :=
  [UTG; UTG1; MP; MP1; CO; BTN; SB; BB].
Definition all_actions : list Action :=
  [FOLD; LIMP; CALL; RAISE; THREE_BET; FOUR_BET; ALL_IN; CHECK; BET].

#[global] Instance PyError_eq_dec : EqDecision PyError.
Proof. solve_decision. Defined.
#[global] Instance HandClass_eq_dec : EqDecision HandClass.
Proof. solve_decision. Defined.

(** Comparisons of floats, as propositions. *)
Definition fle (x y : float) : Prop := fleb x y = true.
Definition flt (x y : float) : Prop := fltb x y = true.
Definition feq (x y : float) : Prop := feqb x y = true.


(** Whether a trial ended with the outcome [o]. *)
Definition is_outcome (o : TrialOutcome) (r : PyError + TrialOutcome)
  : bool :=
  match r, o with
  | inr Win, Win | inr Tie, Tie | inr Loss, Loss => true
  | _, _ => false
  end.

(** The number of trials that end with the outcome [o]. *)
Definition count_outcome (o : TrialOutcome) (hole_cards board : list Card)
    (num_opponents : nat)
    (opponent_ranges : option (list (list (Card * Card))))
    (trials : list (list Card * (nat -> nat -> nat))) : Z :=
  Z.of_nat
    (length
       (List.filter
          (fun tr : list Card * (nat -> nat -> nat) =>
             is_outcome o
               (run_trial hole_cards board num_opponents opponent_ranges
                  tr.1 tr.2))
          trials)).

(** The number of cards of a suit. *)
Definition suit_count (s : Suit) (cards : list Card) : Z :=
  Z.of_nat (length (List.filter (fun c => bool_decide (suit c = s)) cards)).

(** Whether some card has the value [v]. *)
Definition holds_value (cards : list Card) (v : Z) : bool :=
  existsb (fun c => Z.eqb (value c) v) cards.

(** [d.get(k)] on the items of a [Counter]. *)
Fixpoint assoc_suit (s : Suit) (items : list (Suit * Z)) : option Z :=
  match items with
  | [] => None
  | (k, n) :: items' =>
      if bool_decide (k = s) then Some n else assoc_suit s items'
  end.

(** The thirteen card values. *)
Definition card_values : list Z := [0; 1; 2; 3; 4; 5; 6; 7; 8; 9; 10; 11; 12].

(** The sub-lists of a list, as masks. *)
Fixpoint all_masks (n : nat) : list (list bool) :=
  match n with
  | O => [[]]
  | Datatypes.S n' =>
      flat_map (fun m => [true :: m; false :: m]) (all_masks n')
  end.

Fixpoint select {A} (mask : list bool) (l : list A) : list A :=
  match mask, l with
  | b :: mask', x :: l' => if b then x :: select mask' l' else select mask' l'
  | _, _ => []
  end.

(** Whether the mask has the value [v]. *)
Definition mask_at (mask : list bool) (v : Z) : bool :=
  (0 <=? v) && nth (Z.to_nat v) mask false.

(** The two straight draws, read on a mask of the thirteen values. *)
Definition open_ended_mask (mask : list bool) : bool :=
  existsb (fun v => forallb (mask_at mask) [v; v + 1; v + 2; v + 3])
    [1; 2; 3; 4; 5; 6; 7; 8].

Definition gutshot_mask (mask : list bool) : bool :=
  existsb
    (fun v =>
       existsb
         (fun g =>
            negb (mask_at mask g)
            && forallb (fun w => Z.eqb w g || mask_at mask w)
                 [v; v + 1; v + 2; v + 3; v + 4])
         [v + 1; v + 2; v + 3])
    [0; 1; 2; 3; 4; 5; 6; 7; 8].

(** * Properties *)

(** ** Sorting and counting *)

Section SortedFacts.
Context {A : Type} (geb : A -> A -> bool).

Lemma length_insert_desc (x : A) (l : list A) :
  length (insert_desc geb x l) = Datatypes.S (length l).
Proof.
  induction l as [|y l IH]; simpl; [reflexivity|].
  destruct (geb x y); simpl; [reflexivity|]. now rewrite IH.
Qed.

Lemma length_sorted_desc (l : list A) :
  length (sorted_desc geb l) = length l.
Proof.
  induction l as [|x l IH]; simpl; [reflexivity|].
  now rewrite length_insert_desc, IH.
Qed.
End SortedFacts.

Lemma length_sorted_rev (l : list Z) : length (sorted_rev l) = length l.
Proof. apply length_sorted_desc. Qed.

(** ** The comparator *)

Lemma compare_tiebreak_antisym (t1 t2 : list Z) :
  compare_tiebreak t1 t2 = - compare_tiebreak t2 t1.
Proof.
  revert t2; induction t1 as [|v1 t1 IH]; intros [|v2 t2]; simpl; try reflexivity.
  destruct (Z.gtb_spec v1 v2), (Z.ltb_spec v1 v2), (Z.gtb_spec v2 v1),
    (Z.ltb_spec v2 v1); try lia; apply IH.
Qed.

Lemma compare_tiebreak_range (t1 t2 : list Z) :
  compare_tiebreak t1 t2 = 1 \/ compare_tiebreak t1 t2 = 0
  \/ compare_tiebreak t1 t2 = -1.
Proof.
  revert t2; induction t1 as [|v1 t1 IH]; intros [|v2 t2]; simpl; auto.
  destruct (v1 >? v2); auto. destruct (v1 <? v2); auto.
Qed.

(** On vectors of one length the loop returns 0 only on equal vectors. *)
Lemma compare_tiebreak_zero (t1 t2 : list Z) :
  length t1 = length t2 -> compare_tiebreak t1 t2 = 0 -> t1 = t2.
Proof.
  revert t2; induction t1 as [|v1 t1 IH]; intros [|v2 t2]; simpl;
    try discriminate; [reflexivity|].
  intros Hlen. destruct (Z.gtb_spec v1 v2) as [Hgt|Hngt]; [discriminate|].
  destruct (Z.ltb_spec v1 v2) as [Hlt|Hnlt]; [discriminate|].
  intros Hz. f_equal; [lia|]. apply IH; [lia|exact Hz].
Qed.

Lemma compare_tiebreak_refl (t : list Z) : compare_tiebreak t t = 0.
Proof.
  induction t as [|v t IH]; simpl; [reflexivity|].
  now rewrite Z.gtb_ltb, Z.ltb_irrefl.
Qed.

(** Strict wins compose, whatever the lengths. *)
Lemma compare_tiebreak_trans_gt (t1 t2 t3 : list Z) :
  compare_tiebreak t1 t2 = 1 -> compare_tiebreak t2 t3 = 1 ->
  compare_tiebreak t1 t3 = 1.
Proof.
  revert t2 t3; induction t1 as [|v1 t1 IH]; intros [|v2 t2] [|v3 t3]; simpl;
    try discriminate.
  destruct (Z.gtb_spec v1 v2), (Z.ltb_spec v1 v2), (Z.gtb_spec v2 v3),
    (Z.ltb_spec v2 v3), (Z.gtb_spec v1 v3), (Z.ltb_spec v1 v3);
    try lia; try discriminate; try reflexivity.
  apply IH.
Qed.

Lemma hr_value_inj (c1 c2 : HandRank) : hr_value c1 = hr_value c2 -> c1 = c2.
Proof. destruct c1, c2; simpl; intros E; try reflexivity; discriminate E. Qed.

Lemma compare_hands_antisym (h1 h2 : EvaluatedHand) :
  compare_hands h1 h2 = - compare_hands h2 h1.
Proof.
  unfold compare_hands.
  destruct (Z.gtb_spec (hr_value h1.1) (hr_value h2.1)),
    (Z.ltb_spec (hr_value h1.1) (hr_value h2.1)),
    (Z.gtb_spec (hr_value h2.1) (hr_value h1.1)),
    (Z.ltb_spec (hr_value h2.1) (hr_value h1.1)); try lia.
  apply compare_tiebreak_antisym.
Qed.

Lemma compare_hands_range (h1 h2 : EvaluatedHand) :
  compare_hands h1 h2 = 1 \/ compare_hands h1 h2 = 0
  \/ compare_hands h1 h2 = -1.
Proof.
  unfold compare_hands.
  destruct (_ >? _); auto. destruct (_ <? _); auto.
  apply compare_tiebreak_range.
Qed.

Lemma compare_hands_zero (h1 h2 : EvaluatedHand) :
  well_formed h1 -> well_formed h2 -> compare_hands h1 h2 = 0 -> h1 = h2.
Proof.
  destruct h1 as [c1 t1], h2 as [c2 t2]; unfold well_formed, compare_hands; simpl.
  intros W1 W2.
  destruct (Z.gtb_spec (hr_value c1) (hr_value c2)); [discriminate|].
  destruct (Z.ltb_spec (hr_value c1) (hr_value c2)); [discriminate|].
  assert (Hc : c1 = c2) by (apply hr_value_inj; lia). subst c2.
  intros Hz. f_equal. apply compare_tiebreak_zero; congruence.
Qed.

Lemma compare_hands_refl (h : EvaluatedHand) : compare_hands h h = 0.
Proof.
  unfold compare_hands. rewrite Z.gtb_ltb, Z.ltb_irrefl.
  apply compare_tiebreak_refl.
Qed.

Lemma compare_hands_trans_gt (h1 h2 h3 : EvaluatedHand) :
  compare_hands h1 h2 = 1 -> compare_hands h2 h3 = 1 ->
  compare_hands h1 h3 = 1.
Proof.
  unfold compare_hands.
  destruct (Z.gtb_spec (hr_value h1.1) (hr_value h2.1)),
    (Z.ltb_spec (hr_value h1.1) (hr_value h2.1)),
    (Z.gtb_spec (hr_value h2.1) (hr_value h3.1)),
    (Z.ltb_spec (hr_value h2.1) (hr_value h3.1)),
    (Z.gtb_spec (hr_value h1.1) (hr_value h3.1)),
    (Z.ltb_spec (hr_value h1.1) (hr_value h3.1));
    try lia; try discriminate; try reflexivity.
  apply compare_tiebreak_trans_gt.
Qed.

(** On well-formed hands [compare_hands] is a total preorder whose ties
    are equalities: "at least as good" composes, and the composite is a
    tie only when both steps are. *)
Lemma compare_hands_trans (h1 h2 h3 : EvaluatedHand) :
  well_formed h1 -> well_formed h2 -> well_formed h3 ->
  0 <= compare_hands h1 h2 -> 0 <= compare_hands h2 h3 ->
  0 <= compare_hands h1 h3
  /\ (compare_hands h1 h3 = 0 ->
      compare_hands h1 h2 = 0 /\ compare_hands h2 h3 = 0).
Proof.
  intros W1 W2 W3 H12 H23.
  destruct (compare_hands_range h1 h2) as [G12|[E12|L12]]; [| |lia];
  destruct (compare_hands_range h2 h3) as [G23|[E23|L23]]; try lia.
  - rewrite (compare_hands_trans_gt _ _ _ G12 G23). split; [lia|discriminate].
  - apply compare_hands_zero in E23; auto. subst h3.
    rewrite G12. split; [lia|discriminate].
  - apply compare_hands_zero in E12; auto. subst h2.
    rewrite G23. split; [lia|discriminate].
  - apply compare_hands_zero in E12; auto. apply compare_hands_zero in E23; auto.
    subst. rewrite compare_hands_refl. split; [lia|auto].
Qed.

Lemma length_counter_kickers (values : list Z) (counts : list Z) :
  sorted_rev (map snd (Counter values)) = counts ->
  length (map fst (sorted_desc count_then_value_geb (Counter values)))
  = length counts.
Proof.
  intros <-. rewrite length_sorted_rev, !length_map.
  apply length_sorted_desc.
Qed.

(** Every evaluation of five cards is well formed. *)
Lemma evaluate_five_well_formed (cards : list Card) :
  length cards = 5%nat -> well_formed (_evaluate_five_cards cards).
Proof.
  intros Hlen. unfold _evaluate_five_cards, well_formed, list_eqb.
  set (values := sorted_rev (map value cards)).
  assert (Hv : length values = 5%nat)
    by (unfold values; now rewrite length_sorted_rev, length_map).
  destruct (if (length (sorted_rev (py_set values)) =? 5)%nat then _ else _)
    as [is_straight straight_high].
  destruct (is_straight && _).
  { destruct (straight_high =? 12); reflexivity. }
  repeat match goal with
  | |- context [bool_decide (?a = ?b)] =>
      destruct (bool_decide_reflect (a = b)) as [E|_];
      [simpl; now rewrite (length_counter_kickers _ _ E)|]
  | |- context [if ?b then _ else _] => destruct b; simpl; try assumption;
      try reflexivity
  end.
  all: simpl; assumption.
Qed.

(** ** Exhaustive checks over ranks, suits and orders of a hand *)

Lemma forallb_RANKS (f : Rank -> bool) :
  forallb f RANKS = true -> forall r, f r = true.
Proof.
  intros Hall r. rewrite forallb_forall in Hall. apply Hall.
  destruct r; simpl; tauto.
Qed.

Lemma forallb_SUITS (f : Suit -> bool) :
  forallb f SUITS = true -> forall s, f s = true.
Proof.
  intros Hall s. rewrite forallb_forall in Hall. apply Hall.
  destruct s; simpl; tauto.
Qed.

Lemma forallb_permutations {A} (f : list A -> bool) (l : list A) :
  forallb f (permutations l) = true -> forall h, h ≡ₚ l -> f h = true.
Proof.
  intros Hall h Hp. rewrite forallb_forall in Hall. apply Hall.
  apply list_elem_of_In, permutations_Permutation. now symmetry.
Qed.

Lemma royal_flush_eval (s : Suit) (h : list Card) :
  h ≡ₚ royal_flush_hand s -> _evaluate_five_cards h = (ROYAL_FLUSH, [12]).
Proof.
  intros Hp.
  apply (bool_decide_eq_true_1 (_evaluate_five_cards h = (ROYAL_FLUSH, [12]))).
  revert h Hp. apply (forallb_permutations (eval_is (ROYAL_FLUSH, [12]))).
  revert s. apply (forallb_SUITS (fun s =>
    forallb (eval_is (ROYAL_FLUSH, [12])) (permutations (royal_flush_hand s)))).
  vm_compute. reflexivity.
Qed.

(** The nine straight flushes below the royal flush, per suit. *)
Lemma straight_flush_eval (k : nat) (s : Suit) (h : list Card) :
  (k < 9)%nat -> h ≡ₚ straight_hand k s s s s s ->
  _evaluate_five_cards h = (STRAIGHT_FLUSH, [Z.of_nat k + 3]).
Proof.
  intros Hk Hp.
  apply (bool_decide_eq_true_1
           (_evaluate_five_cards h = (STRAIGHT_FLUSH, [Z.of_nat k + 3]))).
  revert h Hp.
  apply (forallb_permutations (eval_is (STRAIGHT_FLUSH, [Z.of_nat k + 3]))).
  revert s. apply (forallb_SUITS (fun s =>
    forallb (eval_is (STRAIGHT_FLUSH, [Z.of_nat k + 3]))
      (permutations (straight_hand k s s s s s)))).
  do 9 (destruct k as [|k]; [vm_compute; reflexivity|]). lia.
Qed.

Lemma quads_eval (q k : Rank) (sk : Suit) (h : list Card) :
  q <> k -> h ≡ₚ quads_hand q k sk ->
  _evaluate_five_cards h = (FOUR_OF_A_KIND, [RANK_VALUES q; RANK_VALUES k]).
Proof.
  intros Hqk Hp.
  pose (chk := fun q k sk =>
    bool_decide (q = k)
    || forallb (eval_is (FOUR_OF_A_KIND, [RANK_VALUES q; RANK_VALUES k]))
         (permutations (quads_hand q k sk))).
  assert (Hall : chk q k sk = true).
  { clear Hqk Hp. revert sk. apply (forallb_SUITS (chk q k)).
    revert k.
    apply (forallb_RANKS (fun k => forallb (chk q k) SUITS)).
    revert q. apply (forallb_RANKS (fun q =>
      forallb (fun k => forallb (chk q k) SUITS) RANKS)).
    vm_compute. reflexivity. }
  unfold chk in Hall. apply orb_true_iff in Hall as [Heq|Hall].
  - apply bool_decide_eq_true_1 in Heq. contradiction.
  - apply (bool_decide_eq_true_1 (_evaluate_five_cards h = _)).
    exact (forallb_permutations _ _ Hall h Hp).
Qed.

(** A wheel or six-high straight ([k = 0] or [k = 1]) in any suits: a
    straight, or a straight flush when all five suits agree, with the
    tiebreak [k + 3]. *)
Lemma low_straight_eval (k : nat) (s1 s2 s3 s4 s5 : Suit) (h : list Card) :
  (k < 2)%nat -> h ≡ₚ straight_hand k s1 s2 s3 s4 s5 ->
  _evaluate_five_cards h =
  (if one_suit s1 s2 s3 s4 s5 then STRAIGHT_FLUSH else STRAIGHT,
   [Z.of_nat k + 3]).
Proof.
  intros Hk Hp.
  pose (chk := fun s1 s2 s3 s4 s5 =>
    forallb (eval_is (if one_suit s1 s2 s3 s4 s5 then STRAIGHT_FLUSH
                      else STRAIGHT, [Z.of_nat k + 3]))
      (permutations (straight_hand k s1 s2 s3 s4 s5))).
  assert (Hall : chk s1 s2 s3 s4 s5 = true).
  { clear Hp. revert s5. apply (forallb_SUITS (chk s1 s2 s3 s4)).
    revert s4. apply (forallb_SUITS (fun s4 => forallb (chk s1 s2 s3 s4) SUITS)).
    revert s3. apply (forallb_SUITS (fun s3 =>
      forallb (fun s4 => forallb (chk s1 s2 s3 s4) SUITS) SUITS)).
    revert s2. apply (forallb_SUITS (fun s2 => forallb (fun s3 =>
      forallb (fun s4 => forallb (chk s1 s2 s3 s4) SUITS) SUITS) SUITS)).
    revert s1. apply (forallb_SUITS (fun s1 => forallb (fun s2 =>
      forallb (fun s3 => forallb (fun s4 =>
        forallb (chk s1 s2 s3 s4) SUITS) SUITS) SUITS) SUITS)).
    subst chk.
    destruct k as [|[|k]]; [vm_compute; reflexivity..|lia]. }
  apply (bool_decide_eq_true_1 (_evaluate_five_cards h = _)).
  exact (forallb_permutations _ _ Hall h Hp).
Qed.

(** C1.  On the evaluations of five-card hands [compare_hands] is a total
    order: it is antisymmetric ([compare(a,b) = -compare(b,a)], and a tie
    only between equal evaluations) and transitive ("at least as good"
    composes, strictly as soon as one step is strict).  A royal flush, in
    any order of its cards, evaluates to [(ROYAL_FLUSH, [12])] and beats
    every hand evaluated as a straight flush, among them the nine lower
    straight flushes of each suit.  Four of a kind evaluates to
    [(FOUR_OF_A_KIND, [quad; kicker])], so two such hands compare by quad
    rank, then by kicker.  The wheel A-2-3-4-5 (not of one suit) evaluates
    to [(STRAIGHT, [3])], the six-high straight to [(STRAIGHT, [4])], and
    the wheel loses to it. *)
Theorem compare_hands_total_order :
  (forall a b : list Card,
     length a = 5%nat -> length b = 5%nat ->
     compare_hands (_evaluate_five_cards a) (_evaluate_five_cards b)
     = - compare_hands (_evaluate_five_cards b) (_evaluate_five_cards a)
     /\ (compare_hands (_evaluate_five_cards a) (_evaluate_five_cards b) = 0
         <-> _evaluate_five_cards a = _evaluate_five_cards b))
  /\ (forall a b c : list Card,
        length a = 5%nat -> length b = 5%nat -> length c = 5%nat ->
        0 <= compare_hands (_evaluate_five_cards a) (_evaluate_five_cards b) ->
        0 <= compare_hands (_evaluate_five_cards b) (_evaluate_five_cards c) ->
        0 <= compare_hands (_evaluate_five_cards a) (_evaluate_five_cards c)
        /\ (compare_hands (_evaluate_five_cards a) (_evaluate_five_cards c) = 0
            -> compare_hands (_evaluate_five_cards a) (_evaluate_five_cards b)
               = 0
               /\ compare_hands (_evaluate_five_cards b)
                    (_evaluate_five_cards c) = 0))
  /\ (forall (s : Suit) (h : list Card),
        h ≡ₚ royal_flush_hand s ->
        _evaluate_five_cards h = (ROYAL_FLUSH, [12])
        /\ (forall h' : list Card,
              (_evaluate_five_cards h').1 = STRAIGHT_FLUSH ->
              compare_hands (_evaluate_five_cards h) (_evaluate_five_cards h')
              = 1)
        /\ (forall (k : nat) (s' : Suit) (h' : list Card),
              (k < 9)%nat -> h' ≡ₚ straight_hand k s' s' s' s' s' ->
              _evaluate_five_cards h' = (STRAIGHT_FLUSH, [Z.of_nat k + 3])))
  /\ (forall (q1 k1 q2 k2 : Rank) (s1 s2 : Suit) (h1 h2 : list Card),
        q1 <> k1 -> q2 <> k2 ->
        h1 ≡ₚ quads_hand q1 k1 s1 -> h2 ≡ₚ quads_hand q2 k2 s2 ->
        _evaluate_five_cards h1
        = (FOUR_OF_A_KIND, [RANK_VALUES q1; RANK_VALUES k1])
        /\ compare_hands (_evaluate_five_cards h1) (_evaluate_five_cards h2)
           = by_quad_then_kicker q1 k1 q2 k2)
  /\ (forall (s1 s2 s3 s4 s5 t1 t2 t3 t4 t5 : Suit) (h h' : list Card),
        one_suit s1 s2 s3 s4 s5 = false -> one_suit t1 t2 t3 t4 t5 = false ->
        h ≡ₚ straight_hand 0 s1 s2 s3 s4 s5 ->
        h' ≡ₚ straight_hand 1 t1 t2 t3 t4 t5 ->
        _evaluate_five_cards h = (STRAIGHT, [3])
        /\ _evaluate_five_cards h' = (STRAIGHT, [4])
        /\ compare_hands (_evaluate_five_cards h) (_evaluate_five_cards h')
           = -1).
Proof.
  repeat apply conj.
  - intros a b Ha Hb. split; [apply compare_hands_antisym|]. split.
    + apply compare_hands_zero; now apply evaluate_five_well_formed.
    + intros ->. apply compare_hands_refl.
  - intros a b c Ha Hb Hc.
    apply compare_hands_trans; now apply evaluate_five_well_formed.
  - intros s h Hp. rewrite (royal_flush_eval s h Hp).
    split; [reflexivity|]. split.
    + intros h' Hsf. unfold compare_hands. simpl. now rewrite Hsf.
    + intros k s' h'. apply straight_flush_eval.
  - intros q1 k1 q2 k2 s1 s2 h1 h2 H1 H2 Hp1 Hp2.
    rewrite (quads_eval q1 k1 s1 h1 H1 Hp1), (quads_eval q2 k2 s2 h2 H2 Hp2).
    split; reflexivity.
  - intros s1 s2 s3 s4 s5 t1 t2 t3 t4 t5 h h' Hs Ht Hp Hp'.
    rewrite (low_straight_eval 0 s1 s2 s3 s4 s5 h), Hs by (lia || assumption).
    rewrite (low_straight_eval 1 t1 t2 t3 t4 t5 h'), Ht by (lia || assumption).
    repeat split.
Qed.

Lemma compare_hands_total_order_witness :
  0 <= compare_hands
         (_evaluate_five_cards (royal_flush_hand H))
         (_evaluate_five_cards (straight_hand 0 H D H H H))
  /\ _evaluate_five_cards (quads_hand R9 RA C)
     = (FOUR_OF_A_KIND, [RANK_VALUES R9; RANK_VALUES RA])
  /\ compare_hands (_evaluate_five_cards (straight_hand 0 H D H H H))
       (_evaluate_five_cards (straight_hand 1 C C C C S)) = -1.
Proof.
  destruct compare_hands_total_order as (_ & Htrans & _ & Hquads & Hwheel).
  split; [|split].
  - apply (Htrans (royal_flush_hand H) (quads_hand R9 RA C)
             (straight_hand 0 H D H H H));
      try reflexivity; vm_compute; discriminate.
  - apply (Hquads R9 RA R9 RA C C (quads_hand R9 RA C) (quads_hand R9 RA C));
      try reflexivity; discriminate.
  - apply (Hwheel H D H H H C C C C S); reflexivity.
Defined.

(** C10.  [compare_hands] returns 0 whenever the two hands have the same
    category and their tiebreak vectors agree at every position that both
    have, whatever their lengths; so the under-five-cards result of
    [evaluate_hand], [(HIGH_CARD, [0])], ties with every high-card hand
    whose tiebreak vector starts with 0. *)
Theorem compare_hands_tie_on_common_prefix :
  (forall (c : HandRank) (t1 t2 : list Z),
     (forall (i : nat) (v1 v2 : Z),
        t1 !! i = Some v1 -> t2 !! i = Some v2 -> v1 = v2) ->
     compare_hands (c, t1) (c, t2) = 0)
  /\ (forall (cards : list Card) (rest : list Z),
        (length cards < 5)%nat ->
        evaluate_hand cards = (HIGH_CARD, [0])
        /\ compare_hands (evaluate_hand cards) (HIGH_CARD, 0 :: rest) = 0
        /\ compare_hands (HIGH_CARD, 0 :: rest) (evaluate_hand cards) = 0).
Proof.
  split.
  - intros c t1 t2 Hagree. unfold compare_hands; simpl.
    rewrite Z.gtb_ltb, Z.ltb_irrefl.
    revert t2 Hagree; induction t1 as [|v1 t1 IH]; intros [|v2 t2] Hagree;
      simpl; try reflexivity.
    rewrite (Hagree 0%nat v1 v2 eq_refl eq_refl).
    rewrite Z.gtb_ltb, Z.ltb_irrefl. apply IH.
    intros i w1 w2 H1 H2. apply (Hagree (Datatypes.S i)); assumption.
  - intros cards rest Hlen. unfold evaluate_hand.
    destruct (Nat.ltb_spec (length cards) 5) as [_|Hge]; [|lia].
    repeat split; try reflexivity. destruct rest; reflexivity.
Qed.

Lemma compare_hands_tie_on_common_prefix_witness :
  compare_hands (FLUSH, [12; 9]) (FLUSH, [12; 9; 7; 4; 2]) = 0
  /\ compare_hands (evaluate_hand [mkCard RA H; mkCard RA D])
       (HIGH_CARD, [0; 11; 9; 5; 3]) = 0.
Proof.
  destruct compare_hands_tie_on_common_prefix as [Hprefix Hshort].
  split.
  - apply Hprefix. intros [|[|i]] v1 v2 H1 H2; cbv in H1, H2; congruence.
  - apply (Hshort [mkCard RA H; mkCard RA D] [11; 9; 5; 3]). simpl; lia.
Defined.

(** ** [evaluate_hand] on five cards or more *)

Lemma combinations_length {A} (l : list A) (k : nat) (c : list A) :
  In c (combinations l k) -> length c = k.
Proof.
  revert k c; induction l as [|x l IH]; intros [|k] c; simpl.
  - intros [<-|[]]. reflexivity.
  - intros [].
  - intros [<-|[]]. reflexivity.
  - rewrite in_app_iff, in_map_iff. intros [(c' & <- & Hc')|Hc].
    + simpl. f_equal. now apply IH.
    + now apply IH.
Qed.

Lemma combinations_nonempty {A} (l : list A) (k : nat) :
  (k <= length l)%nat -> combinations l k <> [].
Proof.
  revert k; induction l as [|x l IH]; intros [|k]; simpl; try discriminate.
  - lia.
  - intros Hk Hnil. apply app_eq_nil in Hnil as [Hmap _].
    apply map_eq_nil in Hmap. revert Hmap. apply IH. lia.
Qed.

Lemma best_step_some (best : option EvaluatedHand) (combo : list Card) :
  is_Some (best_step best combo).
Proof.
  unfold best_step. destruct best as [b|]; [|eauto].
  destruct (eval_gt _ b); eauto.
Qed.

(** The loop of [evaluate_hand] keeps an evaluation of one of the
    combinations it has seen. *)
Lemma evaluate_hand_loop (combos : list (list Card)) (b : EvaluatedHand) :
  exists e, fold_left best_step combos (Some b) = Some e
            /\ (e = b \/ exists c, In c combos /\ e = _evaluate_five_cards c).
Proof.
  revert b; induction combos as [|c combos IH]; intros b; simpl.
  - exists b. auto.
  - destruct (eval_gt (_evaluate_five_cards c) b).
    + destruct (IH (_evaluate_five_cards c)) as (e & -> & [->|(c' & Hc' & ->)]);
        eexists; split; eauto.
    + destruct (IH b) as (e & -> & [->|(c' & Hc' & ->)]);
        eexists; split; eauto.
Qed.

Lemma evaluate_hand_loop_some (cards : list Card) :
  (5 <= length cards)%nat ->
  exists c, In c (combinations cards 5)
            /\ fold_left best_step (combinations cards 5) None
               = Some (_evaluate_five_cards c).
Proof.
  intros Hlen. pose proof (combinations_nonempty cards 5 Hlen) as Hne.
  destruct (combinations cards 5) as [|c0 combos] eqn:E; [contradiction|].
  simpl.
  destruct (evaluate_hand_loop combos (_evaluate_five_cards c0))
    as (e & -> & [->|(c' & Hc' & ->)]); eauto.
Qed.

Lemma evaluate_hand_well_formed (cards : list Card) :
  (5 <= length cards)%nat -> well_formed (evaluate_hand cards).
Proof.
  intros Hlen. unfold evaluate_hand.
  destruct (Nat.ltb_spec (length cards) 5) as [Hlt|_]; [lia|].
  destruct (evaluate_hand_loop_some cards Hlen) as (c & Hc & ->).
  apply evaluate_five_well_formed. now apply combinations_length in Hc.
Qed.

(** On vectors of one length, Python's list [>] is a strict win of the
    comparator's loop. *)
Lemma list_gt_compare_tiebreak (t1 t2 : list Z) :
  length t1 = length t2 ->
  list_gt t1 t2 = true <-> compare_tiebreak t1 t2 = 1.
Proof.
  revert t2; induction t1 as [|v1 t1 IH]; intros [|v2 t2]; simpl;
    try discriminate; [intros _; split; discriminate|].
  intros Hlen.
  destruct (Z.eqb_spec v1 v2) as [->|Hne].
  - rewrite Z.gtb_ltb, Z.ltb_irrefl. apply IH. lia.
  - destruct (Z.gtb_spec v1 v2) as [Hgt|Hle]; [tauto|].
    destruct (Z.ltb_spec v1 v2) as [Hlt|Hge]; [|lia].
    split; discriminate.
Qed.

Lemma eval_gt_compare_hands (a b : EvaluatedHand) :
  well_formed a -> well_formed b ->
  eval_gt a b = true <-> compare_hands a b = 1.
Proof.
  destruct a as [c1 t1], b as [c2 t2]; unfold well_formed, eval_gt, compare_hands.
  simpl. intros W1 W2.
  destruct (Z.eqb_spec (hr_value c1) (hr_value c2)) as [E|Hne].
  - rewrite E, Z.gtb_ltb, Z.ltb_irrefl.
    apply hr_value_inj in E. subst c2.
    apply list_gt_compare_tiebreak. congruence.
  - destruct (Z.gtb_spec (hr_value c1) (hr_value c2)) as [Hgt|Hle]; [tauto|].
    destruct (Z.ltb_spec (hr_value c1) (hr_value c2)) as [Hlt|Hge]; [|lia].
    split; discriminate.
Qed.

(** The test of [count_outs] is the tuple [>] of [evaluate_hand]. *)
Lemma improves_eval_gt (current_eval new_eval : EvaluatedHand) :
  improves current_eval new_eval = eval_gt new_eval current_eval.
Proof.
  unfold improves, eval_gt.
  destruct (Z.eqb_spec (hr_value new_eval.1) (hr_value current_eval.1)) as [->|];
    [rewrite Z.gtb_ltb, Z.ltb_irrefl; reflexivity|].
  now rewrite andb_false_l, orb_false_r.
Qed.

(** ** The deck and the unseen cards *)

Lemma create_deck_complete (c : Card) : c ∈ create_deck.
Proof.
  apply list_elem_of_In. destruct c as [r s].
  destruct r, s; vm_compute; tauto.
Qed.

Lemma create_deck_NoDup : NoDup create_deck.
Proof. apply (bool_decide_eq_true_1 (NoDup create_deck)). vm_compute. reflexivity. Qed.

Lemma elem_of_unknown_cards (hole_cards board : list Card) (c : Card) :
  c ∈ unknown_cards hole_cards board <-> c ∉ hole_cards ++ board.
Proof.
  unfold unknown_cards. rewrite list_elem_of_In, filter_In, negb_true_iff,
    bool_decide_eq_false, <- list_elem_of_In.
  pose proof (create_deck_complete c). tauto.
Qed.

Lemma NoDup_List_filter {A} (f : A -> bool) (l : list A) :
  NoDup l -> NoDup (List.filter f l).
Proof.
  rewrite !NoDup_ListNoDup. apply List.NoDup_filter.
Qed.

Lemma unknown_cards_NoDup (hole_cards board : list Card) :
  NoDup (unknown_cards hole_cards board).
Proof. apply NoDup_List_filter, create_deck_NoDup. Qed.

(** ** [count_outs] *)

Section CountOuts.
Variables hole_cards board : list Card.

Lemma outs_step_after (o : Outs) (c : Card) :
  outs_step hole_cards board (evaluate_hand (hole_cards ++ board)) o c
  = outs_after hole_cards board [c] o.
Proof.
  unfold outs_step, outs_after, selects, is_out.
  destruct o as [t l1 l2 l3 l4 l5 l6 l7 l8]. simpl.
  destruct (improves _ _); simpl.
  - destruct (evaluate_hand (hole_cards ++ board)).1,
      (evaluate_hand (hole_cards ++ board ++ [c])).1; cbn;
      rewrite ?app_nil_r; reflexivity.
  - rewrite ?app_nil_r, Z.add_0_r. reflexivity.
Qed.

Lemma outs_after_cons (o : Outs) (c : Card) (l : list Card) :
  outs_after hole_cards board l (outs_after hole_cards board [c] o)
  = outs_after hole_cards board (c :: l) o.
Proof.
  unfold outs_after. cbn [total to_straight to_flush to_pair to_two_pair
    to_trips to_full_house to_quads overcards List.filter].
  f_equal;
    try (destruct (selects hole_cards board _ c); cbn;
         rewrite <- ?app_assoc, ?app_nil_r; reflexivity).
  destruct (is_out hole_cards board c); cbn [length]; lia.
Qed.

Lemma outs_loop (l : list Card) (o : Outs) :
  fold_left (outs_step hole_cards board (evaluate_hand (hole_cards ++ board)))
    l o
  = outs_after hole_cards board l o.
Proof.
  revert o; induction l as [|c l IH]; intros o; simpl.
  - destruct o; unfold outs_after; simpl.
    rewrite ?app_nil_r, Z.add_0_r. reflexivity.
  - rewrite outs_step_after, IH. apply outs_after_cons.
Qed.

Lemma count_outs_after :
  count_outs hole_cards board
  = outs_after hole_cards board (unknown_cards hole_cards board) outs_init.
Proof. unfold count_outs. apply outs_loop. Qed.


End CountOuts.








(** C9.  The ['overcards'] list of the report of [count_outs] is empty
    for every input: the key is initialised to [[]] and no branch of the
    loop appends to it. *)
Theorem count_outs_overcards_empty (hole_cards board : list Card) :
  overcards (count_outs hole_cards board) = [].
Proof. rewrite count_outs_after. reflexivity. Qed.

(** ** Dealing in one Monte Carlo trial *)

Lemma slice_split {A} (l : list A) (n : Z) :
  slice_to l n ++ slice_from l n = l.
Proof.
  unfold slice_to, slice_from. destruct (n <? 0); apply take_drop.
Qed.

Lemma elem_of_remaining_deck (hole_cards board : list Card) (c : Card) :
  c ∈ remaining_deck hole_cards board <-> c ∉ hole_cards ++ board.
Proof. apply elem_of_unknown_cards. Qed.

Lemma remaining_deck_NoDup (hole_cards board : list Card) :
  NoDup (remaining_deck hole_cards board).
Proof. apply unknown_cards_NoDup. Qed.

Lemma take_two_lookup {A} (l : list A) (i : nat) (c1 c2 : A) :
  l !! i = Some c1 -> l !! (i + 1)%nat = Some c2 ->
  take 2 (drop i l) = [c1; c2].
Proof.
  intros H1 H2.
  rewrite <- (take_drop i l) in H1, H2.
  assert (Hi : length (take i l) = i).
  { apply length_take_le. apply lookup_lt_Some in H1.
    rewrite take_drop in H1. lia. }
  rewrite lookup_app_r in H1, H2 by lia.
  rewrite Hi in H1, H2. replace (i - i)%nat with 0%nat in H1 by lia.
  replace (i + 1 - i)%nat with 1%nat in H2 by lia.
  destruct (drop i l) as [|x [|y l']]; simplify_eq/=; reflexivity.
Qed.

(** Without ranges, the opponents receive consecutive cards of the deck
    left after the board: the loop from index [deal_idx st] hands out
    exactly the cards up to the index it ends on. *)
Lemma deal_opponents_random (choice : nat -> nat -> nat)
    (deck_after_board : list Card) (opps : list nat) (st st' : DealState) :
  deal_opponents None choice deck_after_board st opps = Some st' ->
  (deal_idx st <= deal_idx st')%nat
  /\ concat (opponent_hands st')
     = concat (opponent_hands st)
       ++ take (deal_idx st' - deal_idx st)
            (drop (deal_idx st) deck_after_board).
Proof.
  revert st; induction opps as [|i opps IH]; intros st; simpl.
  - intros [= <-]. rewrite Nat.sub_diag, take_0, app_nil_r. split; [lia|easy].
  - unfold deal_opponent; simpl.
    destruct (deck_after_board !! deal_idx st) as [c1|] eqn:E1; [|discriminate].
    destruct (deck_after_board !! (deal_idx st + 1)%nat) as [c2|] eqn:E2;
      [|discriminate].
    intros Hrest. apply IH in Hrest as [Hle ->]. simpl in *.
    split; [lia|].
    rewrite concat_app; simpl. rewrite <- app_assoc. f_equal.
    rewrite <- (take_two_lookup _ _ _ _ E1 E2).
    replace (deal_idx st' - deal_idx st)%nat
      with (2 + (deal_idx st' - (deal_idx st + 2)))%nat by lia.
    rewrite <- take_take_drop, drop_drop. reflexivity.
Qed.

(** The sibling path: when no range is supplied, a trial that deals from
    a shuffle of the remaining deck never uses a card twice. *)
Lemma deal_trial_random_NoDup (hole_cards board : list Card)
    (num_opponents : nat) (shuffled : list Card)
    (choice : nat -> nat -> nat) (t : list Card * list (list Card)) :
  NoDup (hole_cards ++ board) ->
  shuffled ≡ₚ remaining_deck hole_cards board ->
  deal_trial board num_opponents None shuffled choice = Some t ->
  NoDup (cards_in_play hole_cards t).
Proof.
  intros Hknown Hshuf. unfold deal_trial, cards_in_play.
  set (n := 5 - Z.of_nat (length board)).
  destruct (deal_opponents None choice (slice_from shuffled n) _ _)
    as [st|] eqn:Hdeal; [|discriminate].
  intros [= <-]. simpl.
  apply deal_opponents_random in Hdeal as [_ ->]. simpl.
  rewrite drop_0, Nat.sub_0_r.
  assert (Hsub : sublist (slice_to shuffled n
                          ++ take (deal_idx st) (slice_from shuffled n))
                   shuffled).
  { rewrite <- (slice_split shuffled n) at 3.
    apply sublist_app; [reflexivity|apply sublist_take]. }
  rewrite <- app_assoc, app_assoc.
  apply NoDup_app. split; [exact Hknown|]. split.
  - intros c Hc Hin.
    assert (Hrem : c ∈ remaining_deck hole_cards board).
    { rewrite <- Hshuf. eapply elem_of_sublist; eauto. }
    apply elem_of_remaining_deck in Hrem. contradiction.
  - eapply sublist_NoDup; [|exact Hsub].
    rewrite Hshuf. apply remaining_deck_NoDup.
Qed.

(** C3.  The range path of [calculate_equity_monte_carlo] deals the same
    card twice: on a legitimate shuffle of the 47 remaining cards the A-S
    completes the board and is also in the hand sampled for the opponent,
    so the cards in play of that trial repeat a card. *)
Theorem monte_carlo_range_deals_card_twice :
  NoDup (trial_hole ++ trial_board)
  /\ trial_shuffled ≡ₚ remaining_deck trial_hole trial_board
  /\ (forall c1 c2, In (c1, c2) [(mkCard RA S, mkCard RA D)] ->
        (c1 ∉ trial_hole ++ trial_board) /\ (c2 ∉ trial_hole ++ trial_board)
        /\ c1 <> c2)
  /\ deal_trial trial_board 1 trial_ranges trial_shuffled (fun _ _ => 0%nat)
     = Some (trial_board ++ [mkCard RA S; mkCard R2 H],
             [[mkCard RA S; mkCard RA D]])
  /\ ~ NoDup (cards_in_play trial_hole
                (trial_board ++ [mkCard RA S; mkCard R2 H],
                 [[mkCard RA S; mkCard RA D]])).
Proof.
  split; [|split; [|split; [|split]]].
  - apply (bool_decide_eq_true_1 (NoDup _)). vm_compute. reflexivity.
  - apply (bool_decide_eq_true_1 (_ ≡ₚ _)). vm_compute. reflexivity.
  - intros c1 c2 [[= <- <-]|[]].
    repeat split;
      apply (bool_decide_eq_true_1 (~ _)); vm_compute; reflexivity.
  - vm_compute. reflexivity.
  - apply (bool_decide_eq_true_1 (~ NoDup _)). vm_compute. reflexivity.
Qed.

(** ** [narrow_range_postflop] *)

Lemma narrow_step_spec (action : Action) (is_monotone : bool)
    (hand : string) (st : gset string * gset string) :
  narrow_step action is_monotone hand st
  = (if retained action is_monotone hand then {[hand]} ∪ st.1 else st.1,
     if discarded action is_monotone hand then {[hand]} ∪ st.2 else st.2).
Proof.
  unfold narrow_step, retained, discarded. destruct st as [n r]; simpl.
  destruct (is_aggressive action); simpl.
  - destruct (keeps_aggressive is_monotone hand); reflexivity.
  - repeat (destruct (bool_decide _); try reflexivity).
    destruct (keeps_fold hand); reflexivity.
Qed.

(** The two sets that the loop over the range builds. *)
Lemma narrow_loop (action : Action) (is_monotone : bool)
    (preflop_range : gset string) :
  let st := set_fold (narrow_step action is_monotone) (∅, ∅) preflop_range in
  (forall hand, hand ∈ st.1 <->
     hand ∈ preflop_range /\ retained action is_monotone hand = true)
  /\ (forall hand, hand ∈ st.2 <->
        hand ∈ preflop_range /\ discarded action is_monotone hand = true).
Proof.
  cbv zeta.
  apply (set_fold_ind_L (fun (st : gset string * gset string) X =>
    (forall hand, hand ∈ st.1 <->
       hand ∈ X /\ retained action is_monotone hand = true)
    /\ (forall hand, hand ∈ st.2 <->
          hand ∈ X /\ discarded action is_monotone hand = true))).
  - simpl. split; intros hand; rewrite elem_of_empty; tauto.
  - intros x X st Hx [IH1 IH2]. rewrite narrow_step_spec. simpl.
    split; intros hand; [specialize (IH1 hand)|specialize (IH2 hand)].
    + destruct (retained action is_monotone x) eqn:E;
        rewrite ?elem_of_union, ?elem_of_singleton, IH1.
      * split; [intros [->|[Hin Hr]]; tauto|tauto].
      * split; [tauto|]. intros [[->|Hin] Hr]; [congruence|tauto].
    + destruct (discarded action is_monotone x) eqn:E;
        rewrite ?elem_of_union, ?elem_of_singleton, IH2.
      * split; [intros [->|[Hin Hr]]; tauto|tauto].
      * split; [tauto|]. intros [[->|Hin] Hr]; [congruence|tauto].
Qed.

Lemma narrow_range_postflop_fields (preflop_range : gset string)
    (board : list Card) (action : Action) (bet_size pot_size : float) :
  let st := set_fold (narrow_step action (board_is_monotone board)) (∅, ∅)
              preflop_range in
  n_range (narrow_range_postflop preflop_range board action bet_size pot_size)
  = (if bool_decide (st.1 = ∅) then preflop_range else st.1)
  /\ removed
       (narrow_range_postflop preflop_range board action bet_size pot_size)
     = st.2.
Proof.
  unfold narrow_range_postflop, board_is_monotone. cbv zeta.
  destruct (set_fold _ _ _) as [n r]. simpl. split; reflexivity.
Qed.

(** C6.  For every non-empty input range, every board and every action,
    [narrow_range_postflop] returns a non-empty range, a subset of the
    input; whenever the loop leaves [narrowed_range] empty (no hand of the
    input passes the heuristic), the input range is returned unchanged. *)
Theorem narrow_range_postflop_nonempty (preflop_range : gset string)
    (board : list Card) (action : Action) (bet_size pot_size : float) :
  preflop_range <> ∅ ->
  let r :=
    narrow_range_postflop preflop_range board action bet_size pot_size in
  n_range r <> ∅
  /\ n_range r ⊆ preflop_range
  /\ ((set_fold (narrow_step action (board_is_monotone board)) (∅, ∅)
         preflop_range).1 = ∅ -> n_range r = preflop_range)
  /\ ((forall hand, hand ∈ preflop_range ->
         retained action (board_is_monotone board) hand = false) ->
      n_range r = preflop_range).
Proof.
  intros Hne r. subst r.
  destruct (narrow_range_postflop_fields preflop_range board action
              bet_size pot_size) as [-> _].
  destruct (narrow_loop action (board_is_monotone board) preflop_range)
    as [Hin _].
  set (st := set_fold _ _ _) in *.
  repeat apply conj.
  - case_bool_decide; assumption.
  - case_bool_decide; [reflexivity|]. intros hand Hh. now apply Hin in Hh.
  - intros ->. now rewrite bool_decide_eq_true_2.
  - intros Hnone. rewrite bool_decide_eq_true_2; [reflexivity|].
    apply set_eq. intros hand. rewrite Hin, elem_of_empty. split; [|tauto].
    intros [Hh Hr]. rewrite (Hnone hand Hh) in Hr. discriminate.
Qed.

Lemma narrow_range_postflop_nonempty_witness :
  n_range (narrow_range_postflop (list_to_set ["72o"; "JTs"])
             [mkCard RA H; mkCard R7 D; mkCard R2 C] BET 0 0) <> ∅
  /\ n_range (narrow_range_postflop (list_to_set ["72o"; "JTs"])
                [mkCard RA H; mkCard R7 D; mkCard R2 C] BET 0 0)
     = list_to_set ["72o"; "JTs"].
Proof.
  assert (Hne : (list_to_set ["72o"; "JTs"] : gset string) <> ∅)
    by (apply (bool_decide_eq_true_1 (_ <> _)); vm_compute; reflexivity).
  destruct (narrow_range_postflop_nonempty (list_to_set ["72o"; "JTs"])
              [mkCard RA H; mkCard R7 D; mkCard R2 C] BET 0 0 Hne)
    as (Hnonempty & _ & Hfallback & _).
  split; [exact Hnonempty|].
  apply Hfallback.
  apply (bool_decide_eq_true_1 (_ = _)). vm_compute. reflexivity.
Defined.







(** ** Pot odds and the decision *)

Lemma fleb_false_feqb (x : float) : fleb x 0 = false -> feqb x 0 = false.
Proof. destruct x as [[]|[]| |[] m e]; cbv; congruence. Qed.

Lemma flt_pos_fleb (x : float) : flt 0 x -> fleb x 0 = false.
Proof. unfold flt. destruct x as [[]|[]| |[] m e]; cbv; congruence. Qed.


Lemma feqb_false (x y : float) : ~ feq x y -> feqb x y = false.
Proof. unfold feq. now destruct (feqb x y). Qed.

Lemma fltb_false (x y : float) : ~ flt x y -> fltb x y = false.
Proof. unfold flt. now destruct (fltb x y). Qed.

(** Values of the float arithmetic: [245 / 200] is a double just above
    1.225 and rounds to 1.23; [23 / 80 * 100] is 28.749999999999996 and
    rounds to 28.7, so that an equity of 28.75 is above the required
    equity of pot 57 and call 23; [36.7 - 16.7] is above 20; [3.3 / 10] is
    below 0.33; [round(2.675, 2)] is 2.67 and [round(0.125, 2)] is 0.12. *)
Lemma python_float_examples :
  py_round (fdiv 245 200) 2 = nearest (123 # 100)
  /\ py_round (fmul (fdiv 23 80) 100) 1 = nearest (287 # 10)
  /\ (exists d,
        result (analyze_decision 57 23 (nearest (2875 # 100)) 1000) = Some d
        /\ d_required_equity d = nearest (287 # 10)
        /\ recommended_action d = "CALL (marginal)")
  /\ flt 20 (fsub (nearest (367 # 10)) (nearest (167 # 10)))
  /\ flt (fdiv (nearest (33 # 10)) 10) (nearest (33 # 100))
  /\ py_round (nearest (2675 # 1000)) 2 = nearest (267 # 100)
  /\ py_round (nearest (125 # 1000)) 2 = nearest (12 # 100).
Proof.
  split; [vm_compute; reflexivity|]. split; [vm_compute; reflexivity|].
  split; [eexists; split; [vm_compute; reflexivity|];
          split; vm_compute; reflexivity|].
  repeat split; vm_compute; reflexivity.
Qed.

Lemma calculate_pot_odds_free (pot_size call_amount : float) :
  fle call_amount 0 ->
  calculate_pot_odds pot_size call_amount = ([], Some free_check).
Proof. intros Hle. unfold calculate_pot_odds. now rewrite Hle. Qed.

Lemma calculate_pot_odds_pos (pot_size call_amount : float) :
  fleb call_amount 0 = false -> ~ feq (fadd pot_size call_amount) 0 ->
  calculate_pot_odds pot_size call_amount
  = ([call_amount; fadd pot_size call_amount],
     Some (mkPotOdds
             (py_round (fdiv pot_size call_amount) 2)
             (py_round
                (fmul (fdiv call_amount (fadd pot_size call_amount)) 100) 1)
             (py_round
                (fmul (fdiv call_amount (fadd pot_size call_amount)) 100)
                1))).
Proof.
  intros Hpos Hsum. unfold calculate_pot_odds, py_div, bind, ret.
  rewrite Hpos, (fleb_false_feqb _ Hpos), (feqb_false _ _ Hsum).
  reflexivity.
Qed.

Lemma calculate_pot_odds_error (pot_size call_amount : float) :
  fleb call_amount 0 = false -> feq (fadd pot_size call_amount) 0 ->
  calculate_pot_odds pot_size call_amount
  = ([call_amount; fadd pot_size call_amount], None).
Proof.
  intros Hpos Hsum. unfold calculate_pot_odds, py_div, bind, ret.
  rewrite Hpos, (fleb_false_feqb _ Hpos), Hsum. reflexivity.
Qed.

(** C7, as the code has it.  For a call amount [<= 0] the function
    returns the "free" dict (ratio 0, required equity 0) and evaluates no
    division.  For a call amount [> 0] the first division evaluated is the
    one by the call amount, a positive divisor, followed by the division by
    [pot + call]; unless [pot + call] is zero (then [ZeroDivisionError])
    the result is the float [pot / call] rounded to two decimals and the
    float [call / (pot + call) * 100] rounded to one decimal.  A call
    amount that is neither (a NaN) gives NaN for both. *)
Theorem calculate_pot_odds_spec (pot_size call_amount : float) :
  (fle call_amount 0 ->
     divisors (calculate_pot_odds pot_size call_amount) = []
     /\ result (calculate_pot_odds pot_size call_amount) = Some free_check
     /\ ratio free_check = 0 /\ required_equity free_check = 0)
  /\ (flt 0 call_amount ->
        divisors (calculate_pot_odds pot_size call_amount)
        = [call_amount; fadd pot_size call_amount]
        /\ (~ feq (fadd pot_size call_amount) 0 ->
            exists po,
              result (calculate_pot_odds pot_size call_amount) = Some po
              /\ ratio po = py_round (fdiv pot_size call_amount) 2
              /\ required_equity po
                 = py_round
                     (fmul (fdiv call_amount (fadd pot_size call_amount))
                        100) 1
              /\ percentage po = required_equity po)
        /\ (feq (fadd pot_size call_amount) 0 ->
            result (calculate_pot_odds pot_size call_amount) = None))
  /\ (call_amount = S754_nan ->
        result (calculate_pot_odds pot_size call_amount)
        = Some (mkPotOdds S754_nan S754_nan S754_nan)).
Proof.
  split; [|split].
  - intros Hle. rewrite (calculate_pot_odds_free _ _ Hle). repeat split.
  - intros Hpos. apply flt_pos_fleb in Hpos. split; [|split].
    + destruct (feqb (fadd pot_size call_amount) 0) eqn:E.
      * now rewrite (calculate_pot_odds_error _ _ Hpos E).
      * rewrite (calculate_pot_odds_pos _ _ Hpos); [reflexivity|].
        unfold feq. congruence.
    + intros E. rewrite (calculate_pot_odds_pos _ _ Hpos E).
      eexists. split; [reflexivity|]. simpl. repeat split.
    + intros E. now rewrite (calculate_pot_odds_error _ _ Hpos E).
  - intros ->. destruct pot_size as [[]|[]| |[] m e]; reflexivity.
Qed.

Lemma calculate_pot_odds_spec_witness :
  divisors (calculate_pot_odds 100 0) = []
  /\ exists po,
       result (calculate_pot_odds 100 50) = Some po
       /\ ratio po = py_round (fdiv 100 50) 2
       /\ required_equity po
          = py_round (fmul (fdiv 50 (fadd 100 50)) 100) 1
       /\ percentage po = required_equity po.
Proof.
  destruct (calculate_pot_odds_spec 100 0) as [Hfree _].
  destruct (calculate_pot_odds_spec 100 50) as (_ & Hpos & _).
  split.
  - apply Hfree. vm_compute. reflexivity.
  - destruct Hpos as (_ & Hres & _); [vm_compute; reflexivity|].
    apply Hres. vm_compute. discriminate.
Defined.

(** With pot 100 and call 30 the returned ratio is the float 3.33, not the
    float 100/30 (3.3333333333333335), and the returned required equity is
    23.1, not 30/130*100 (23.076923076923077). *)
Lemma calculate_pot_odds_counterexample :
  exists po,
    result (calculate_pot_odds 100 30) = Some po
    /\ ratio po = nearest (333 # 100)
    /\ ratio po <> fdiv 100 30
    /\ required_equity po = nearest (231 # 10)
    /\ required_equity po <> fmul (fdiv 30 (fadd 100 30)) 100.
Proof.
  eexists. split; [vm_compute; reflexivity|].
  repeat split; vm_compute; congruence.
Qed.






(** ** [estimate_preflop_range] *)

(** The sibling path: for every action other than FOLD the returned dict
    has the five keys of the range payload. *)
Lemma estimate_preflop_range_keys (position : Position) (action : Action)
    (facing_action : option Action) :
  action <> FOLD ->
  let d := estimate_preflop_range position action facing_action in
  (exists s, d !! "range" = Some (VSet s)
             /\ d !! "hand_count" = Some (VInt (Z.of_nat (size s)))
             /\ d !! "combo_count" = Some (VInt (total_combos s))
             /\ d !! "percentage"
                = Some (VNum (py_round
                                (fmul (int_div (total_combos s) 1326) 100)
                                1)))
  /\ (exists desc, d !! "description" = Some (VStr desc)).
Proof.
  intros Hfold. cbv zeta. unfold estimate_preflop_range.
  rewrite bool_decide_eq_false_2 by assumption.
  destruct (select_range position action facing_action) as [range_set desc].
  split; [exists range_set|exists desc]; repeat split.
Qed.

(** C8.  In the FOLD case the dict returned by [estimate_preflop_range]
    has the keys range, description, hand_count and percentage, and no key
    combo_count, whatever the position and the facing action. *)
Theorem estimate_preflop_range_fold_keys (position : Position)
    (facing_action : option Action) :
  let d := estimate_preflop_range position FOLD facing_action in
  d !! "range" = Some (VSet ∅)
  /\ d !! "description" = Some (VStr "Player folded")
  /\ d !! "hand_count" = Some (VInt 0)
  /\ d !! "percentage" = Some (VInt 0)
  /\ d !! "combo_count" = None
  /\ dom d = list_to_set ["range"; "description"; "hand_count"; "percentage"].
Proof.
  cbv zeta. unfold estimate_preflop_range. simpl.
  repeat split.
Qed.

(** * Further properties of the engine *)

(** ** The tuple order of [evaluate_hand] is a strict total order *)

Lemma list_gt_irrefl (a : list Z) : list_gt a a = false.
Proof.
  induction a as [|x a IH]; simpl; [reflexivity|]. now rewrite Z.eqb_refl.
Qed.

Lemma list_gt_trans (a b c : list Z) :
  list_gt a b = true -> list_gt b c = true -> list_gt a c = true.
Proof.
  revert b c; induction a as [|x a IH]; intros [|y b] [|z c]; simpl;
    try discriminate; try reflexivity.
  destruct (Z.eqb_spec x y) as [->|Hxy], (Z.eqb_spec y z) as [->|Hyz].
  - apply IH.
  - auto.
  - rewrite (proj2 (Z.eqb_neq x z) Hxy). auto.
  - intros Hgt1 Hgt2. apply Z.gtb_lt in Hgt1, Hgt2.
    destruct (Z.eqb_spec x z) as [->|_]; [lia|]. apply Z.gtb_lt. lia.
Qed.

Lemma list_gt_trichotomy (a b : list Z) :
  list_gt a b = true \/ a = b \/ list_gt b a = true.
Proof.
  revert b; induction a as [|x a IH]; intros [|y b]; simpl; auto.
  destruct (Z.eqb_spec x y) as [->|Hxy].
  - rewrite Z.eqb_refl. destruct (IH b) as [Hgt|[->|Hlt]]; auto.
  - rewrite (proj2 (Z.eqb_neq y x)) by congruence.
    destruct (Z.gtb_spec x y); [auto|].
    right. right. apply Z.gtb_lt. lia.
Qed.

Lemma eval_gt_irrefl (a : EvaluatedHand) : eval_gt a a = false.
Proof. unfold eval_gt. rewrite Z.eqb_refl. apply list_gt_irrefl. Qed.

Lemma eval_gt_trans (a b c : EvaluatedHand) :
  eval_gt a b = true -> eval_gt b c = true -> eval_gt a c = true.
Proof.
  unfold eval_gt.
  destruct (Z.eqb_spec (hr_value a.1) (hr_value b.1)) as [Eab|Nab],
    (Z.eqb_spec (hr_value b.1) (hr_value c.1)) as [Ebc|Nbc].
  - rewrite (proj2 (Z.eqb_eq _ _)) by congruence. apply list_gt_trans.
  - rewrite Eab, (proj2 (Z.eqb_neq _ _) Nbc). auto.
  - rewrite <- Ebc, (proj2 (Z.eqb_neq _ _) Nab). auto.
  - intros Hgt1 Hgt2. apply Z.gtb_lt in Hgt1, Hgt2.
    destruct (Z.eqb_spec (hr_value a.1) (hr_value c.1)) as [E|_]; [lia|].
    apply Z.gtb_lt. lia.
Qed.

Lemma eval_gt_trichotomy (a b : EvaluatedHand) :
  eval_gt a b = true \/ a = b \/ eval_gt b a = true.
Proof.
  destruct a as [c1 t1], b as [c2 t2]. unfold eval_gt. simpl.
  destruct (Z.eqb_spec (hr_value c1) (hr_value c2)) as [E|N].
  - rewrite (proj2 (Z.eqb_eq _ _)) by congruence.
    apply hr_value_inj in E. subst c2.
    destruct (list_gt_trichotomy t1 t2) as [Hgt|[->|Hlt]]; auto.
  - rewrite (proj2 (Z.eqb_neq (hr_value c2) (hr_value c1))) by congruence.
    destruct (Z.gtb_spec (hr_value c1) (hr_value c2)); [auto|].
    right. right. apply Z.gtb_lt. lia.
Qed.

(** "Not beaten by" composes. *)
Lemma eval_gt_false_trans (a b c : EvaluatedHand) :
  eval_gt a b = false -> eval_gt b c = false -> eval_gt a c = false.
Proof.
  intros Hab Hbc. destruct (eval_gt a c) eqn:Hac; [|reflexivity].
  destruct (eval_gt_trichotomy c b) as [Hcb|[->|Hbc']]; try congruence.
  rewrite (eval_gt_trans a c b Hac Hcb) in Hab. discriminate.
Qed.

(** Two maxima of one set are equal. *)
Lemma eval_gt_max_unique (a b : EvaluatedHand) :
  eval_gt a b = false -> eval_gt b a = false -> a = b.
Proof.
  intros Hab Hba.
  destruct (eval_gt_trichotomy a b) as [H1|[H1|H1]]; congruence.
Qed.

(** ** [evaluate_hand] returns the best five-card combination *)

Lemma combinations_sublist {A} (l : list A) (k : nat) (c : list A) :
  In c (combinations l k) <-> c `sublist_of` l /\ length c = k.
Proof.
  revert k c; induction l as [|x l IH]; intros [|k] c; simpl.
  - split; [intros [<-|[]]; split; [constructor|reflexivity]|].
    intros [_ Hlen]. destruct c; [auto|discriminate].
  - split; [intros []|]. intros [Hsub Hlen].
    apply sublist_nil_r in Hsub. subst c. discriminate.
  - split; [intros [<-|[]]; split; [apply sublist_nil_l|reflexivity]|].
    intros [_ Hlen]. destruct c; [auto|discriminate].
  - rewrite in_app_iff, in_map_iff. split.
    + intros [(c' & <- & Hc')|Hc].
      * apply IH in Hc' as [Hsub Hlen]. split; [now constructor|simpl; lia].
      * apply IH in Hc as [Hsub Hlen]. split; [now constructor|assumption].
    + intros [Hsub Hlen]. inversion Hsub as [|y c' l' Hsub'|y c' l' Hsub']; subst.
      * left. exists c'. split; [reflexivity|]. apply IH. simpl in Hlen.
        split; [assumption|lia].
      * right. apply IH. split; assumption.
Qed.

Lemma evaluate_hand_loop_max (combos : list (list Card)) (b : EvaluatedHand) :
  exists e, fold_left best_step combos (Some b) = Some e
            /\ eval_gt b e = false
            /\ forall c, In c combos ->
                 eval_gt (_evaluate_five_cards c) e = false.
Proof.
  revert b; induction combos as [|c combos IH]; intros b; simpl.
  - exists b. split; [reflexivity|]. split; [apply eval_gt_irrefl|tauto].
  - destruct (eval_gt (_evaluate_five_cards c) b) eqn:Hcb.
    + destruct (IH (_evaluate_five_cards c)) as (e & -> & Hbe & Hall).
      exists e. split; [reflexivity|]. split.
      * apply (eval_gt_false_trans b (_evaluate_five_cards c) e); [|exact Hbe].
        destruct (eval_gt b _) eqn:Hbc; [|reflexivity].
        pose proof (eval_gt_trans _ _ _ Hbc Hcb) as Hbb.
        rewrite eval_gt_irrefl in Hbb. discriminate.
      * intros c' [<-|Hc']; auto.
    + destruct (IH b) as (e & -> & Hbe & Hall).
      exists e. split; [reflexivity|]. split; [exact Hbe|].
      intros c' [<-|Hc']; [|auto].
      exact (eval_gt_false_trans _ _ _ Hcb Hbe).
Qed.

Lemma evaluate_hand_max (cards : list Card) :
  (5 <= length cards)%nat ->
  exists c, In c (combinations cards 5)
            /\ evaluate_hand cards = _evaluate_five_cards c
            /\ forall c', In c' (combinations cards 5) ->
                 eval_gt (_evaluate_five_cards c') (evaluate_hand cards)
                 = false.
Proof.
  intros Hlen. unfold evaluate_hand.
  destruct (Nat.ltb_spec (length cards) 5) as [Hlt|_]; [lia|].
  pose proof (combinations_nonempty cards 5 Hlen) as Hne.
  destruct (combinations cards 5) as [|c0 combos] eqn:E; [contradiction|].
  simpl.
  destruct (evaluate_hand_loop combos (_evaluate_five_cards c0))
    as (e & He & Hfrom).
  destruct (evaluate_hand_loop_max combos (_evaluate_five_cards c0))
    as (e' & He' & Hc0 & Hall).
  rewrite He in He'. injection He' as <-. rewrite He.
  assert (Hin : exists c, In c (c0 :: combos) /\ e = _evaluate_five_cards c).
  { destruct Hfrom as [->|(c & Hc & ->)]; [exists c0|exists c]; simpl; auto. }
  destruct Hin as (c & Hc & ->). exists c. split; [exact Hc|].
  split; [reflexivity|]. intros c' [<-|Hc']; auto.
Qed.

(** X1.  On five cards or more, [evaluate_hand] returns the evaluation of
    one of the five-card sub-hands of its input, and no five-card sub-hand
    evaluates strictly higher: none beats it in the tuple order, and
    [compare_hands] never prefers one to it. *)
Theorem evaluate_hand_best (cards : list Card) :
  (5 <= length cards)%nat ->
  (exists c, c `sublist_of` cards /\ length c = 5%nat
             /\ evaluate_hand cards = _evaluate_five_cards c)
  /\ (forall c, c `sublist_of` cards -> length c = 5%nat ->
        eval_gt (_evaluate_five_cards c) (evaluate_hand cards) = false
        /\ 0 <= compare_hands (evaluate_hand cards) (_evaluate_five_cards c)).
Proof.
  intros Hlen. destruct (evaluate_hand_max cards Hlen) as (c & Hc & He & Hall).
  split.
  - exists c. apply combinations_sublist in Hc as [Hsub Hc5]. auto.
  - intros c' Hsub Hc5.
    assert (Hgt : eval_gt (_evaluate_five_cards c') (evaluate_hand cards)
                  = false)
      by (apply Hall, combinations_sublist; auto).
    split; [exact Hgt|].
    rewrite compare_hands_antisym.
    destruct (compare_hands_range (_evaluate_five_cards c')
                (evaluate_hand cards)) as [H1|[H0|Hm]]; [|lia..].
    apply eval_gt_compare_hands in H1; [congruence| |].
    + now apply evaluate_five_well_formed.
    + now apply evaluate_hand_well_formed.
Qed.

Lemma evaluate_hand_best_witness :
  eval_gt
    (_evaluate_five_cards
       [mkCard RA H; mkCard RA D; mkCard R9 C; mkCard RJ S; mkCard RK H])
    (evaluate_hand
       [mkCard RA H; mkCard RA D; mkCard R9 C; mkCard RJ S; mkCard RK H;
        mkCard RA C]) = false.
Proof.
  apply (evaluate_hand_best
           [mkCard RA H; mkCard RA D; mkCard R9 C; mkCard RJ S; mkCard RK H;
            mkCard RA C]).
  - simpl. lia.
  - repeat constructor.
  - reflexivity.
Defined.

(** ** Reordering the cards *)

Lemma insert_desc_Permutation {A} (geb : A -> A -> bool) (x : A)
    (l : list A) :
  insert_desc geb x l ≡ₚ x :: l.
Proof.
  induction l as [|y l IH]; simpl; [reflexivity|].
  destruct (geb x y); [reflexivity|]. rewrite IH. apply Permutation_swap.
Qed.

Lemma sorted_desc_Permutation {A} (geb : A -> A -> bool) (l : list A) :
  sorted_desc geb l ≡ₚ l.
Proof.
  induction l as [|x l IH]; simpl; [reflexivity|].
  now rewrite insert_desc_Permutation, IH.
Qed.

Lemma insert_desc_Sorted (x : Z) (l : list Z) :
  Sorted Z.ge l -> Sorted Z.ge (insert_desc Z.geb x l).
Proof.
  induction l as [|y l IH]; simpl; intros Hs.
  - repeat constructor.
  - destruct (Z.geb_spec x y) as [Hge|Hlt].
    + constructor; [assumption|]. constructor. lia.
    + inversion Hs as [|? ? Hs' Hhd]; subst.
      constructor; [now apply IH|].
      destruct l as [|z l]; simpl.
      * constructor. lia.
      * destruct (Z.geb_spec x z); constructor; [lia|].
        now inversion Hhd.
Qed.

Lemma sorted_rev_Sorted (l : list Z) : Sorted Z.ge (sorted_rev l).
Proof.
  unfold sorted_rev. induction l as [|x l IH]; simpl; [constructor|].
  now apply insert_desc_Sorted.
Qed.

#[local] Instance Zge_trans : Transitive Z.ge.
Proof. intros x y z. lia. Qed.
#[local] Instance Zge_antisym : AntiSymm (=) Z.ge.
Proof. intros x y. lia. Qed.

(** [sorted(..., reverse=True)] does not depend on the order of its
    input. *)
Lemma sorted_rev_perm (l l' : list Z) :
  l ≡ₚ l' -> sorted_rev l = sorted_rev l'.
Proof.
  intros Hp. apply (Sorted_unique Z.ge); try apply sorted_rev_Sorted.
  unfold sorted_rev. now rewrite !sorted_desc_Permutation.
Qed.

Lemma py_set_length_perm {A} `{EqDecision A} (l l' : list A) :
  l ≡ₚ l' -> length (py_set l) = length (py_set l').
Proof.
  intros Hp. apply Permutation_length. unfold py_set.
  apply NoDup_Permutation; try apply NoDup_remove_dups.
  intros x. rewrite !elem_of_remove_dups. now rewrite Hp.
Qed.

(** X2.  [_evaluate_five_cards] does not depend on the order of the
    cards. *)
Theorem evaluate_five_cards_perm (cards cards' : list Card) :
  cards ≡ₚ cards' ->
  _evaluate_five_cards cards = _evaluate_five_cards cards'.
Proof.
  intros Hp. unfold _evaluate_five_cards.
  rewrite (sorted_rev_perm (map value cards) (map value cards'))
    by (now apply Permutation_map).
  rewrite (py_set_length_perm (map suit cards) (map suit cards'))
    by (now apply Permutation_map).
  reflexivity.
Qed.

Lemma evaluate_five_cards_perm_witness :
  _evaluate_five_cards
    [mkCard RA H; mkCard R2 D; mkCard R3 H; mkCard R4 H; mkCard R5 H]
  = _evaluate_five_cards
      [mkCard R2 D; mkCard RA H; mkCard R3 H; mkCard R4 H; mkCard R5 H].
Proof.
  apply evaluate_five_cards_perm. apply Permutation_swap.
Defined.

(** X3.  [evaluate_hand] does not depend on the order of the cards. *)
Theorem evaluate_hand_perm (cards cards' : list Card) :
  cards ≡ₚ cards' -> evaluate_hand cards = evaluate_hand cards'.
Proof.
  intros Hp.
  assert (Hlen : length cards = length cards') by now apply Permutation_length.
  destruct (Nat.ltb_spec (length cards) 5) as [Hlt|Hge].
  - unfold evaluate_hand.
    rewrite (proj2 (Nat.ltb_lt _ _) Hlt).
    rewrite Hlen in Hlt. now rewrite (proj2 (Nat.ltb_lt _ _) Hlt).
  - assert (Hge' : (5 <= length cards')%nat) by lia.
    destruct (evaluate_hand_max cards Hge) as (c & Hc & He & Hall).
    destruct (evaluate_hand_max cards' Hge') as (c' & Hc' & He' & Hall').
    assert (Hmove : forall l1 l2 d, l1 ≡ₚ l2 -> In d (combinations l1 5) ->
              exists d', In d' (combinations l2 5)
                         /\ _evaluate_five_cards d = _evaluate_five_cards d').
    { intros l1 l2 d Hl Hd. apply combinations_sublist in Hd as [Hsub Hd5].
      destruct (sublist_Permutation d l1 l2 Hsub Hl) as (d' & Hdd' & Hsub').
      exists d'. split.
      - apply combinations_sublist. split; [exact Hsub'|].
        now rewrite <- (Permutation_length Hdd').
      - now apply evaluate_five_cards_perm. }
    apply eval_gt_max_unique.
    + destruct (Hmove cards cards' c Hp Hc) as (d & Hd & Hed).
      rewrite He at 1. rewrite Hed. now apply Hall'.
    + destruct (Hmove cards' cards c' (symmetry Hp) Hc') as (d & Hd & Hed).
      rewrite He' at 1. rewrite Hed. now apply Hall.
Qed.

Lemma evaluate_hand_perm_witness :
  evaluate_hand
    [mkCard RA H; mkCard RK H; mkCard RQ H; mkCard RJ H; mkCard R10 H;
     mkCard R2 D; mkCard R2 S]
  = evaluate_hand
      [mkCard RK H; mkCard RA H; mkCard RQ H; mkCard RJ H; mkCard R10 H;
       mkCard R2 D; mkCard R2 S].
Proof.
  apply evaluate_hand_perm. apply Permutation_swap.
Defined.

(** X4.  More cards never make a worse hand: if every card of [cards]
    (at least five) is also in [cards'], counted with multiplicity, then
    the evaluation of [cards] does not beat that of [cards'], in the tuple
    order and for [compare_hands]. *)
Theorem evaluate_hand_monotone (cards cards' : list Card) :
  (5 <= length cards)%nat -> cards ⊆+ cards' ->
  eval_gt (evaluate_hand cards) (evaluate_hand cards') = false
  /\ 0 <= compare_hands (evaluate_hand cards') (evaluate_hand cards).
Proof.
  intros Hlen Hsub.
  apply submseteq_sublist_r in Hsub as (l2 & Hp & Hsub).
  rewrite (evaluate_hand_perm cards l2 Hp).
  assert (Hlen2 : (5 <= length l2)%nat)
    by now rewrite <- (Permutation_length Hp).
  assert (Hlen' : (5 <= length cards')%nat)
    by (apply sublist_length in Hsub; lia).
  destruct (evaluate_hand_best l2 Hlen2) as [(c & Hc & Hc5 & ->) _].
  destruct (evaluate_hand_best cards' Hlen') as [_ Hall].
  apply Hall; [|exact Hc5]. now transitivity l2.
Qed.

Lemma evaluate_hand_monotone_witness :
  0 <= compare_hands
         (evaluate_hand
            [mkCard RA C; mkCard RA H; mkCard RA D; mkCard R9 C; mkCard RJ S;
             mkCard RK H])
         (evaluate_hand
            [mkCard RA H; mkCard RA D; mkCard R9 C; mkCard RJ S; mkCard RK H]).
Proof.
  apply evaluate_hand_monotone.
  - simpl. lia.
  - apply sublist_submseteq. repeat constructor.
Defined.

(** ** More on [count_outs] *)

(** X5.  With five known cards or more, an unseen card that [count_outs]
    does not count leaves the evaluation exactly as it was: no card makes
    the hand worse. *)
Theorem count_outs_uncounted_unchanged (hole_cards board : list Card)
    (c : Card) :
  (5 <= length (hole_cards ++ board))%nat ->
  improves (evaluate_hand (hole_cards ++ board))
    (evaluate_hand (hole_cards ++ board ++ [c])) = false ->
  evaluate_hand (hole_cards ++ board ++ [c])
  = evaluate_hand (hole_cards ++ board).
Proof.
  intros Hlen Hno. rewrite improves_eval_gt in Hno.
  apply eval_gt_max_unique; [exact Hno|].
  apply evaluate_hand_monotone; [exact Hlen|].
  rewrite app_assoc. apply submseteq_inserts_r. reflexivity.
Qed.

Lemma count_outs_uncounted_unchanged_witness :
  evaluate_hand ([mkCard RA H; mkCard RA D]
                 ++ [mkCard RA C; mkCard RA S; mkCard RK H] ++ [mkCard R2 C])
  = evaluate_hand ([mkCard RA H; mkCard RA D]
                   ++ [mkCard RA C; mkCard RA S; mkCard RK H]).
Proof.
  apply count_outs_uncounted_unchanged.
  - simpl. lia.
  - vm_compute. reflexivity.
Defined.

Lemma categorize_labelled (cur new : HandRank) (c : Card) (o : Outs) :
  total (categorize cur new c o) = total o
  /\ (length (labelled (categorize cur new c o))
      <= Datatypes.S (length (labelled o)))%nat.
Proof.
  destruct o as [t l1 l2 l3 l4 l5 l6 l7 l8].
  destruct cur, new; cbv -[length app Z.add];
    rewrite ?length_app; cbn [length]; split; (reflexivity || lia).
Qed.

Lemma outs_step_labelled (hole_cards board : list Card)
    (current_eval : EvaluatedHand) (o : Outs) (c : Card) :
  0 <= total o -> Z.of_nat (length (labelled o)) <= total o ->
  let o' := outs_step hole_cards board current_eval o c in
  0 <= total o' /\ Z.of_nat (length (labelled o')) <= total o'
  /\ total o' <= total o + 1.
Proof.
  intros H0 Hle. cbv zeta. unfold outs_step.
  destruct (improves _ _); [|lia].
  destruct (categorize_labelled current_eval.1
              (evaluate_hand (hole_cards ++ board ++ [c])).1 c (incr_total o))
    as [-> Hlen].
  destruct o as [t l1 l2 l3 l4 l5 l6 l7 l8]. unfold labelled in *. cbn in *.
  lia.
Qed.

Lemma outs_loop_labelled (hole_cards board : list Card)
    (current_eval : EvaluatedHand) (l : list Card) (o : Outs) :
  0 <= total o -> Z.of_nat (length (labelled o)) <= total o ->
  let o' := fold_left (outs_step hole_cards board current_eval) l o in
  Z.of_nat (length (labelled o')) <= total o'
  /\ total o' <= total o + Z.of_nat (length l).
Proof.
  revert o; induction l as [|c l IH]; intros o H0 Hle; cbn [fold_left length].
  - cbv zeta. lia.
  - destruct (outs_step_labelled hole_cards board current_eval o c H0 Hle)
      as (H0' & Hle' & Hstep).
    destruct (IH _ H0' Hle') as [Hlab Htot]. cbv zeta in *. lia.
Qed.

Lemma length_remaining_deck (hole_cards board : list Card) :
  (length (remaining_deck hole_cards board)
   + length (remove_dups (hole_cards ++ board)) = 52)%nat.
Proof.
  unfold remaining_deck.
  assert (Hsplit : forall (f : Card -> bool) (l : list Card),
            (length (List.filter (fun c => negb (f c)) l)
             + length (List.filter f l) = length l)%nat).
  { intros f l. induction l as [|x l IH]; simpl; [reflexivity|].
    destruct (f x); simpl; lia. }
  change 52%nat with (length create_deck).
  rewrite <- (Hsplit (fun c => bool_decide (c ∈ hole_cards ++ board))
                create_deck).
  f_equal. symmetry. apply Permutation_length, NoDup_Permutation.
  - apply NoDup_List_filter, create_deck_NoDup.
  - apply NoDup_remove_dups.
  - intros c. rewrite elem_of_remove_dups, list_elem_of_In, filter_In,
      bool_decide_eq_true, <- list_elem_of_In.
    pose proof (create_deck_complete c). tauto.
Qed.

(** X6.  The report of [count_outs] is consistent: the seven category
    lists together hold at most [total] cards, and [total] is at most the
    number of unseen cards, 52 minus the number of distinct known
    cards. *)
Theorem count_outs_bounds (hole_cards board : list Card) :
  let o := count_outs hole_cards board in
  0 <= Z.of_nat (length (labelled o)) <= total o
  /\ total o <= 52 - Z.of_nat (length (remove_dups (hole_cards ++ board))).
Proof.
  cbv zeta. unfold count_outs.
  destruct (outs_loop_labelled hole_cards board
              (evaluate_hand (hole_cards ++ board))
              (unknown_cards hole_cards board) outs_init)
    as [Hlab Htot]; [simpl; lia..|].
  cbv zeta in *. simpl in Htot.
  pose proof (length_remaining_deck hole_cards board) as Hlen.
  unfold remaining_deck in Hlen. unfold unknown_cards in *. lia.
Qed.

Lemma evaluate_five_below_royal (cards : list Card) :
  eval_gt (_evaluate_five_cards cards) (ROYAL_FLUSH, [12]) = false.
Proof.
  unfold _evaluate_five_cards.
  destruct (if (length _ =? 5)%nat then _ else _) as [is_straight high].
  destruct (is_straight && _).
  { destruct (Z.eqb_spec high 12) as [->|_]; reflexivity. }
  repeat match goal with
  | |- context [if ?b then _ else _] => destruct b; try reflexivity
  end.
Qed.

Lemma evaluate_five_royal (cards : list Card) :
  (_evaluate_five_cards cards).1 = ROYAL_FLUSH ->
  _evaluate_five_cards cards = (ROYAL_FLUSH, [12]).
Proof.
  unfold _evaluate_five_cards.
  destruct (if (length _ =? 5)%nat then _ else _) as [is_straight high].
  destruct (is_straight && _).
  { destruct (Z.eqb_spec high 12) as [->|_]; [reflexivity|discriminate]. }
  repeat match goal with
  | |- context [if ?b then _ else _] => destruct b; try discriminate
  end.
Qed.

Lemma evaluate_hand_below_royal (cards : list Card) :
  eval_gt (evaluate_hand cards) (ROYAL_FLUSH, [12]) = false.
Proof.
  unfold evaluate_hand. destruct (length cards <? 5)%nat; [reflexivity|].
  destruct (fold_left best_step (combinations cards 5) None) as [e|] eqn:E;
    [|reflexivity].
  destruct (combinations cards 5) as [|c0 combos]; [discriminate|].
  simpl in E.
  destruct (evaluate_hand_loop combos (_evaluate_five_cards c0))
    as (e' & He' & [->|(c & _ & ->)]); rewrite He' in E;
    injection E as <-; apply evaluate_five_below_royal.
Qed.

(** X7.  When the known cards already make a royal flush, [count_outs]
    reports no out at all: the total is 0 and every list is empty. *)
Theorem count_outs_royal_flush (hole_cards board : list Card) :
  (evaluate_hand (hole_cards ++ board)).1 = ROYAL_FLUSH ->
  count_outs hole_cards board = outs_init.
Proof.
  intros Hroyal.
  assert (Hcur : evaluate_hand (hole_cards ++ board) = (ROYAL_FLUSH, [12])).
  { revert Hroyal. unfold evaluate_hand.
    destruct (Nat.ltb_spec (length (hole_cards ++ board)) 5) as [_|Hge];
      [discriminate|].
    destruct (evaluate_hand_loop_some _ Hge) as (c & _ & ->).
    apply evaluate_five_royal. }
  unfold count_outs. rewrite Hcur.
  generalize outs_init as o.
  induction (unknown_cards hole_cards board) as [|c l IH]; intros o; simpl;
    [reflexivity|].
  unfold outs_step at 2. rewrite improves_eval_gt, evaluate_hand_below_royal.
  apply IH.
Qed.

Lemma count_outs_royal_flush_witness :
  count_outs [mkCard RA H; mkCard RK H]
    [mkCard RQ H; mkCard RJ H; mkCard R10 H]
  = outs_init.
Proof.
  apply count_outs_royal_flush. vm_compute. reflexivity.
Defined.

(** ** More on dealing *)

Lemma length_remove_dups_NoDup {A} `{EqDecision A} (l : list A) :
  NoDup l -> length (remove_dups l) = length l.
Proof.
  intros Hnd. apply Permutation_length, NoDup_Permutation;
    [apply NoDup_remove_dups|exact Hnd|].
  intros x. apply elem_of_remove_dups.
Qed.

(** Without ranges, the loop over the opponents succeeds exactly when the
    deck holds two more cards for each of them. *)
Lemma deal_opponents_random_some (choice : nat -> nat -> nat)
    (deck_after_board : list Card) (opps : list nat) (st : DealState) :
  is_Some (deal_opponents None choice deck_after_board st opps)
  <-> (opps = []
       \/ deal_idx st + 2 * length opps <= length deck_after_board)%nat.
Proof.
  revert st; induction opps as [|i opps IH]; intros st; simpl.
  - split; [auto|]. intros _. eauto.
  - unfold deal_opponent; simpl.
    destruct (deck_after_board !! deal_idx st) as [c1|] eqn:E1.
    + destruct (deck_after_board !! (deal_idx st + 1)%nat) as [c2|] eqn:E2.
      * rewrite IH. simpl. apply lookup_lt_Some in E2.
        split.
        -- intros [->|Hle]; right; simpl; lia.
        -- intros [Hnil|Hle]; [discriminate|].
           destruct opps; [auto|right; simpl in *; lia].
      * apply lookup_ge_None in E2.
        split; [intros [x Hx]; discriminate|].
        intros [Hnil|Hle]; [discriminate|lia].
    + apply lookup_ge_None in E1.
      split; [intros [x Hx]; discriminate|].
      intros [Hnil|Hle]; [discriminate|lia].
Qed.

(** X8.  Without ranges, and on a board of at most five cards, a trial
    that deals from a shuffle of the remaining deck succeeds exactly when
    the deck is large enough: with no opponent, or when twice the number
    of opponents is at most 47 minus the number of hole cards; otherwise
    [deck_after_board[idx]] raises [IndexError]. *)
Theorem deal_trial_random_succeeds (hole_cards board : list Card)
    (num_opponents : nat) (shuffled : list Card)
    (choice : nat -> nat -> nat) :
  NoDup (hole_cards ++ board) -> (length board <= 5)%nat ->
  shuffled ≡ₚ remaining_deck hole_cards board ->
  is_Some (deal_trial board num_opponents None shuffled choice)
  <-> (num_opponents = 0
       \/ 2 * num_opponents <= 47 - length hole_cards)%nat.
Proof.
  intros Hknown Hboard Hshuf. unfold deal_trial.
  set (n := 5 - Z.of_nat (length board)).
  assert (Hlen : (length shuffled + length hole_cards + length board = 52)%nat).
  { rewrite (Permutation_length Hshuf).
    pose proof (length_remaining_deck hole_cards board) as Hrem.
    rewrite (length_remove_dups_NoDup _ Hknown), length_app in Hrem. lia. }
  assert (Hafter : length (slice_from shuffled n)
                   = (length shuffled - (5 - length board))%nat).
  { unfold slice_from. destruct (Z.ltb_spec n 0) as [Hneg|_]; [lia|].
    rewrite length_drop. unfold n. lia. }
  pose proof (deal_opponents_random_some choice (slice_from shuffled n)
                (seq 0 num_opponents) (mkDeal [] 0)) as Hsome.
  rewrite length_seq in Hsome. simpl in Hsome. rewrite Hafter in Hsome.
  destruct (deal_opponents None choice (slice_from shuffled n) _ _) as [st|].
  - split; [intros _|eauto].
    destruct (proj1 Hsome) as [Hnil|Hle]; [eauto| |right; lia].
    left. destruct num_opponents; [reflexivity|discriminate].
  - split; [intros [x Hx]; discriminate|].
    intros Hok. exfalso.
    assert (Hst : is_Some (@None DealState)).
    { apply (proj2 Hsome).
      destruct Hok as [->|Hle]; [left; reflexivity|right; lia]. }
    destruct Hst as [x Hx]. discriminate.
Qed.

Lemma deal_trial_random_succeeds_witness :
  is_Some (deal_trial [] 22 None
             (remaining_deck [mkCard RA H; mkCard RK H] [])
             (fun _ _ => 0%nat))
  /\ ~ is_Some (deal_trial [] 23 None
                  (remaining_deck [mkCard RA H; mkCard RK H] [])
                  (fun _ _ => 0%nat)).
Proof.
  assert (Hknown : NoDup ([mkCard RA H; mkCard RK H] ++ []))
    by (apply (bool_decide_eq_true_1 (NoDup _)); vm_compute; reflexivity).
  split.
  - apply (deal_trial_random_succeeds [mkCard RA H; mkCard RK H] [] 22);
      [exact Hknown|simpl; lia|reflexivity|right; simpl; lia].
  - intros Hsome.
    apply (deal_trial_random_succeeds [mkCard RA H; mkCard RK H] [] 23)
      in Hsome; [|exact Hknown|simpl; lia|reflexivity].
    simpl in Hsome. lia.
Defined.

(** X9.  [get_remaining_deck] returns the deck cards that are in neither
    list, each once, in deck order: with the distinct known cards they
    make up the 52 cards. *)
Theorem get_remaining_deck_spec (hole_cards board : list Card) :
  (forall c, c ∈ get_remaining_deck hole_cards board
             <-> c ∉ hole_cards ++ board)
  /\ NoDup (get_remaining_deck hole_cards board)
  /\ get_remaining_deck hole_cards board `sublist_of` create_deck
  /\ (length (get_remaining_deck hole_cards board)
      + length (remove_dups (hole_cards ++ board)) = 52)%nat.
Proof.
  repeat apply conj.
  - intros c. apply elem_of_unknown_cards.
  - apply unknown_cards_NoDup.
  - unfold get_remaining_deck.
    induction create_deck as [|x l IH]; simpl; [constructor|].
    destruct (negb _); now constructor.
  - apply length_remaining_deck.
Qed.

(** ** Card strings *)

Lemma split_on_nonempty (sep : Ascii.ascii) (s : string) :
  split_on sep s <> [].
Proof.
  destruct s as [|c s]; simpl; [discriminate|].
  destruct (Ascii.eqb c sep); [discriminate|].
  destruct (split_on sep s); discriminate.
Qed.

(** [sep.join(s.split(sep)) == s] *)
Lemma join_split_on (sep : Ascii.ascii) (s : string) :
  join_with (String sep "") (split_on sep s) = s.
Proof.
  induction s as [|c s IH]; simpl; [reflexivity|].
  destruct (Ascii.eqb_spec c sep) as [->|Hne].
  - pose proof (split_on_nonempty sep s) as Hne.
    destruct (split_on sep s) as [|p ps] eqn:E; [contradiction|].
    cbn [join_with]. cbn [join_with] in IH.
    destruct ps; simpl in *; now rewrite IH.
  - pose proof (split_on_nonempty sep s) as Hne'.
    destruct (split_on sep s) as [|p ps] eqn:E; [contradiction|].
    cbn [join_with] in *. destruct ps; simpl in *; now rewrite <- IH.
Qed.

Lemma rank_of_string_rank_str (s : string) (r : Rank) :
  rank_of_string s = Some r -> rank_str r = s.
Proof.
  unfold rank_of_string. intros Hfind.
  apply find_some in Hfind as [_ Heq]. now apply String.eqb_eq in Heq.
Qed.

(** X10.  The text of a card parses back to that card:
    [Card.from_string(repr(c))] has the rank and the suit of [c], for each
    of the 52 cards, so two cards with one text are the same card; and
    [cards_from_strings] parses the texts of a list of cards back to that
    list. *)
Theorem card_repr_round_trip :
  (forall c : Card, from_string (card_repr c) = inr (parsed c))
  /\ (forall c1 c2 : Card, card_repr c1 = card_repr c2 -> c1 = c2)
  /\ (forall cards : list Card,
        cards_from_strings (map card_repr cards) = inr (map parsed cards)).
Proof.
  assert (Hrt : forall c : Card, from_string (card_repr c) = inr (parsed c))
    by (intros [[] []]; reflexivity).
  split; [exact Hrt|]. split.
  - intros c1 c2 Heq.
    assert (Hp : parsed c1 = parsed c2)
      by (pose proof (Hrt c1) as H1; rewrite Heq, Hrt in H1; congruence).
    destruct c1 as [r1 s1], c2 as [r2 s2]. unfold parsed in Hp. simpl in Hp.
    injection Hp as -> Hs. f_equal. destruct s1, s2; (reflexivity || discriminate).
  - induction cards as [|c cards IH]; simpl; [reflexivity|].
    now rewrite Hrt, IH.
Qed.

Lemma string_append_nil_r (s : string) : s +:+ "" = s.
Proof.
  induction s as [|c s IH]; [reflexivity|].
  change (String c (s +:+ "") = String c s). now f_equal.
Qed.

Lemma py_in_char_cons (sep c : Ascii.ascii) (t : string) :
  py_in (String sep "") (String c t)
  = Ascii.eqb c sep || py_in (String sep "") t.
Proof.
  simpl. destruct (ascii_dec sep c) as [->|Hne].
  - rewrite Ascii.eqb_refl. now destruct t.
  - destruct (Ascii.eqb_spec c sep) as [->|_]; [contradiction|reflexivity].
Qed.

(** The parts of [s.split(sep)] hold no separator. *)
Lemma split_on_parts (sep : Ascii.ascii) (s p : string) :
  In p (split_on sep s) -> py_in (String sep "") p = false.
Proof.
  revert p; induction s as [|c s IH]; intros p.
  - intros [<-|[]]. reflexivity.
  - cbn [split_on]. destruct (Ascii.eqb_spec c sep) as [->|Hne].
    + intros [<-|Hin]; [reflexivity|now apply IH].
    + pose proof (split_on_nonempty sep s) as Hnil.
      destruct (split_on sep s) as [|q qs]; [contradiction|].
      intros [<-|Hin].
      * rewrite py_in_char_cons, (IH q) by now left.
        destruct (Ascii.eqb_spec c sep); [contradiction|reflexivity].
      * apply IH. now right.
Qed.

Lemma split_on_no_sep (sep : Ascii.ascii) (s : string) :
  py_in (String sep "") s = false -> split_on sep s = [s].
Proof.
  induction s as [|c s IH]; [reflexivity|].
  rewrite py_in_char_cons. intros Hin.
  apply orb_false_iff in Hin as [Hc Hin].
  cbn [split_on]. now rewrite Hc, (IH Hin).
Qed.

(** X11.  What [Card.from_string] accepts: a text without ["-"] raises
    [IndexError]; a text that is accepted starts with the rank string of
    the parsed rank, ["-"] and the parsed suit, the suit holds no ["-"],
    and anything left starts with another ["-"] and is ignored. *)
Theorem from_string_accepts (s : string) :
  (py_in "-" s = false -> from_string s = inl IndexError)
  /\ (forall p : ParsedCard,
        from_string s = inr p ->
        py_in "-" (p_suit p) = false
        /\ exists rest,
             s = rank_str (p_rank p) +:+ "-" +:+ p_suit p +:+ rest
             /\ (rest = "" \/ exists rest', rest = "-" +:+ rest')).
Proof.
  split.
  - intros Hin. unfold from_string.
    now rewrite (split_on_no_sep "-" s Hin).
  - intros p. unfold from_string.
    pose proof (split_on_parts "-" s) as Hparts.
    pose proof (join_split_on "-" s) as Hjoin.
    destruct (split_on "-" s) as [|p0 [|p1 ps]]; try discriminate.
    destruct (rank_of_string p0) as [r|] eqn:Er; [|discriminate].
    intros [= <-]. cbn [p_rank p_suit]. split.
    + apply Hparts. right. now left.
    + apply rank_of_string_rank_str in Er. subst p0.
      destruct ps as [|p2 ps].
      * exists "". split; [|now left].
        rewrite <- Hjoin. cbn [join_with].
        now rewrite string_append_nil_r.
      * exists ("-" +:+ join_with "-" (p2 :: ps)). split; [|eauto].
        rewrite <- Hjoin. reflexivity.
Qed.

Lemma from_string_accepts_witness :
  from_string "AH" = inl IndexError
  /\ exists rest,
       "10-S-x" = rank_str R10 +:+ "-" +:+ "S" +:+ rest
       /\ (rest = "" \/ exists rest', rest = "-" +:+ rest').
Proof.
  split.
  - apply (from_string_accepts "AH"). reflexivity.
  - apply (proj2 (from_string_accepts "10-S-x") (mkParsed R10 "S")).
    reflexivity.
Defined.

(** ** The rule of 4 and 2 *)

(** X12.  The quick estimate is never above 100 and, for a count of outs
    that is not negative, never below 0; the flop estimate is at least the
    turn estimate and reaches 100 from 25 outs on; on any street other
    than ["flop"] and ["turn"] the estimate and the multiplier are 0. *)
Theorem rule_of_4_and_2_bounds (outs : Z) (street : string) :
  r_equity (calculate_equity_rule_of_4_and_2 outs street) <= 100
  /\ (0 <= outs ->
      0 <= r_equity (calculate_equity_rule_of_4_and_2 outs street)
      /\ r_equity (calculate_equity_rule_of_4_and_2 outs "turn")
         <= r_equity (calculate_equity_rule_of_4_and_2 outs "flop"))
  /\ (r_equity (calculate_equity_rule_of_4_and_2 outs "flop") = 100
      <-> 25 <= outs)
  /\ (street <> "flop" -> street <> "turn" ->
      r_equity (calculate_equity_rule_of_4_and_2 outs street) = 0
      /\ r_multiplier (calculate_equity_rule_of_4_and_2 outs street) = 0).
Proof.
  unfold calculate_equity_rule_of_4_and_2.
  repeat apply conj.
  - destruct (String.eqb street "flop"); [simpl; lia|].
    destruct (String.eqb street "turn"); simpl; lia.
  - intros Hpos. split.
    + destruct (String.eqb street "flop"); [simpl; lia|].
      destruct (String.eqb street "turn"); simpl; lia.
    + simpl. lia.
  - simpl. lia.
  - simpl. lia.
  - intros Hflop Hturn.
    rewrite (proj2 (String.eqb_neq _ _) Hflop),
      (proj2 (String.eqb_neq _ _) Hturn). split; reflexivity.
Qed.

Lemma rule_of_4_and_2_bounds_witness :
  0 <= r_equity (calculate_equity_rule_of_4_and_2 9 "flop")
  /\ r_equity (calculate_equity_rule_of_4_and_2 9 "river") = 0.
Proof.
  destruct (rule_of_4_and_2_bounds 9 "flop") as (_ & Hpos & _).
  destruct (rule_of_4_and_2_bounds 9 "river") as (_ & _ & _ & Hother).
  split.
  - apply Hpos. lia.
  - apply Hother; discriminate.
Defined.

(** ** The outcome of a trial and the equity *)

Lemma hero_versus_spec (hero_eval : EvaluatedHand) (sim_board : list Card)
    (opponent_hands : list (list Card)) (hero_ties : bool) :
  let against := fun opp : list Card =>
    compare_hands hero_eval (evaluate_hand (opp ++ sim_board)) in
  let outcome := hero_versus hero_eval sim_board opponent_hands hero_ties in
  (outcome = Loss <-> exists opp, In opp opponent_hands /\ against opp < 0)
  /\ (outcome = Win <->
      hero_ties = false /\ forall opp, In opp opponent_hands -> 0 < against opp)
  /\ (outcome = Tie <->
      (forall opp, In opp opponent_hands -> 0 <= against opp)
      /\ (hero_ties = true
          \/ exists opp, In opp opponent_hands /\ against opp = 0)).
Proof.
  cbv zeta. revert hero_ties.
  induction opponent_hands as [|opp rest IH]; intros hero_ties; simpl.
  - destruct hero_ties; (split; [|split]).
    + split; [discriminate|intros (o & [] & _)].
    + split; [discriminate|intros [Hf _]; discriminate].
    + split; [intros _; split; [intros o []|now left]|reflexivity].
    + split; [discriminate|intros (o & [] & _)].
    + split; [intros _; split; [reflexivity|intros o []]|reflexivity].
    + split; [discriminate|].
      intros [_ [Hf|(o & [] & _)]]. discriminate.
  - set (r := compare_hands hero_eval (evaluate_hand (opp ++ sim_board))).
    assert (Hopp : In opp (opp :: rest)) by now left.
    destruct (Z.ltb_spec r 0) as [Hlt|Hge].
    + split; [|split].
      * split; [intros _; exists opp; auto|reflexivity].
      * split; [discriminate|].
        intros [_ Hall]. specialize (Hall opp Hopp). fold r in Hall. lia.
      * split; [discriminate|].
        intros [Hall _]. specialize (Hall opp Hopp). fold r in Hall. lia.
    + destruct (Z.eqb_spec r 0) as [Hz|Hne].
      * destruct (IH true) as (IHl & IHw & IHt). split; [|split].
        -- rewrite IHl. split.
           ++ intros (o & Ho & Hlt). exists o. split; [now right|exact Hlt].
           ++ intros (o & [<-|Ho] & Hlt); [fold r in Hlt; lia|eauto].
        -- rewrite IHw. split.
           ++ intros [Hf _]. discriminate.
           ++ intros [_ Hall]. specialize (Hall opp Hopp). fold r in Hall.
              lia.
        -- rewrite IHt. split.
           ++ intros [Hall _]. split.
              ** intros o [<-|Ho]; [fold r; lia|auto].
              ** right. exists opp. auto.
           ++ intros [Hall _]. split; [|now left].
              intros o Ho. apply Hall. now right.
      * assert (Hpos : 0 < r) by lia.
        destruct (IH hero_ties) as (IHl & IHw & IHt). split; [|split].
        -- rewrite IHl. split.
           ++ intros (o & Ho & Hlt). exists o. split; [now right|exact Hlt].
           ++ intros (o & [<-|Ho] & Hlt); [fold r in Hlt; lia|eauto].
        -- rewrite IHw. split.
           ++ intros [Hf Hall]. split; [exact Hf|].
              intros o [<-|Ho]; [fold r; lia|auto].
           ++ intros [Hf Hall]. split; [exact Hf|].
              intros o Ho. apply Hall. now right.
        -- rewrite IHt. split.
           ++ intros [Hall Hsome]. split.
              ** intros o [<-|Ho]; [fold r; lia|auto].
              ** destruct Hsome as [Hf|(o & Ho & Hz)]; [now left|].
                 right. exists o. split; [now right|exact Hz].
           ++ intros [Hall Hsome]. split.
              ** intros o Ho. apply Hall. now right.
              ** destruct Hsome as [Hf|(o & [<-|Ho] & Hz)]; [now left| |eauto].
                 fold r in Hz. lia.
Qed.

(** X13.  How a trial is scored: it is lost exactly when some opponent
    compares above the hero, won exactly when the hero compares above
    every opponent, and tied exactly when no opponent is above the hero
    and at least one is level. *)
Theorem run_trial_outcome (hole_cards board : list Card)
    (num_opponents : nat)
    (opponent_ranges : option (list (list (Card * Card))))
    (shuffled : list Card) (choice : nat -> nat -> nat)
    (sim_board : list Card) (opponent_hands : list (list Card)) :
  deal_trial board num_opponents opponent_ranges shuffled choice
  = Some (sim_board, opponent_hands) ->
  let against := fun opp : list Card =>
    compare_hands (evaluate_hand (hole_cards ++ sim_board))
      (evaluate_hand (opp ++ sim_board)) in
  exists outcome,
    run_trial hole_cards board num_opponents opponent_ranges shuffled choice
    = inr outcome
    /\ (outcome = Loss <->
        exists opp, In opp opponent_hands /\ against opp < 0)
    /\ (outcome = Win <->
        forall opp, In opp opponent_hands -> 0 < against opp)
    /\ (outcome = Tie <->
        (forall opp, In opp opponent_hands -> 0 <= against opp)
        /\ exists opp, In opp opponent_hands /\ against opp = 0).
Proof.
  intros Hdeal. cbv zeta. unfold run_trial. rewrite Hdeal.
  eexists. split; [reflexivity|].
  destruct (hero_versus_spec (evaluate_hand (hole_cards ++ sim_board))
              sim_board opponent_hands false) as (Hl & Hw & Ht).
  cbv zeta in *. split; [exact Hl|]. split.
  - rewrite Hw. tauto.
  - rewrite Ht. split; [intros [Hall [Hf|Hex]]; [discriminate|tauto]|tauto].
Qed.

Lemma run_trial_outcome_witness :
  exists outcome,
    run_trial [mkCard RA H; mkCard RA D]
      [mkCard R2 C; mkCard R7 D; mkCard R9 S; mkCard RJ C; mkCard R4 H] 1
      None [mkCard RK H; mkCard RK D] (fun _ _ => 0%nat)
    = inr outcome
    /\ (outcome = Win <->
        forall opp, In opp [[mkCard RK H; mkCard RK D]] ->
          0 < compare_hands
                (evaluate_hand
                   ([mkCard RA H; mkCard RA D]
                    ++ [mkCard R2 C; mkCard R7 D; mkCard R9 S; mkCard RJ C;
                        mkCard R4 H]))
                (evaluate_hand
                   (opp ++ [mkCard R2 C; mkCard R7 D; mkCard R9 S;
                            mkCard RJ C; mkCard R4 H]))).
Proof.
  destruct (run_trial_outcome [mkCard RA H; mkCard RA D]
              [mkCard R2 C; mkCard R7 D; mkCard R9 S; mkCard RJ C; mkCard R4 H]
              1 None [mkCard RK H; mkCard RK D] (fun _ _ => 0%nat)
              [mkCard R2 C; mkCard R7 D; mkCard R9 S; mkCard RJ C; mkCard R4 H]
              [[mkCard RK H; mkCard RK D]] eq_refl)
    as (outcome & Hrun & _ & Hwin & _).
  exists outcome. split; [exact Hrun|exact Hwin].
Defined.

(** The counters after the loop over the trials. *)
Lemma run_trials_tally (hole_cards board : list Card) (num_opponents : nat)
    (opponent_ranges : option (list (list (Card * Card))))
    (trials : list (list Card * (nat -> nat -> nat))) (t t' : Tally) :
  run_trials hole_cards board num_opponents opponent_ranges trials t
  = inr t' ->
  wins t' = wins t + count_outcome Win hole_cards board num_opponents
                       opponent_ranges trials
  /\ ties t' = ties t + count_outcome Tie hole_cards board num_opponents
                          opponent_ranges trials
  /\ sims t' = sims t + Z.of_nat (length trials)
  /\ count_outcome Win hole_cards board num_opponents opponent_ranges trials
     + count_outcome Tie hole_cards board num_opponents opponent_ranges
         trials
     <= Z.of_nat (length trials).
Proof.
  unfold count_outcome.
  revert t; induction trials as [|[shuffled choice] trials IH]; intros t.
  - simpl. intros [= <-]. lia.
  - cbn [run_trials length List.filter fst snd].
    destruct (run_trial _ _ _ _ _ _) as [e|[]]; [discriminate|..];
      intros Hrest; apply IH in Hrest; cbn [is_outcome length] in *;
      simpl in Hrest; lia.
Qed.

(** X14.  [calculate_equity_monte_carlo] with no simulation raises
    [ZeroDivisionError].  When it returns, it reports as many simulations
    as it was asked for, and the percentages it reports are those of the
    trials won and of the trials tied: with [won] and [tied] their
    numbers, the floats [won / total * 100] and [tied / total * 100]
    rounded to one decimal, the equity being the sum of the first and of
    half the second, rounded to one decimal. *)
Theorem calculate_equity_monte_carlo_tally (hole_cards board : list Card)
    (num_opponents : nat)
    (trials : list (list Card * (nat -> nat -> nat)))
    (opponent_ranges : option (list (list (Card * Card)))) :
  (trials = [] ->
   calculate_equity_monte_carlo hole_cards board num_opponents trials
     opponent_ranges = inl ZeroDivisionError)
  /\ (forall e,
        calculate_equity_monte_carlo hole_cards board num_opponents trials
          opponent_ranges = inr e ->
        let won := count_outcome Win hole_cards board num_opponents
                     opponent_ranges trials in
        let tied := count_outcome Tie hole_cards board num_opponents
                      opponent_ranges trials in
        let total := Z.of_nat (length trials) in
        simulations e = total
        /\ 0 < total
        /\ 0 <= won /\ 0 <= tied /\ won + tied <= total
        /\ win_percentage e = py_round (fmul (int_div won total) 100) 1
        /\ tie_percentage e = py_round (fmul (int_div tied total) 100) 1
        /\ equity e
           = py_round
               (fadd (fmul (int_div won total) 100)
                  (fdiv (fmul (int_div tied total) 100) 2)) 1).
Proof.
  unfold calculate_equity_monte_carlo. split.
  - intros ->. reflexivity.
  - intros e.
    destruct (run_trials _ _ _ _ _ _) as [err|t] eqn:Hrun; [discriminate|].
    apply run_trials_tally in Hrun as (Hw & Ht & Hs & Hsum).
    cbn [wins ties sims] in Hw, Ht, Hs. rewrite Z.add_0_l in Hw, Ht, Hs.
    destruct (Z.eqb_spec (sims t) 0) as [Hz|Hnz]; [discriminate|].
    intros [= <-]. cbv zeta.
    cbn [simulations win_percentage tie_percentage equity].
    rewrite Hw, Ht, Hs.
    repeat split; try reflexivity; try lia.
    + unfold count_outcome. lia.
    + unfold count_outcome. lia.
Qed.

Lemma calculate_equity_monte_carlo_tally_witness :
  exists e,
    calculate_equity_monte_carlo [mkCard RA H; mkCard RA D]
      [mkCard R2 C; mkCard R7 D; mkCard R9 S; mkCard RJ C; mkCard R4 H] 1
      [([mkCard RK H; mkCard RK D], fun _ _ => 0%nat)] None = inr e
    /\ simulations e = 1
    /\ win_percentage e = 100
    /\ tie_percentage e = 0
    /\ equity e = 100.
Proof.
  assert (He : calculate_equity_monte_carlo [mkCard RA H; mkCard RA D]
                 [mkCard R2 C; mkCard R7 D; mkCard R9 S; mkCard RJ C;
                  mkCard R4 H] 1
                 [([mkCard RK H; mkCard RK D], fun _ _ => 0%nat)] None
               = inr (mkEquity 100 100 0 1))
    by (vm_compute; reflexivity).
  exists (mkEquity 100 100 0 1). split; [exact He|].
  destruct (proj2 (calculate_equity_monte_carlo_tally
                     [mkCard RA H; mkCard RA D]
                     [mkCard R2 C; mkCard R7 D; mkCard R9 S; mkCard RJ C;
                      mkCard R4 H] 1
                     [([mkCard RK H; mkCard RK D], fun _ _ => 0%nat)] None)
              _ He)
    as (Hsim & _ & _ & _ & _ & Hwin & Htie & Heq).
  split; [exact Hsim|]. split; [|split].
  - rewrite Hwin. vm_compute. reflexivity.
  - rewrite Htie. vm_compute. reflexivity.
  - rewrite Heq. vm_compute. reflexivity.
Defined.

(** ** Hand notations *)

Lemma forallb_deck (f : Card -> bool) :
  forallb f create_deck = true -> forall c, f c = true.
Proof.
  intros Hall c. rewrite forallb_forall in Hall. apply Hall.
  apply list_elem_of_In, create_deck_complete.
Qed.

(** X15.  On any two cards [classify_preflop_hand] returns a
    classification that does not depend on the order of the two cards, and
    its notation is the one that [hand_to_notation] of the range estimator
    gives, in either order. *)
Theorem classify_preflop_hand_notation (c1 c2 : Card) :
  exists cls,
    classify_preflop_hand [c1; c2] = inr cls
    /\ classify_preflop_hand [c2; c1] = inr cls
    /\ hand_to_notation [c1; c2] = inr (notation cls)
    /\ hand_to_notation [c2; c1] = inr (notation cls).
Proof.
  pose (check := fun c1 c2 : Card =>
    match classify_preflop_hand [c1; c2] with
    | inr cls =>
        bool_decide (classify_preflop_hand [c2; c1] = inr cls)
        && bool_decide (hand_to_notation [c1; c2] = inr (notation cls))
        && bool_decide (hand_to_notation [c2; c1] = inr (notation cls))
    | inl _ => false
    end).
  assert (Hall : forallb (fun a => forallb (check a) create_deck) create_deck
                 = true) by (vm_compute; reflexivity).
  pose proof (forallb_deck _ (forallb_deck _ Hall c1) c2) as Hc.
  unfold check in Hc.
  destruct (classify_preflop_hand [c1; c2]) as [e|cls]; [discriminate|].
  apply andb_prop in Hc as [Hc H3]. apply andb_prop in Hc as [H1 H2].
  apply bool_decide_eq_true_1 in H1, H2, H3.
  exists cls. auto.
Qed.

(** X16.  The tier of [classify_preflop_hand] is "Premium" exactly for AA,
    KK, QQ, AKs and AKo, and "Strong" exactly for JJ, TT, 99, AQs, AJs, KQs
    and KJs. *)
Theorem classify_preflop_hand_tiers (c1 c2 : Card) (cls : HandClass) :
  classify_preflop_hand [c1; c2] = inr cls ->
  (tier cls = "Premium"
   <-> notation cls ∈ ["AA"; "KK"; "QQ"; "AKs"; "AKo"])
  /\ (tier cls = "Strong"
      <-> notation cls ∈ ["JJ"; "TT"; "99"; "AQs"; "AJs"; "KQs"; "KJs"]).
Proof.
  pose (check := fun c1 c2 : Card =>
    match classify_preflop_hand [c1; c2] with
    | inr cls =>
        Bool.eqb (bool_decide (tier cls = "Premium"))
          (bool_decide (notation cls ∈ ["AA"; "KK"; "QQ"; "AKs"; "AKo"]))
        && Bool.eqb (bool_decide (tier cls = "Strong"))
             (bool_decide
                (notation cls
                 ∈ ["JJ"; "TT"; "99"; "AQs"; "AJs"; "KQs"; "KJs"]))
    | inl _ => false
    end).
  assert (Hall : forallb (fun a => forallb (check a) create_deck) create_deck
                 = true) by (vm_compute; reflexivity).
  pose proof (forallb_deck _ (forallb_deck _ Hall c1) c2) as Hc.
  unfold check in Hc. intros Hcls. rewrite Hcls in Hc.
  apply andb_prop in Hc as [H1 H2].
  apply eqb_prop in H1, H2.
  split.
  - rewrite <- (bool_decide_spec (tier cls = "Premium")), H1.
    apply bool_decide_spec.
  - rewrite <- (bool_decide_spec (tier cls = "Strong")), H2.
    apply bool_decide_spec.
Qed.

Lemma classify_preflop_hand_tiers_witness :
  (tier (mkHandClass "JJ" true false "Strong" "Strong" "Neutral")
   = "Premium"
   <-> notation (mkHandClass "JJ" true false "Strong" "Strong" "Neutral")
       ∈ ["AA"; "KK"; "QQ"; "AKs"; "AKo"])
  /\ (tier (mkHandClass "JJ" true false "Strong" "Strong" "Neutral")
      = "Strong"
      <-> notation (mkHandClass "JJ" true false "Strong" "Strong" "Neutral")
          ∈ ["JJ"; "TT"; "99"; "AQs"; "AJs"; "KQs"; "KJs"]).
Proof.
  apply (classify_preflop_hand_tiers (mkCard RJ H) (mkCard RJ D)).
  vm_compute. reflexivity.
Defined.

(** The notations of the deck, and the number of combinations each one
    stands for. *)
Lemma hand_to_notation_valid (c1 c2 : Card) :
  exists hand, hand_to_notation [c1; c2] = inr hand /\ hand ∈ hand_notations.
Proof.
  pose (check := fun c1 c2 : Card =>
    match hand_to_notation [c1; c2] with
    | inr s => bool_decide (s ∈ hand_notations)
    | inl _ => false
    end).
  assert (Hall : forallb (fun a => forallb (check a) create_deck) create_deck
                 = true) by (vm_compute; reflexivity).
  pose proof (forallb_deck _ (forallb_deck _ Hall c1) c2) as Hc.
  unfold check in Hc.
  destruct (hand_to_notation [c1; c2]) as [e|s]; [discriminate|].
  exists s. split; [reflexivity|]. now apply bool_decide_eq_true_1 in Hc.
Qed.

Lemma combos_of_valid (hand : string) :
  hand ∈ hand_notations ->
  combos_of hand = Z.of_nat (length (deck_combos hand)).
Proof.
  assert (Hall : forallb (fun h => Z.eqb (combos_of h)
                                     (Z.of_nat (length (deck_combos h))))
                   hand_notations = true) by (vm_compute; reflexivity).
  rewrite forallb_forall in Hall. intros Hin.
  apply list_elem_of_In, Hall in Hin. now apply Z.eqb_eq.
Qed.

(** X17.  The number of combinations that [estimate_preflop_range] counts
    for a hand (6 for a notation of two characters, 4 for one that ends in
    's', 12 otherwise) is, for the notation of any two cards, the number of
    two-card combinations of the 52-card deck that have this notation. *)
Theorem combos_of_counts_deck (c1 c2 : Card) :
  exists hand,
    hand_to_notation [c1; c2] = inr hand
    /\ combos_of hand = Z.of_nat (length (deck_combos hand)).
Proof.
  destruct (hand_to_notation_valid c1 c2) as (hand & Hn & Hv).
  exists hand. split; [exact Hn|]. now apply combos_of_valid.
Qed.

(** ** The combinations of a range *)

Lemma in_range_insert (x : string) (X : gset string) (combo : list Card) :
  x ∉ X ->
  in_range ({[x]} ∪ X) combo = has_notation x combo || in_range X combo
  /\ has_notation x combo && in_range X combo = false.
Proof.
  intros Hx. unfold in_range, has_notation.
  destruct (hand_to_notation combo) as [e|s]; [now split|].
  destruct (decide (s = x)) as [->|Hne].
  - rewrite (bool_decide_eq_true_2 (x ∈ {[x]} ∪ X)) by set_solver.
    rewrite (bool_decide_eq_true_2 (x = x)) by reflexivity.
    rewrite (bool_decide_eq_false_2 (x ∈ X)) by exact Hx. now split.
  - rewrite (bool_decide_eq_false_2 (s = x)) by exact Hne.
    split; [|reflexivity]. simpl.
    apply bool_decide_ext.
    rewrite elem_of_union, elem_of_singleton. tauto.
Qed.

Lemma length_filter_in_range (x : string) (X : gset string)
    (l : list (list Card)) :
  x ∉ X ->
  length (List.filter (in_range ({[x]} ∪ X)) l)
  = (length (List.filter (has_notation x) l)
     + length (List.filter (in_range X) l))%nat.
Proof.
  intros Hx. induction l as [|combo l IH]; [reflexivity|].
  cbn [List.filter].
  destruct (in_range_insert x X combo Hx) as [-> Hexcl].
  destruct (has_notation x combo), (in_range X combo);
    try discriminate; cbn [orb length]; rewrite IH; lia.
Qed.

Lemma length_filter_in_range_empty (l : list (list Card)) :
  length (List.filter (in_range ∅) l) = 0%nat.
Proof.
  induction l as [|combo l IH]; [reflexivity|].
  cbn [List.filter].
  assert (Hf : in_range ∅ combo = false).
  { unfold in_range. destruct (hand_to_notation combo) as [e|s];
      [reflexivity|]. apply bool_decide_eq_false_2. set_solver. }
  now rewrite Hf.
Qed.

(** The loop [for hand in range_set: total_combos += ...] on a range of
    notations of the deck. *)
Lemma total_combos_counts_deck (range_set : gset string) :
  (forall hand, hand ∈ range_set -> hand ∈ hand_notations) ->
  total_combos range_set = Z.of_nat (length (range_combos range_set)).
Proof.
  pose proof combos_of_valid as Hcv.
  unfold total_combos, range_combos, deck_combos in *.
  set (l := combinations create_deck 2) in *. clearbody l.
  apply (set_fold_ind_L (fun (acc : Z) (X : gset string) =>
    (forall hand, hand ∈ X -> hand ∈ hand_notations) ->
    acc = Z.of_nat (length (List.filter (in_range X) l)))).
  - intros _. rewrite length_filter_in_range_empty. reflexivity.
  - intros x X acc Hx IH Hvalid.
    rewrite length_filter_in_range by exact Hx.
    rewrite IH
      by (intros hand Hin; apply Hvalid, elem_of_union; now right).
    rewrite (Hcv x)
      by (apply Hvalid, elem_of_union; left; now apply elem_of_singleton).
    rewrite Nat2Z.inj_add. apply Z.add_comm.
Qed.

Lemma combinations_deck_2 : length (combinations create_deck 2) = 1326%nat.
Proof. vm_compute. reflexivity. Qed.

Lemma length_range_combos (range_set : gset string) :
  (length (range_combos range_set) <= 1326)%nat.
Proof.
  unfold range_combos. rewrite <- combinations_deck_2.
  apply List.filter_length_le.
Qed.

Lemma elem_of_all_positions (p : Position) : In p all_positions.
Proof. destruct p; simpl; tauto. Qed.

Lemma elem_of_all_actions (a : Action) : In a all_actions.
Proof. destruct a; simpl; tauto. Qed.

(** Every hand of every range that [estimate_preflop_range] can select is
    the notation of two cards of the deck. *)
Lemma select_range_valid (position : Position) (action : Action)
    (facing_action : option Action) (hand : string) :
  hand ∈ (select_range position action facing_action).1 ->
  hand ∈ hand_notations.
Proof.
  pose (check := fun (p : Position) (a : Action) (f : option Action) =>
    forallb (fun h => bool_decide (h ∈ hand_notations))
      (elements (select_range p a f).1)).
  assert (Hall :
    forallb (fun p => forallb (fun a =>
      check p a None && forallb (fun f => check p a (Some f)) all_actions)
      all_actions) all_positions = true) by (vm_compute; reflexivity).
  rewrite forallb_forall in Hall.
  specialize (Hall position (elem_of_all_positions position)).
  rewrite forallb_forall in Hall.
  specialize (Hall action (elem_of_all_actions action)).
  apply andb_prop in Hall as [Hnone Hsome].
  assert (Hc : check position action facing_action = true).
  { destruct facing_action as [f|]; [|exact Hnone].
    rewrite forallb_forall in Hsome. apply Hsome, elem_of_all_actions. }
  unfold check in Hc. rewrite forallb_forall in Hc.
  intros Hin. apply (bool_decide_eq_true_1 (hand ∈ hand_notations)).
  apply Hc, list_elem_of_In. now apply elem_of_elements.
Qed.

(** A number of combinations as a percentage of the 1326 of the deck. *)
Lemma percent_of_deck (n : nat) :
  (n <= 1326)%nat ->
  fle 0 (py_round (fmul (int_div (Z.of_nat n) 1326) 100) 1)
  /\ fle (py_round (fmul (int_div (Z.of_nat n) 1326) 100) 1) 100.
Proof.
  pose (check := fun n : nat =>
    let p := py_round (fmul (int_div (Z.of_nat n) 1326) 100) 1 in
    fleb 0 p && fleb p 100).
  assert (Hall : forallb check (seq 0 1327) = true)
    by (vm_compute; reflexivity).
  intros Hn. rewrite forallb_forall in Hall.
  assert (Hc : check n = true) by (apply Hall, in_seq; lia).
  unfold check in Hc. cbv zeta in Hc.
  apply andb_prop in Hc. exact Hc.
Qed.

(** X18.  For an action other than FOLD, the 'combo_count' that
    [estimate_preflop_range] returns is the number of two-card combinations
    of the 52-card deck whose notation is in the returned range, the
    'hand_count' is the size of the range, and the 'percentage' is the
    float of that number over 1326, in percent, rounded to one decimal: a
    number between 0 and 100. *)
Theorem estimate_preflop_range_combo_count (position : Position)
    (action : Action) (facing_action : option Action) :
  action <> FOLD ->
  exists range_set,
    let d := estimate_preflop_range position action facing_action in
    let combos := Z.of_nat (length (range_combos range_set)) in
    let percent := py_round (fmul (int_div combos 1326) 100) 1 in
    d !! "range" = Some (VSet range_set)
    /\ d !! "hand_count" = Some (VInt (Z.of_nat (size range_set)))
    /\ d !! "combo_count" = Some (VInt combos)
    /\ d !! "percentage" = Some (VNum percent)
    /\ fle 0 percent /\ fle percent 100.
Proof.
  intros Hfold. unfold estimate_preflop_range.
  rewrite (bool_decide_eq_false_2 (action = FOLD)) by exact Hfold.
  pose proof (select_range_valid position action facing_action) as Hvalid.
  destruct (select_range position action facing_action)
    as [range_set desc]. simpl in Hvalid.
  exists range_set. cbv zeta.
  rewrite (total_combos_counts_deck range_set Hvalid).
  pose proof (length_range_combos range_set) as Hle.
  set (n := length (range_combos range_set)) in *.
  repeat split; apply (percent_of_deck n Hle).
Qed.

Lemma estimate_preflop_range_combo_count_witness :
  exists range_set,
    let d := estimate_preflop_range BTN RAISE None in
    let combos := Z.of_nat (length (range_combos range_set)) in
    let percent := py_round (fmul (int_div combos 1326) 100) 1 in
    d !! "range" = Some (VSet range_set)
    /\ d !! "hand_count" = Some (VInt (Z.of_nat (size range_set)))
    /\ d !! "combo_count" = Some (VInt combos)
    /\ d !! "percentage" = Some (VNum percent)
    /\ fle 0 percent /\ fle percent 100.
Proof.
  apply (estimate_preflop_range_combo_count BTN RAISE None). discriminate.
Defined.

(** ** [get_range_summary] *)

(** The three list comprehensions of [get_range_summary] against the loop
    of [estimate_preflop_range], on a list of hands. *)
Lemma summary_counts (hands : list string) :
  (forall hand, hand ∈ hands -> hand ∈ hand_notations) ->
  Z.of_nat (length (List.filter (fun h => Nat.eqb (String.length h) 2)
                      hands)) * 6
  + Z.of_nat (length (List.filter (fun h => endswith h "s") hands)) * 4
  + Z.of_nat (length (List.filter (fun h => endswith h "o") hands)) * 12
  = foldr (fun hand acc => acc + combos_of hand) 0 hands.
Proof.
  assert (Hall : forallb (fun h =>
            Z.eqb ((if Nat.eqb (String.length h) 2 then 6 else 0)
                   + (if endswith h "s" then 4 else 0)
                   + (if endswith h "o" then 12 else 0))
              (combos_of h)) hand_notations = true)
    by (vm_compute; reflexivity).
  rewrite forallb_forall in Hall.
  induction hands as [|h hands IH]; intros Hvalid; [reflexivity|].
  cbn [List.filter foldr].
  rewrite <- IH by (intros hand Hin; apply Hvalid; now right).
  assert (Hh : In h hand_notations)
    by (apply list_elem_of_In, Hvalid; now left).
  apply Hall, Z.eqb_eq in Hh. rewrite <- Hh.
  destruct (Nat.eqb (String.length h) 2), (endswith h "s"),
    (endswith h "o"); cbn [length]; lia.
Qed.

(** X19.  On a range made of notations of two cards,
    [get_range_summary] reports the number of combinations that
    [estimate_preflop_range] counts for the same range, which is the number
    of two-card combinations of the deck in the range, and the number of
    hands of the range. *)
Theorem get_range_summary_combo_count (range_set : gset string) :
  (forall hand, hand ∈ range_set -> hand ∈ hand_notations) ->
  s_combo_count (get_range_summary range_set) = total_combos range_set
  /\ s_combo_count (get_range_summary range_set)
     = Z.of_nat (length (range_combos range_set))
  /\ s_total_hands (get_range_summary range_set)
     = Z.of_nat (size range_set).
Proof.
  intros Hvalid.
  assert (Hsum : s_combo_count (get_range_summary range_set)
                 = total_combos range_set).
  { unfold get_range_summary, total_combos, set_fold. cbn.
    apply summary_counts. intros hand Hin. apply Hvalid.
    now apply elem_of_elements. }
  split; [exact Hsum|]. split; [|reflexivity].
  rewrite Hsum. now apply total_combos_counts_deck.
Qed.

Lemma get_range_summary_combo_count_witness :
  s_combo_count (get_range_summary four_bet_range)
  = total_combos four_bet_range
  /\ s_combo_count (get_range_summary four_bet_range)
     = Z.of_nat (length (range_combos four_bet_range))
  /\ s_total_hands (get_range_summary four_bet_range)
     = Z.of_nat (size four_bet_range).
Proof.
  apply (get_range_summary_combo_count four_bet_range).
  intros hand Hin. unfold four_bet_range in Hin.
  apply elem_of_list_to_set in Hin.
  repeat (apply elem_of_cons in Hin as [->|Hin];
          [apply (bool_decide_eq_true_1 (_ ∈ hand_notations));
           vm_compute; reflexivity|]).
  now apply elem_of_nil in Hin.
Defined.

(** ** The seats of a hand *)







(** ** Narrowing twice *)


(** X25.  [narrow_range_postflop] analyses the bet sizing exactly when the
    bet and the pot are both above 0, and the analysis it then returns is
    never the "No pot yet" one: it has the four keys sizing,
    typical_range, polarization and strength_indicator. *)
Theorem narrow_range_postflop_sizing (preflop_range : gset string)
    (board : list Card) (action : Action) (bet_size pot_size : float) :
  let r :=
    narrow_range_postflop preflop_range board action bet_size pot_size in
  (is_Some (bet_sizing_analysis r) <-> flt 0 bet_size /\ flt 0 pot_size)
  /\ (forall a, bet_sizing_analysis r = Some a ->
        a = analyze_bet_sizing bet_size pot_size
        /\ dom a = list_to_set ["sizing"; "typical_range"; "polarization";
                                "strength_indicator"]
        /\ a !! "analysis" = None).
Proof.
  cbv zeta. unfold narrow_range_postflop. cbv zeta.
  destruct (set_fold _ _ _) as [n rm]. cbn [bet_sizing_analysis].
  change (flt 0 bet_size) with (fgtb bet_size 0 = true).
  change (flt 0 pot_size) with (fgtb pot_size 0 = true).
  destruct (fgtb bet_size 0) eqn:Hb, (fgtb pot_size 0) eqn:Hp; cbn [andb].
  - split; [split; [tauto|intros _; eexists; reflexivity]|].
    intros a [= <-]. split; [reflexivity|].
    unfold analyze_bet_sizing.
    rewrite (flt_pos_fleb pot_size Hp).
    repeat (match goal with
            | |- context [if ?b then _ else _] => destruct b
            end); split; reflexivity.
  - split; [|discriminate].
    split; [intros [a Ha]; discriminate|intros [_ Hf]; discriminate].
  - split; [|discriminate].
    split; [intros [a Ha]; discriminate|intros [Hf _]; discriminate].
  - split; [|discriminate].
    split; [intros [a Ha]; discriminate|intros [Hf _]; discriminate].
Qed.

(** ** [detect_draws] *)

Lemma assoc_suit_incr (x s : Suit) (items : list (Suit * Z)) :
  assoc_suit s (suit_counter_incr x items)
  = if bool_decide (s = x)
    then Some (default 0 (assoc_suit x items) + 1)
    else assoc_suit s items.
Proof.
  induction items as [|[k n] items IH]; simpl.
  - destruct (decide (s = x)) as [->|Hne].
    + now rewrite !bool_decide_eq_true_2.
    + rewrite (bool_decide_eq_false_2 (x = s)) by congruence.
      now rewrite (bool_decide_eq_false_2 (s = x)).
  - destruct (decide (k = x)) as [->|Hkx].
    + rewrite (bool_decide_eq_true_2 (x = x)) by reflexivity. simpl.
      destruct (decide (s = x)) as [->|Hne].
      * now rewrite !bool_decide_eq_true_2.
      * rewrite (bool_decide_eq_false_2 (x = s)) by congruence.
        now rewrite (bool_decide_eq_false_2 (s = x)).
    + rewrite (bool_decide_eq_false_2 (k = x)) by exact Hkx. simpl.
      rewrite IH.
      destruct (decide (s = x)) as [->|Hne].
      * rewrite (bool_decide_eq_false_2 (k = x)) by exact Hkx.
        now rewrite !bool_decide_eq_true_2.
      * rewrite (bool_decide_eq_false_2 (s = x)) by exact Hne.
        reflexivity.
Qed.

Lemma suit_counter_incr_keys (x : Suit) (items : list (Suit * Z)) :
  NoDup (map fst items) -> NoDup (map fst (suit_counter_incr x items)).
Proof.
  induction items as [|[k n] items IH]; simpl; intros Hnd.
  - repeat constructor. apply not_elem_of_nil.
  - inversion_clear Hnd as [|? ? Hk Hrest].
    destruct (bool_decide (k = x)) eqn:E; simpl.
    + now constructor.
    + constructor; [|now apply IH].
      apply bool_decide_eq_false in E.
      intros Hin. apply Hk.
      clear -Hin E. induction items as [|[k' n'] items IH']; simpl in *.
      * apply elem_of_cons in Hin as [->|Hin]; [congruence|].
        now apply elem_of_nil in Hin.
      * destruct (bool_decide (k' = x)); simpl in *; [exact Hin|].
        apply elem_of_cons in Hin as [->|Hin]; [left|right; now apply IH'].
Qed.

(** The items of [Counter(suits)]: one per suit that occurs, with the
    number of its occurrences. *)
Lemma suit_counter_spec (suits : list Suit) :
  NoDup (map fst (suit_counter suits))
  /\ forall s,
       assoc_suit s (suit_counter suits)
       = let n := Z.of_nat (length (List.filter
                                      (fun t => bool_decide (t = s)) suits))
         in if Z.eqb n 0 then None else Some n.
Proof.
  unfold suit_counter.
  assert (Hgen : forall items : list (Suit * Z),
    NoDup (map fst items) ->
    (forall s n, assoc_suit s items = Some n -> 0 < n) ->
    NoDup (map fst (fold_left (fun items x => suit_counter_incr x items)
                      suits items))
    /\ forall s,
         assoc_suit s (fold_left (fun items x => suit_counter_incr x items)
                         suits items)
         = let n := default 0 (assoc_suit s items)
                    + Z.of_nat (length (List.filter
                                          (fun t => bool_decide (t = s))
                                          suits))
           in if Z.eqb n 0 then None else Some n).
  { induction suits as [|x suits IH]; intros items Hnd Hpos.
    - split; [exact Hnd|]. intros s. cbn [fold_left List.filter length].
      cbv zeta. rewrite Z.add_0_r.
      destruct (assoc_suit s items) as [n|] eqn:E; [|reflexivity].
      simpl. apply Hpos in E. destruct (Z.eqb_spec n 0); [lia|reflexivity].
    - cbn [fold_left].
      destruct (IH (suit_counter_incr x items)) as [Hnd' Hcount].
      + now apply suit_counter_incr_keys.
      + intros s n. rewrite assoc_suit_incr.
        case_bool_decide; [|apply Hpos].
        intros [= <-].
        destruct (assoc_suit x items) as [m|] eqn:E; simpl; [|lia].
        apply Hpos in E. lia.
      + split; [exact Hnd'|]. intros s. rewrite Hcount. cbv zeta.
        rewrite assoc_suit_incr. cbn [List.filter].
        destruct (decide (s = x)) as [->|Hne].
        * rewrite !bool_decide_eq_true_2 by reflexivity.
          cbn [default length]. rewrite Nat2Z.inj_succ.
          replace (default 0 (assoc_suit x items) + 1
                   + Z.of_nat (length (List.filter
                                         (fun t => bool_decide (t = x))
                                         suits)))
            with (default 0 (assoc_suit x items)
                  + Z.succ (Z.of_nat (length (List.filter
                                               (fun t => bool_decide (t = x))
                                               suits)))) by lia.
          reflexivity.
        * rewrite (bool_decide_eq_false_2 (s = x)) by exact Hne.
          rewrite (bool_decide_eq_false_2 (x = s)) by congruence.
          reflexivity. }
  destruct (Hgen []) as [Hnd Hcount].
  - constructor.
  - intros s n. discriminate.
  - split; [exact Hnd|]. intros s. rewrite Hcount. reflexivity.
Qed.

Lemma elem_of_assoc_suit (s : Suit) (n : Z) (items : list (Suit * Z)) :
  NoDup (map fst items) ->
  (s, n) ∈ items <-> assoc_suit s items = Some n.
Proof.
  induction items as [|[k m] items IH]; simpl; intros Hnd.
  - split; [intros Hin; now apply elem_of_nil in Hin|discriminate].
  - inversion_clear Hnd as [|? ? Hk Hrest].
    rewrite elem_of_cons, (IH Hrest).
    destruct (decide (k = s)) as [->|Hne].
    + rewrite bool_decide_eq_true_2 by reflexivity. split.
      * intros [[= <-]|Hin]; [reflexivity|].
        exfalso. apply Hk. apply (IH Hrest) in Hin.
        change (fst (s, n) ∈ fst <$> items).
        now apply list_elem_of_fmap_2.
      * intros [= <-]. now left.
    + rewrite bool_decide_eq_false_2 by exact Hne. split.
      * intros [[= E _]|Hin]; [congruence|exact Hin].
      * intros Hin. now right.
Qed.

(** The loop [for suit, count in suit_counts.items()]. *)
Lemma flush_loop (items : list (Suit * Z)) (st : bool * option Suit * Z) :
  let r := fold_left
             (fun (st : bool * option Suit * Z) (item : Suit * Z) =>
                if Z.eqb (snd item) 4 then (true, Some (fst item), 9)
                else st) items st in
  if existsb (fun item : Suit * Z => Z.eqb (snd item) 4) items
  then exists s, (s, 4) ∈ items /\ r = (true, Some s, 9)
  else r = st.
Proof.
  cbv zeta. revert st. induction items as [|[k n] items IH]; intros st.
  - reflexivity.
  - cbn [fold_left existsb fst snd].
    specialize (IH (if n =? 4 then (true, Some k, 9) else st)).
    destruct (existsb _ items).
    + rewrite orb_true_r. destruct IH as (s & Hs & Hr).
      exists s. split; [now right|exact Hr].
    + rewrite orb_false_r, IH.
      destruct (Z.eqb_spec n 4) as [->|_]; [|reflexivity].
      exists k. split; [now left|reflexivity].
Qed.

Lemma suit_count_map (s : Suit) (cards : list Card) :
  Z.of_nat (length (List.filter (fun t => bool_decide (t = s))
                      (map suit cards)))
  = suit_count s cards.
Proof.
  unfold suit_count. f_equal.
  induction cards as [|c cards IH]; [reflexivity|].
  cbn [map List.filter]. destruct (bool_decide (suit c = s)); simpl; lia.
Qed.

(** X23.  [detect_draws] reports a flush draw exactly when some suit has
    exactly four cards among the hole cards and the board (five cards of a
    suit are no draw); the suit it names is such a suit, and it then counts
    nine outs, whatever the number of unseen cards of that suit. *)
Theorem detect_draws_flush (hole_cards board : list Card) :
  let d := detect_draws hole_cards board in
  (flush_draw d = true
   <-> exists s, suit_count s (hole_cards ++ board) = 4)
  /\ (flush_draw d = true ->
      flush_draw_outs d = 9
      /\ exists s, flush_draw_suit d = Some s
                   /\ suit_count s (hole_cards ++ board) = 4)
  /\ (flush_draw d = false ->
      flush_draw_suit d = None /\ flush_draw_outs d = 0).
Proof.
  cbv zeta. unfold detect_draws. cbv zeta.
  destruct (suit_counter_spec (map suit (hole_cards ++ board)))
    as [Hnd Hcount].
  assert (Hitems : forall s,
            (s, 4) ∈ suit_counter (map suit (hole_cards ++ board))
            <-> suit_count s (hole_cards ++ board) = 4).
  { intros s. rewrite (elem_of_assoc_suit _ _ _ Hnd), Hcount. cbv zeta.
    rewrite suit_count_map.
    destruct (Z.eqb_spec (suit_count s (hole_cards ++ board)) 0) as [E|E].
    - rewrite E. split; [discriminate|lia].
    - split; [intros [= ->]; reflexivity|intros ->; reflexivity]. }
  pose proof (flush_loop (suit_counter (map suit (hole_cards ++ board)))
                (false, None, 0)) as Hloop.
  cbv zeta in Hloop.
  destruct (fold_left _ _ _) as [[flush fsuit] fouts].
  cbn [flush_draw flush_draw_suit flush_draw_outs].
  destruct (existsb _ _) eqn:Hex.
  - destruct Hloop as (s & Hs & [= -> -> ->]).
    apply Hitems in Hs. split; [|split].
    + split; [intros _; now exists s|reflexivity].
    + intros _. split; [reflexivity|]. now exists s.
    + discriminate.
  - injection Hloop as -> -> ->. split; [|split].
    + split; [discriminate|]. intros [s Hs]. apply Hitems in Hs.
      assert (Ht : existsb (fun item : Suit * Z => snd item =? 4)
                     (suit_counter (map suit (hole_cards ++ board)))
                   = true).
      { apply existsb_exists. exists (s, 4). split; [|reflexivity].
        now apply list_elem_of_In. }
      congruence.
    + discriminate.
    + intros _. split; reflexivity.
Qed.

Lemma insert_asc_Sorted (x : Z) (l : list Z) :
  Sorted Z.le l -> Sorted Z.le (insert_desc Z.leb x l).
Proof.
  induction l as [|y l IH]; simpl; intros Hs.
  - repeat constructor.
  - destruct (Z.leb_spec x y) as [Hle|Hgt].
    + constructor; [assumption|]. constructor. lia.
    + inversion Hs as [|? ? Hs' Hhd]; subst.
      constructor; [now apply IH|].
      destruct l as [|z l]; simpl.
      * constructor. lia.
      * destruct (Z.leb_spec x z); constructor; [lia|].
        now inversion Hhd.
Qed.

Lemma sorted_asc_Sorted (l : list Z) : Sorted Z.le (sorted_asc l).
Proof.
  unfold sorted_asc. induction l as [|x l IH]; simpl; [constructor|].
  now apply insert_asc_Sorted.
Qed.

Lemma StronglySorted_List_filter (f : Z -> bool) (l : list Z) :
  StronglySorted Z.le l -> StronglySorted Z.le (List.filter f l).
Proof.
  induction 1 as [|x l Hs IH Hall]; simpl; [constructor|].
  destruct (f x); [|exact IH].
  constructor; [exact IH|].
  rewrite List.Forall_forall in *. intros y Hy.
  apply filter_In in Hy as [Hy _]. now apply Hall.
Qed.

Lemma value_in_card_values (c : Card) : value c ∈ card_values.
Proof.
  destruct c as [r s]. apply list_elem_of_In.
  destruct r; vm_compute; tauto.
Qed.

Lemma holds_value_elem_of (cards : list Card) (v : Z) :
  holds_value cards v = true <-> v ∈ map value cards.
Proof.
  unfold holds_value. rewrite existsb_exists, list_elem_of_In, in_map_iff.
  split; intros (c & H1 & H2).
  - exists c. split; [now apply Z.eqb_eq|exact H1].
  - exists c. split; [exact H2|now apply Z.eqb_eq].
Qed.

(** [unique_values] of [detect_draws]: the card values that occur, in
    increasing order. *)
Lemma unique_values_canonical (cards : list Card) :
  sorted_asc (py_set (sorted_asc (map value cards)))
  = List.filter (holds_value cards) card_values.
Proof.
  apply (Sorted_unique Z.le).
  - apply sorted_asc_Sorted.
  - apply StronglySorted_Sorted, StronglySorted_List_filter.
    apply Sorted_StronglySorted; [apply _|].
    unfold card_values. repeat constructor; lia.
  - apply NoDup_Permutation.
    + unfold sorted_asc. rewrite sorted_desc_Permutation.
      apply NoDup_remove_dups.
    + apply NoDup_List_filter.
      apply (bool_decide_eq_true_1 (NoDup card_values)).
      vm_compute. reflexivity.
    + intros v. unfold sorted_asc, py_set.
      rewrite sorted_desc_Permutation, elem_of_remove_dups,
        sorted_desc_Permutation.
      rewrite <- holds_value_elem_of. split.
      * intros Hv. apply list_elem_of_In, filter_In. split; [|exact Hv].
        apply holds_value_elem_of, list_elem_of_In, in_map_iff in Hv
          as (c & <- & _).
        apply list_elem_of_In, value_in_card_values.
      * intros Hv. apply list_elem_of_In, filter_In in Hv. tauto.
Qed.

Lemma filter_select {A} (f : A -> bool) (l : list A) :
  List.filter f l = select (map f l) l.
Proof.
  induction l as [|x l IH]; [reflexivity|].
  simpl. destruct (f x); now rewrite IH.
Qed.

Lemma in_all_masks (mask : list bool) : In mask (all_masks (length mask)).
Proof.
  induction mask as [|b mask IH]; simpl; [now left|].
  apply in_flat_map. exists mask. split; [exact IH|].
  destruct b; simpl; tauto.
Qed.

Lemma straight_draws_masks (mask : list bool) :
  length mask = 13%nat ->
  let unique_values := select mask card_values in
  let indices := seq 0 (length unique_values - 3) in
  find_open_ended unique_values indices = open_ended_mask mask
  /\ (open_ended_mask mask = false ->
      find_gutshot unique_values indices = gutshot_mask mask).
Proof.
  intros Hlen.
  pose (check := fun mask : list bool =>
    let unique_values := select mask card_values in
    let indices := seq 0 (length unique_values - 3) in
    Bool.eqb (find_open_ended unique_values indices) (open_ended_mask mask)
    && (open_ended_mask mask
        || Bool.eqb (find_gutshot unique_values indices)
             (gutshot_mask mask))).
  assert (Hall : forallb check (all_masks 13) = true)
    by (vm_compute; reflexivity).
  rewrite forallb_forall in Hall.
  assert (Hc : check mask = true)
    by (apply Hall; rewrite <- Hlen; apply in_all_masks).
  unfold check in Hc. cbv zeta in *.
  apply andb_prop in Hc as [H1 H2]. apply eqb_prop in H1.
  split; [exact H1|]. intros Hno. rewrite Hno in H2. simpl in H2.
  now apply eqb_prop in H2.
Qed.

Lemma holds_value_range (cards : list Card) (v : Z) :
  holds_value cards v = true -> 0 <= v <= 12.
Proof.
  intros Hv.
  apply holds_value_elem_of, list_elem_of_In, in_map_iff in Hv
    as (c & <- & _).
  destruct c as [r s]. destruct r; cbn; lia.
Qed.

Lemma mask_at_holds (cards : list Card) (v : Z) :
  mask_at (map (holds_value cards) card_values) v = holds_value cards v.
Proof.
  unfold mask_at.
  destruct (Z.leb_spec 0 v) as [Hge|Hlt]; cbn [andb].
  - destruct (Z.ltb_spec v 13) as [Hlt|Hge13].
    + assert (Hcases : v = 0 \/ v = 1 \/ v = 2 \/ v = 3 \/ v = 4 \/ v = 5
                       \/ v = 6 \/ v = 7 \/ v = 8 \/ v = 9 \/ v = 10
                       \/ v = 11 \/ v = 12) by lia.
      repeat (destruct Hcases as [->|Hcases]; [reflexivity|]).
      subst v. reflexivity.
    + rewrite nth_overflow by (rewrite length_map; simpl; lia).
      symmetry. apply not_true_is_false. intros Hv.
      apply holds_value_range in Hv. lia.
  - symmetry. apply not_true_is_false. intros Hv.
    apply holds_value_range in Hv. lia.
Qed.

(** X24.  The straight draws of [detect_draws], on the values 0 (a two)
    to 12 (an ace) of the cards: an open-ended draw is reported exactly
    when four consecutive values from a three at least to a king at most
    are held (two to five and jack to ace are not reported, and a made
    straight is); a gutshot is reported exactly when no open-ended draw is
    and four of five consecutive values are held, the lowest and the
    highest among them.  The ace is never counted as low.  Eight outs are
    counted for the first and four for the second. *)
Theorem detect_draws_straight (hole_cards board : list Card) :
  let d := detect_draws hole_cards board in
  let holds := holds_value (hole_cards ++ board) in
  (open_ended_straight_draw d = true
   <-> exists v, 1 <= v <= 8
                 /\ forall w, v <= w <= v + 3 -> holds w = true)
  /\ (gutshot_straight_draw d = true
      <-> open_ended_straight_draw d = false
          /\ exists v g, 0 <= v <= 8 /\ v < g < v + 4
                         /\ holds g = false
                         /\ forall w, v <= w <= v + 4 -> w <> g ->
                                      holds w = true)
  /\ straight_outs d
     = (if open_ended_straight_draw d then 8
        else if gutshot_straight_draw d then 4 else 0).
Proof.
  cbv zeta. unfold detect_draws. cbv zeta.
  destruct (fold_left _ (suit_counter _) _) as [[flush fsuit] fouts].
  cbn [open_ended_straight_draw gutshot_straight_draw straight_outs].
  rewrite unique_values_canonical, filter_select.
  set (cards := hole_cards ++ board).
  set (mask := map (holds_value cards) card_values).
  destruct (straight_draws_masks mask) as [Hopen Hgut];
    [unfold mask; now rewrite length_map|].
  cbv zeta in Hopen, Hgut. rewrite Hopen.
  assert (Hat : forall v, mask_at mask v = holds_value cards v)
    by (intros v; apply mask_at_holds).
  assert (Hopen_spec : open_ended_mask mask = true
            <-> exists v, 1 <= v <= 8
                  /\ forall w, v <= w <= v + 3 -> holds_value cards w = true).
  { unfold open_ended_mask. rewrite existsb_exists. split.
    - intros (v & Hv & Hall). exists v. split; [simpl in Hv; lia|].
      rewrite forallb_forall in Hall. intros w Hw. rewrite <- Hat.
      apply Hall. simpl. lia.
    - intros (v & Hv & Hall). exists v. split; [simpl; lia|].
      apply forallb_forall. intros w Hw. rewrite Hat. apply Hall.
      simpl in Hw. lia. }
  assert (Hgut_spec : gutshot_mask mask = true
            <-> exists v g, 0 <= v <= 8 /\ v < g < v + 4
                  /\ holds_value cards g = false
                  /\ forall w, v <= w <= v + 4 -> w <> g ->
                               holds_value cards w = true).
  { unfold gutshot_mask. rewrite existsb_exists. split.
    - intros (v & Hv & Hex). apply existsb_exists in Hex as (g & Hg & Hand).
      apply andb_prop in Hand as [Hno Hall]. exists v, g.
      split; [simpl in Hv; lia|]. split; [simpl in Hg; lia|].
      split; [rewrite <- Hat; now apply negb_true_iff|].
      rewrite forallb_forall in Hall. intros w Hw Hne.
      assert (Hin : In w [v; v + 1; v + 2; v + 3; v + 4]) by (simpl; lia).
      apply Hall in Hin. apply orb_prop in Hin as [E|E].
      + apply Z.eqb_eq in E. contradiction.
      + now rewrite <- Hat.
    - intros (v & g & Hv & Hg & Hno & Hall). exists v.
      split; [simpl; lia|]. apply existsb_exists. exists g.
      split; [simpl; lia|]. apply andb_true_intro. split.
      + rewrite Hat. now apply negb_true_iff.
      + apply forallb_forall. intros w Hw.
        destruct (Z.eqb_spec w g) as [E|E]; [reflexivity|]. simpl.
        rewrite Hat. apply Hall; [simpl in Hw; lia|exact E]. }
  split; [exact Hopen_spec|]. split; [|reflexivity].
  destruct (open_ended_mask mask) eqn:Hopen_b; cbn [negb].
  - split; [discriminate|intros [Hf _]; discriminate].
  - rewrite (Hgut eq_refl), Hgut_spec. tauto.
Qed.
